(** * RSS feed refresh and article de-duplication

    A shallow embedding of the server actions of the newsletter application
    that decide which feeds are stale, ingest fetched articles into the
    shared article collection, answer the date-scoped article query and
    remove a feed:

    - [getFeedsToRefresh], [prepareFeedsAndArticles]  (lib/rss/feed-refresh.ts)
    - [createRssArticle], [bulkCreateRssArticles],
      [getArticlesByFeedsAndDateRange]                (actions/rss-article.ts)
    - [fetchAndStoreFeed]                             (actions/rss-fetch.ts)
    - [updateFeedLastFetched], [deleteRssFeed]        (actions/rss-feed.ts)
    - [wrapDatabaseOperation]                         (lib/database/error-handler.ts)

    The two MongoDB collections are lists of documents in natural order.
    Every [await]ed collection call is one atomic step of a state-and-
    exception monad; writes of other requests may land between two such
    steps and are supplied by the world as a list of pending store
    transformers, so that a race between a lookup and an insert can be
    replayed.  The refreshes that [prepareFeedsAndArticles] hands to
    [Promise.allSettled] are promises in flight: their steps interleave
    in the order of a schedule.  Dates are integers (milliseconds since
    the epoch). *)

From Stdlib Require Import ZArith List String Ascii Bool Arith Lia.
From Stdlib Require Import Sorting.Sorted Sorting.Permutation.
Import ListNotations.
Local Open Scope string_scope.
Local Open Scope list_scope.

(** ** Documents *)

(** An [ObjectId] is identified with its canonical hexadecimal string,
    which is what [toString] prints. *)
Definition ObjectId := string.

Record FeedMetadata := mkMetadata {
  md_title : option string;
  md_description : option string;
  md_link : option string;
  md_imageUrl : option string;
  md_language : option string }.

(** A document of the [RssFeed] collection.  [fd_lastFetched = None] is a
    feed that was never fetched (field absent or null). *)
Record RssFeed := mkFeed {
  fd_id : ObjectId;
  fd_userId : ObjectId;
  fd_url : string;
  fd_meta : FeedMetadata;
  fd_lastFetched : option Z }.

(** The article fields that the actions copy without looking at them. *)
Record ArticleFields := mkFields {
  af_title : string;
  af_link : string;
  af_content : option string;
  af_summary : option string;
  af_author : option string;
  af_categories : option (list string);
  af_imageUrl : option string }.

(** [ArticleData] of the parser and [ArticleCreateData] of the actions. *)
Record ArticleData := mkArticleData {
  ad_guid : string;
  ad_pubDate : Z;
  ad_fields : ArticleFields }.

Record ArticleCreateData := mkCreateData {
  feedId : string;
  guid : string;
  pubDate : Z;
  fields : ArticleFields }.

(** A document of the [RssArticle] collection.  [art_sourceFeedIds = None]
    is a document without the [sourceFeedIds] field. *)
Record RssArticle := mkArticle {
  art_id : nat;
  art_feedId : ObjectId;
  art_guid : string;
  art_sourceFeedIds : option (list ObjectId);
  art_pubDate : Z;
  art_fields : ArticleFields;
  art_createdAt : Z;
  art_updatedAt : Z }.

Definition withSourceFeedIds (a : RssArticle) (s : option (list ObjectId)) : RssArticle :=
  mkArticle (art_id a) (art_feedId a) (art_guid a) s (art_pubDate a)
            (art_fields a) (art_createdAt a) (art_updatedAt a).

Definition withLastFetched (f : RssFeed) (t : Z) : RssFeed :=
  mkFeed (fd_id f) (fd_userId f) (fd_url f) (fd_meta f) (Some t).

(** [sourceFeedIds || []] *)
Definition sourcesOf (a : RssArticle) : list ObjectId :=
  match art_sourceFeedIds a with Some l => l | None => [] end.

(** ** Errors, log lines, the world *)

Inductive Exn :=
| JsError (message : string)      (* [new Error(message)]: carries no [code] *)
| MongoServerError (code : Z).    (* error of the driver with a numeric [code] *)

Inductive LogEntry :=
| LogRefreshing (stale total : nat)
| LogRefreshComplete (successful failed : nat)
| LogAllFresh (total : nat)
| LogDatabaseError (operationName : string) (e : Exn)
| LogCreateFailed (articleGuid : string) (e : Exn).

Record Store := mkStore {
  rssFeeds : list RssFeed;
  rssArticles : list RssArticle;
  clock : Z;          (* what [new Date()] reads *)
  nextId : nat }.     (* the next [_id] that [insertOne] generates *)

Record World := mkWorld {
  store : Store;
  others : list (Store -> Store);   (* writes of other requests, one per awaited call *)
  console : list LogEntry }.

Inductive Outcome (A : Type) :=
| Returned (a : A)
| Thrown (e : Exn).
Arguments Returned {A} a.
Arguments Thrown {A} e.

Definition M (A : Type) := World -> Outcome A * World.

Definition ret {A} (a : A) : M A := fun w => (Returned a, w).
Definition throw {A} (e : Exn) : M A := fun w => (Thrown e, w).
Definition bind {A B} (m : M A) (k : A -> M B) : M B :=
  fun w => match m w with
           | (Returned a, w') => k a w'
           | (Thrown e, w') => (Thrown e, w')
           end.
Definition tryCatch {A} (m : M A) (handler : Exn -> M A) : M A :=
  fun w => match m w with
           | (Returned a, w') => (Returned a, w')
           | (Thrown e, w') => handler e w'
           end.

Notation "x <- m ;; k" := (bind m (fun x => k))
  (at level 61, m at next level, right associativity).
Notation "m ;;; k" := (bind m (fun _ => k))
  (at level 61, right associativity).

Definition outcome {A} (m : M A) (w : World) : Outcome A := fst (m w).
Definition after {A} (m : M A) (w : World) : World := snd (m w).

Definition emit (l : LogEntry) : M unit :=
  fun w => (Returned tt, mkWorld (store w) (others w) (console w ++ [l])).

Definition newDate : M Z := fun w => (Returned (clock (store w)), w).

(** The write of another request that lands before the next awaited call. *)
Definition interleave (w : World) : World :=
  match others w with
  | [] => w
  | step :: rest => mkWorld (step (store w)) rest (console w)
  end.

(** One awaited collection call: an atomic read or write of the store. *)
Definition dbCall {A} (op : Store -> Outcome A * Store) : M A :=
  fun w => let w1 := interleave w in
           let (r, s) := op (store w1) in
           (r, mkWorld s (others w1) (console w1)).

Fixpoint mapM {A B} (f : A -> M B) (l : list A) : M (list B) :=
  match l with
  | [] => ret []
  | x :: rest => y <- f x ;; ys <- mapM f rest ;; ret (y :: ys)
  end.

(** ** Promises in flight

    [prepareFeedsAndArticles] starts the refresh of every stale feed
    before it awaits any of them, so the collection calls of the refreshes
    interleave.  A [Task] is a promise that has not settled yet: the step
    it waits for and how it goes on with the outcome of that step.  The
    runtime switches between promises only at an [await]; here a promise
    may be suspended before every step, so every run of the runtime is
    one of the runs below. *)
Inductive Task (A : Type) : Type :=
| Settled (r : Outcome A)
| Await {X : Type} (step : M X) (k : Outcome X -> Task A).
Arguments Settled {A} r.
Arguments Await {A X} step k.

Definition resolve {A} (a : A) : Task A := Settled (Returned a).
Definition reject {A} (e : Exn) : Task A := Settled (Thrown e).

(** One step of the monad above, as a promise. *)
Definition pending {X} (step : M X) : Task X := Await step Settled.

Fixpoint andThen {A B} (t : Task A) (k : A -> Task B) : Task B :=
  match t with
  | Settled (Returned a) => k a
  | Settled (Thrown e) => Settled (Thrown e)
  | Await step k' => Await step (fun r => andThen (k' r) k)
  end.

Fixpoint orCatch {A} (t : Task A) (handler : Exn -> Task A) : Task A :=
  match t with
  | Settled (Returned a) => Settled (Returned a)
  | Settled (Thrown e) => handler e
  | Await step k' => Await step (fun r => orCatch (k' r) handler)
  end.

Notation "'upon' x <~ t ;; k" := (andThen t (fun x => k))
  (at level 61, x name, t at next level, right associativity).

(** A promise run to its end with nothing else in between. *)
Fixpoint runTask {A} (t : Task A) (w : World) : Outcome A * World :=
  match t with
  | Settled r => (r, w)
  | Await step k => let (r, w1) := step w in runTask (k r) w1
  end.

(** The runtime resumes one promise: it takes its next step. *)
Definition advance {A} (t : Task A) (w : World) : Task A * World :=
  match t with
  | Settled r => (Settled r, w)
  | Await step k => let (r, w1) := step w in (k r, w1)
  end.

Fixpoint advanceNth {A} (turn : nat) (tasks : list (Task A)) (w : World) {struct tasks}
  : list (Task A) * World :=
  match tasks with
  | [] => ([], w)
  | t :: rest =>
      match turn with
      | 0 => let (t', w1) := advance t w in (t' :: rest, w1)
      | S n => let (rest', w1) := advanceNth n rest w in (t :: rest', w1)
      end
  end.

Inductive PromiseSettledResult (A : Type) :=
| Fulfilled (value : A)
| Rejected (reason : Exn).
Arguments Fulfilled {A} value.
Arguments Rejected {A} reason.

Definition settle {A} (r : Outcome A) : PromiseSettledResult A :=
  match r with Returned a => Fulfilled a | Thrown e => Rejected e end.

Fixpoint finish {A} (tasks : list (Task A)) : M (list (PromiseSettledResult A)) :=
  match tasks with
  | [] => ret []
  | t :: rest =>
      fun w => let (r, w1) := runTask t w in
               (rs <- finish rest ;; ret (settle r :: rs)) w1
  end.

(** [Promise.allSettled]: every promise runs to its end, a rejection is
    recorded and never thrown.  [schedule] is the order in which the
    runtime resumes the promises: turn [n] lets the [n]-th promise take
    one step (nothing happens if it has settled).  When the schedule is
    used up, what is left is run one promise after the other. *)
Fixpoint allSettled {A} (schedule : list nat) (tasks : list (Task A))
  : M (list (PromiseSettledResult A)) :=
  match schedule with
  | [] => finish tasks
  | turn :: later =>
      fun w => let (tasks', w1) := advanceNth turn tasks w in
               allSettled later tasks' w1
  end.

Definition isFulfilled {A} (r : PromiseSettledResult A) : bool :=
  match r with Fulfilled _ => true | Rejected _ => false end.
Definition isRejected {A} (r : PromiseSettledResult A) : bool :=
  match r with Fulfilled _ => false | Rejected _ => true end.

(** ** Collection calls of the MongoDB driver *)

Definition includes (l : list string) (x : string) : bool :=
  existsb (String.eqb x) l.

(** [$addToSet] on a possibly absent array field. *)
Definition addToSet (x : ObjectId) (s : option (list ObjectId)) : option (list ObjectId) :=
  match s with
  | None => Some [x]
  | Some l => if includes l x then Some l else Some (l ++ [x])
  end.

(** [$pull] of one value from an array field. *)
Definition pull (x : ObjectId) (s : option (list ObjectId)) : option (list ObjectId) :=
  match s with
  | None => None
  | Some l => Some (filter (fun y => negb (String.eqb x y)) l)
  end.

(** [{ sourceFeedIds: x }]: the array field contains [x]. *)
Definition hasSource (x : ObjectId) (a : RssArticle) : bool :=
  includes (sourcesOf a) x.

(** Update the first document that matches, return it as it is afterwards. *)
Fixpoint updateFirst {A} (p : A -> bool) (f : A -> A) (l : list A) : option A * list A :=
  match l with
  | [] => (None, [])
  | x :: rest =>
      if p x then (Some (f x), f x :: rest)
      else let (r, rest') := updateFirst p f rest in (r, x :: rest')
  end.

Fixpoint removeFirst {A} (p : A -> bool) (l : list A) : list A :=
  match l with
  | [] => []
  | x :: rest => if p x then rest else x :: removeFirst p rest
  end.

Definition guidIs (g : string) (a : RssArticle) : bool := String.eqb (art_guid a) g.
Definition feedIdIs (o : ObjectId) (f : RssFeed) : bool := String.eqb (fd_id f) o.

Definition setArticles (s : Store) (l : list RssArticle) : Store :=
  mkStore (rssFeeds s) l (clock s) (nextId s).
Definition setFeeds (s : Store) (l : list RssFeed) : Store :=
  mkStore l (rssArticles s) (clock s) (nextId s).

(** [rssArticles().findOne({ guid })] *)
Definition articles_findOne_guid (g : string) : M (option RssArticle) :=
  dbCall (fun s => (Returned (find (guidIs g) (rssArticles s)), s)).

(** [rssArticles().findOne({ _id })] *)
Definition articles_findOne_id (i : nat) : M (option RssArticle) :=
  dbCall (fun s => (Returned (find (fun a => Nat.eqb (art_id a) i) (rssArticles s)), s)).

(** [rssArticles().findOneAndUpdate({ guid }, { $addToSet: { sourceFeedIds } },
    { returnDocument: "after" })] *)
Definition articles_findOneAndUpdate_addToSet (g : string) (o : ObjectId)
  : M (option RssArticle) :=
  dbCall (fun s =>
    let (r, l) := updateFirst (guidIs g)
                    (fun a => withSourceFeedIds a (addToSet o (art_sourceFeedIds a)))
                    (rssArticles s) in
    (Returned r, setArticles s l)).

(** [rssArticles().insertOne(doc)].  The collection has a unique index on
    [guid]: a second document with a stored guid is refused with the
    duplicate-key error, code 11000. *)
Definition articles_insertOne (doc : nat -> RssArticle) : M nat :=
  dbCall (fun s =>
    let d := doc (nextId s) in
    if existsb (guidIs (art_guid d)) (rssArticles s)
    then (Thrown (MongoServerError 11000), s)
    else (Returned (nextId s),
          mkStore (rssFeeds s) (rssArticles s ++ [d]) (clock s) (S (nextId s)))).

(** [cursor.limit(n)] followed by [toArray()].  0 means no limit.  A
    negative [n] asks for at most [-n] documents in a single batch: the
    server closes the cursor after its first reply, which holds [batch]
    documents (101 unless they are large), so fewer than [-n] can come
    back. *)
Definition cursorLimit {A} (batch : nat) (n : Z) (l : list A) : list A :=
  if (n =? 0)%Z then l
  else if (n <? 0)%Z then firstn (Nat.min (Z.abs_nat n) batch) l
  else firstn (Z.abs_nat n) l.

(** [cursor.sort({ pubDate: -1 })]: insertion into a list that is already
    in descending order; documents of equal date keep their natural order. *)
Fixpoint insertDesc (a : RssArticle) (l : list RssArticle) : list RssArticle :=
  match l with
  | [] => [a]
  | b :: rest =>
      if (art_pubDate b <=? art_pubDate a)%Z then a :: b :: rest
      else b :: insertDesc a rest
  end.

Definition sortByPubDateDesc (l : list RssArticle) : list RssArticle :=
  fold_right insertDesc [] l.

(** The filter of the article query:
    [{ $or: [{ feedId: { $in } }, { sourceFeedIds: { $in } }],
       pubDate: { $gte: startDate, $lte: endDate } }] *)
Definition matchesFeedsAndRange (ids : list ObjectId) (startDate endDate : Z)
           (a : RssArticle) : bool :=
  (includes ids (art_feedId a) || existsb (includes ids) (sourcesOf a))
  && (startDate <=? art_pubDate a)%Z && (art_pubDate a <=? endDate)%Z.

(** [firstBatch] tells how many of the documents that the query found fit
    into the first batch of the server's reply. *)
Definition articles_find_feedsAndRange (firstBatch : list RssArticle -> nat)
           (ids : list ObjectId) (startDate endDate limit : Z)
  : M (list RssArticle) :=
  dbCall (fun s =>
    (Returned (cursorLimit
                 (firstBatch
                    (sortByPubDateDesc
                       (filter (matchesFeedsAndRange ids startDate endDate) (rssArticles s))))
                 limit
                 (sortByPubDateDesc
                    (filter (matchesFeedsAndRange ids startDate endDate) (rssArticles s)))),
     s)).

(** [rssArticles().updateMany({ sourceFeedIds: o }, { $pull: { sourceFeedIds: o } })] *)
Definition articles_updateMany_pull (o : ObjectId) : M unit :=
  dbCall (fun s =>
    (Returned tt,
     setArticles s
       (map (fun a => if hasSource o a
                      then withSourceFeedIds a (pull o (art_sourceFeedIds a))
                      else a)
            (rssArticles s)))).

(** [{ $or: [{ sourceFeedIds: { $size: 0 } }, { sourceFeedIds: { $exists: false } }] }] *)
Definition noSources (a : RssArticle) : bool :=
  match art_sourceFeedIds a with
  | Some [] => true
  | Some (_ :: _) => false
  | None => true
  end.

Definition articles_deleteMany_noSources : M unit :=
  dbCall (fun s =>
    (Returned tt, setArticles s (filter (fun a => negb (noSources a)) (rssArticles s)))).

(** [rssFeeds().find({ _id: { $in } })] *)
Definition feeds_find_idIn (ids : list ObjectId) : M (list RssFeed) :=
  dbCall (fun s => (Returned (filter (fun f => includes ids (fd_id f)) (rssFeeds s)), s)).

(** [rssFeeds().findOne({ _id })] *)
Definition feeds_findOne_id (o : ObjectId) : M (option RssFeed) :=
  dbCall (fun s => (Returned (find (feedIdIs o) (rssFeeds s)), s)).

(** [rssFeeds().findOneAndUpdate({ _id }, { $set: { lastFetched } },
    { returnDocument: "after" })] *)
Definition feeds_findOneAndUpdate_lastFetched (o : ObjectId) (t : Z) : M (option RssFeed) :=
  dbCall (fun s =>
    let (r, l) := updateFirst (feedIdIs o) (fun f => withLastFetched f t) (rssFeeds s) in
    (Returned r, setFeeds s l)).

(** [rssFeeds().deleteOne({ _id })] *)
Definition feeds_deleteOne (o : ObjectId) : M unit :=
  dbCall (fun s => (Returned tt, setFeeds s (removeFirst (feedIdIs o) (rssFeeds s)))).

(** [new Set(urls)] spread into an array: first occurrences, in order. *)
Fixpoint distinctFrom (seen l : list string) : list string :=
  match l with
  | [] => []
  | x :: rest =>
      if includes seen x then distinctFrom seen rest
      else x :: distinctFrom (x :: seen) rest
  end.
Definition distinct (l : list string) : list string := distinctFrom [] l.

(** [$max] of dates, ignoring absent values. *)
Definition maxDate (a b : option Z) : option Z :=
  match a, b with
  | Some x, Some y => Some (Z.max x y)
  | Some x, None => Some x
  | None, b' => b'
  end.

Record UrlGroup := mkGroup {
  grp_id : string;                   (* [_id]: the url of the group *)
  maxLastFetched : option Z }.

(** The aggregation pipeline of [getFeedsToRefresh]:
    [$match { url: { $in }, lastFetched: { $gte } }] then
    [$group { _id: "$url", maxLastFetched: { $max: "$lastFetched" } }]. *)
Definition recentlyFetched (urls : list string) (threshold : Z) (f : RssFeed) : bool :=
  includes urls (fd_url f)
  && match fd_lastFetched f with
     | Some t => (threshold <=? t)%Z
     | None => false
     end.

Definition groupByUrl (docs : list RssFeed) : list UrlGroup :=
  map (fun u => mkGroup u
                  (fold_right maxDate None
                     (map fd_lastFetched
                          (filter (fun f => String.eqb (fd_url f) u) docs))))
      (distinct (map fd_url docs)).

Definition feeds_aggregate_recent (urls : list string) (threshold : Z) : M (list UrlGroup) :=
  dbCall (fun s =>
    (Returned (groupByUrl (filter (recentlyFetched urls threshold) (rssFeeds s))), s)).

(** ** The actions *)

Record BulkOperationResult := mkBulk {
  created : nat;
  skipped : nat;
  errors : nat }.

Record FeedInfo := mkFeedInfo {
  fi_id : string;
  fi_title : option string;
  fi_url : string }.

(** An element of the array that [getArticlesByFeedsAndDateRange] returns. *)
Record ArticleWithFeed := mkArticleWithFeed {
  awf_id : nat;
  awf_feedId : string;
  awf_sourceFeedIds : list string;
  awf_sourceCount : nat;
  awf_feed : option FeedInfo;
  awf_guid : string;
  awf_pubDate : Z;
  awf_fields : ArticleFields }.

Record FetchResult := mkFetchResult {
  fr_metadata : FeedMetadata;
  fr_created : nat;
  fr_skipped : nat;
  fr_errors : nat }.

Record PrepareFeedsParams := mkParams {
  feedIds : list string;
  startDate : Z;
  endDate : Z }.

(** [CACHE_WINDOW = 3 * 60 * 60 * 1000] and [ARTICLE_LIMIT = 100] *)
Definition CACHE_WINDOW : Z := 3 * 60 * 60 * 1000.
Definition ARTICLE_LIMIT : Z := 100.

Definition noArticlesFound : Exn :=
  JsError "No articles found for the selected feeds and date range".

(** [error instanceof Error && error.code === 11000] *)
Definition isDuplicateKey (e : Exn) : bool :=
  match e with
  | MongoServerError c => (c =? 11000)%Z
  | JsError _ => false
  end.

(** [wrapDatabaseOperation]: log and rethrow *)
Definition wrapDatabaseOperation {A} (operation : M A) (operationName : string) : M A :=
  tryCatch operation (fun e => emit (LogDatabaseError operationName e) ;;; throw e).

Definition fromObjectId (o : ObjectId) : string := o.

(** [fetchAndStoreFeed] maps every parsed article to the shape of
    [bulkCreateRssArticles]. *)
Definition toCreateData (id : string) (a : ArticleData) : ArticleCreateData :=
  mkCreateData id (ad_guid a) (ad_pubDate a) (ad_fields a).

(** [categories: data.categories || []] *)
Definition storedFields (f : ArticleFields) : ArticleFields :=
  mkFields (af_title f) (af_link f) (af_content f) (af_summary f) (af_author f)
           (Some (match af_categories f with Some c => c | None => [] end))
           (af_imageUrl f).

(** ** Adding a feed *)

Record AddFeedResult := mkAddFeedResult {
  afr_feed : RssFeed;
  articlesCreated : nat;
  articlesSkipped : nat;
  afr_error : option string }.

Definition withMetadata (f : RssFeed) (m : FeedMetadata) : RssFeed :=
  mkFeed (fd_id f) (fd_userId f) (fd_url f) m (fd_lastFetched f).

Definition sameSubscription (userId : ObjectId) (url : string) (f : RssFeed) : bool :=
  String.eqb (fd_userId f) userId && String.eqb (fd_url f) url.

(** [rssFeeds().insertOne({ userId, url, createdAt, updatedAt })].  The
    new document has no metadata and no [lastFetched]; its [_id] is the
    next id the driver generates ([generated] names the ids in the order
    of generation).  The collection has a unique index on (userId, url):
    a second subscription of a user to a url is refused with the
    duplicate-key error, code 11000. *)
Definition feeds_insertOne (generated : nat -> ObjectId) (userId : ObjectId) (url : string)
  : M ObjectId :=
  dbCall (fun s =>
    if existsb (sameSubscription userId url) (rssFeeds s)
    then (Thrown (MongoServerError 11000), s)
    else (Returned (generated (nextId s)),
          mkStore (rssFeeds s ++ [mkFeed (generated (nextId s)) userId url
                                         (mkMetadata None None None None None) None])
                  (rssArticles s) (clock s) (S (nextId s)))).

(** [rssFeeds().updateOne({ _id }, { $set: { title, description, link,
    imageUrl, language, updatedAt } })] *)
Definition feeds_updateOne_metadata (o : ObjectId) (m : FeedMetadata) : M unit :=
  dbCall (fun s =>
    (Returned tt,
     setFeeds s (snd (updateFirst (feedIdIs o) (fun f => withMetadata f m) (rssFeeds s))))).

(** ** The newsletter archive (actions/newsletter.ts)

    The [Newsletter] collection lives beside the two collections above and
    no action touches both.  Its actions are sequences of collection
    calls on a world of their own, in a state-and-exception monad of the
    same shape; the calls of one action are run without a write of
    another request in between. *)

Record NewsletterContent := mkContent {
  nc_suggestedTitles : list string;
  nc_suggestedSubjectLines : list string;
  nc_body : string;
  nc_topAnnouncements : list string;
  nc_additionalInfo : option string }.

(** The argument of [createNewsletter]. *)
Record NewsletterData := mkNewsletterData {
  nd_userId : string;
  nd_content : NewsletterContent;
  nd_startDate : Z;
  nd_endDate : Z;
  nd_userInput : option string;
  nd_feedsUsed : list string }.

(** A document of the collection, which is also what the actions return:
    the ids are printed as they are stored. *)
Record Newsletter := mkNewsletter {
  nl_id : ObjectId;
  nl_userId : ObjectId;
  nl_content : NewsletterContent;
  nl_startDate : Z;
  nl_endDate : Z;
  nl_userInput : option string;
  nl_feedsUsed : list ObjectId;
  nl_createdAt : Z;
  nl_updatedAt : Z }.

Record Archive := mkArchive {
  newsletters : list Newsletter;
  archiveClock : Z;
  archiveNextId : nat;
  archiveConsole : list LogEntry }.

Definition N (A : Type) := Archive -> Outcome A * Archive.

Definition retN {A} (a : A) : N A := fun w => (Returned a, w).
Definition throwN {A} (e : Exn) : N A := fun w => (Thrown e, w).
Definition bindN {A B} (m : N A) (k : A -> N B) : N B :=
  fun w => match m w with
           | (Returned a, w') => k a w'
           | (Thrown e, w') => (Thrown e, w')
           end.

Notation "'await' x <~ m ;; k" := (bindN m (fun x => k))
  (at level 61, x name, m at next level, right associativity).

(** [wrapDatabaseOperation] on the archive. *)
Definition wrapArchiveOperation {A} (operation : N A) (operationName : string) : N A :=
  fun w => match operation w with
           | (Returned a, w') => (Returned a, w')
           | (Thrown e, w') =>
               (Thrown e,
                mkArchive (newsletters w') (archiveClock w') (archiveNextId w')
                          (archiveConsole w' ++ [LogDatabaseError operationName e]))
           end.

Definition archiveDate : N Z := fun w => (Returned (archiveClock w), w).

Definition newsletterIdIs (o : ObjectId) (n : Newsletter) : bool := String.eqb (nl_id n) o.
Definition newsletterOf (u : ObjectId) (n : Newsletter) : bool := String.eqb (nl_userId n) u.

(** [newsletters().findOne({ _id })] *)
Definition newsletters_findOne (o : ObjectId) : N (option Newsletter) :=
  fun w => (Returned (find (newsletterIdIs o) (newsletters w)), w).

(** [newsletters().insertOne(doc)]; [generated] names the ids of the driver
    in the order of generation. *)
Definition newsletters_insertOne (generated : nat -> ObjectId) (doc : ObjectId -> Newsletter)
  : N ObjectId :=
  fun w => (Returned (generated (archiveNextId w)),
            mkArchive (newsletters w ++ [doc (generated (archiveNextId w))])
                      (archiveClock w) (S (archiveNextId w)) (archiveConsole w)).

(** [newsletters().deleteOne({ _id })] *)
Definition newsletters_deleteOne (o : ObjectId) : N unit :=
  fun w => (Returned tt,
            mkArchive (removeFirst (newsletterIdIs o) (newsletters w))
                      (archiveClock w) (archiveNextId w) (archiveConsole w)).

(** [newsletters().countDocuments({ userId })] *)
Definition newsletters_count (u : ObjectId) : N nat :=
  fun w => (Returned (List.length (filter (newsletterOf u) (newsletters w))), w).

(** [cursor.sort({ createdAt: -1 })].  Among newsletters of equal
    [createdAt] the server promises no order, and the order may differ
    from one query to the next: [rank] is the order that the server
    happens to use for the query at hand (lower rank first). *)
Definition comesBefore (rank : Newsletter -> nat) (a b : Newsletter) : bool :=
  (nl_createdAt b <? nl_createdAt a)%Z
  || ((nl_createdAt b =? nl_createdAt a)%Z && (rank a <=? rank b)%nat).

Fixpoint insertNewest (rank : Newsletter -> nat) (a : Newsletter) (l : list Newsletter)
  : list Newsletter :=
  match l with
  | [] => [a]
  | b :: rest =>
      if comesBefore rank a b then a :: b :: rest
      else b :: insertNewest rank a rest
  end.

Definition sortByCreatedAtDesc (rank : Newsletter -> nat) (l : list Newsletter)
  : list Newsletter :=
  fold_right (insertNewest rank) [] l.

(** The [options] of [getNewslettersByUserId]; a skip is a natural
    number. *)
Record Pagination := mkPagination {
  pg_limit : option Z;
  pg_skip : option nat }.

(** [if (options?.skip)] and [if (options?.limit)]: absent and 0 are false. *)
Definition optionsSkip (options : option Pagination) : option nat :=
  match options with
  | Some p => match pg_skip p with
              | Some 0 => None
              | Some n => Some n
              | None => None
              end
  | None => None
  end.

Definition optionsLimit (options : option Pagination) : option Z :=
  match options with
  | Some p => match pg_limit p with
              | Some l => if (l =? 0)%Z then None else Some l
              | None => None
              end
  | None => None
  end.

(** [newsletters().find({ userId }).sort({ createdAt: -1 })], then [skip]
    and [limit] when they were set on the cursor, then [toArray()].
    [rank] is the server's order among equal dates for this query and
    [firstBatch] the size of the first batch of its reply. *)
Definition newsletters_find (rank : Newsletter -> nat) (firstBatch : list Newsletter -> nat)
           (u : ObjectId) (skipBy : option nat) (limitBy : option Z)
  : N (list Newsletter) :=
  fun w =>
    let sorted := sortByCreatedAtDesc rank (filter (newsletterOf u) (newsletters w)) in
    let skipped := match skipBy with Some n => skipn n sorted | None => sorted end in
    (Returned (match limitBy with
               | Some l => cursorLimit (firstBatch skipped) l skipped
               | None => skipped
               end), w).

(** ** A concrete driver and a concrete network, for the examples *)

Definition isHexDigit (c : ascii) : bool :=
  let n := nat_of_ascii c in
  (((48 <=? n) && (n <=? 57)) || ((97 <=? n) && (n <=? 102))
   || ((65 <=? n) && (n <=? 70)))%nat.

Definition lowerHex (c : ascii) : ascii :=
  let n := nat_of_ascii c in
  if ((65 <=? n) && (n <=? 70))%nat then ascii_of_nat (n + 32) else c.

(** [new ObjectId(id)] on a string: 24 hexadecimal digits, printed back in
    lower case; anything else throws. *)
Definition hexObjectId (id : string) : option ObjectId :=
  let cs := list_ascii_of_string id in
  if (List.length cs =? 24)%nat && forallb isHexDigit cs
  then Some (string_of_list_ascii (map lowerHex cs))
  else None.

Definition feedA : string := "64b000000000000000000a01".
Definition feedB : string := "64b000000000000000000b02".
Definition feedC : string := "64b000000000000000000c03".
Definition userU : string := "64b0000000000000000000ff".

Definition noMetadata : FeedMetadata := mkMetadata None None None None None.

Definition plainFields (t : string) : ArticleFields :=
  mkFields t ("https://example.org/" ++ t) None None None None None.

Definition emptyStore (now : Z) : Store := mkStore [] [] now 0.

Definition quietWorld (s : Store) : World := mkWorld s [] [].

(** A network on which [https://a.example/rss] carries three articles and
    every other url times out. *)
Definition sampleNetwork (url id : string) : Exn + (FeedMetadata * list ArticleData) :=
  if String.eqb url "https://a.example/rss"
  then inr (mkMetadata (Some "A") None None None None,
            [ mkArticleData "g1" 1000 (plainFields "one");
              mkArticleData "g2" 2000 (plainFields "two");
              mkArticleData "g3" 3000 (plainFields "three") ])
  else inl (JsError "Request timed out").

Definition urlA : string := "https://a.example/rss".
Definition urlB : string := "https://b.example/rss".

(** Feeds A and B share a url; A was fetched at date 1000, B never.  Feed C
    has its own url, which times out on [sampleNetwork]. *)
Definition recordA : RssFeed := mkFeed feedA userU urlA noMetadata (Some 1000%Z).
Definition recordB : RssFeed := mkFeed feedB userU urlA noMetadata None.
Definition recordC : RssFeed := mkFeed feedC userU urlB noMetadata None.

Definition sharedUrlStore (now : Z) : Store := mkStore [recordA; recordB; recordC] [] now 0.

Definition dataFrom (id g : string) (d : Z) : ArticleCreateData :=
  mkCreateData id g d (plainFields g).

(** Two stored articles whose primary feed is A: one that only A
    produced, one that A and B produced. *)
Definition onlyA : RssArticle :=
  mkArticle 0 feedA "g1" (Some [feedA]) 1000 (plainFields "one") 0 0.
Definition fromAandB : RssArticle :=
  mkArticle 1 feedA "g2" (Some [feedA; feedB]) 2000 (plainFields "two") 0 0.
Definition fromB : RssArticle :=
  mkArticle 2 feedB "g3" (Some [feedB]) 3000 (plainFields "three") 0 0.

Definition threeArticles : Store :=
  mkStore [recordA; recordB; recordC] [onlyA; fromAandB; fromB] 5000 3.

(** Another request that inserts guid [g] from feed [id] with its own
    [insertOne], and one that writes nothing. *)
Definition otherInsert (id g : string) : Store -> Store :=
  fun s => mkStore (rssFeeds s)
                   (rssArticles s
                      ++ [mkArticle (nextId s) id g (Some [id]) 0 (plainFields g)
                                    (clock s) (clock s)])
                   (clock s) (S (nextId s)).
Definition otherIdle : Store -> Store := fun s => s.

(** The other request inserts "g1" from feed A after our lookup and before
    our insert. *)
Definition raceWorld : World :=
  mkWorld (emptyStore 5000) [otherIdle; otherInsert feedA "g1"] [].

(** The same race while feed B of [sharedUrlStore] is being refreshed:
    the lookup of the feed and the lookup of "g1" pass, then another
    request inserts "g1" from feed C. *)
Definition raceDuringRefresh : World :=
  mkWorld (sharedUrlStore 5000) [otherIdle; otherIdle; otherInsert feedC "g1"] [].

(** The ids that the driver generates in the examples: a fixed prefix and
    the number of the id as two hexadecimal digits. *)
Definition hexDigit (n : nat) : string :=
  String.substring (n mod 16) 1 "0123456789abcdef".
Definition generatedId (n : nat) : ObjectId :=
  ("64b0000000000000000000" ++ hexDigit (n / 16) ++ hexDigit n)%string.

(** A parser check that accepts exactly the two urls of the examples. *)
Definition sampleValidate (url : string) : bool :=
  String.eqb url urlA || String.eqb url urlB.

(** What [sampleNetwork] answers for [urlA]. *)
Definition sampleMetadata : FeedMetadata := mkMetadata (Some "A") None None None None.
Definition sampleArticles : list ArticleData :=
  [ mkArticleData "g1" 1000 (plainFields "one");
    mkArticleData "g2" 2000 (plainFields "two");
    mkArticleData "g3" 3000 (plainFields "three") ].

(** An archive with two newsletters of user U and one of user V. *)
Definition userV : string := "64b0000000000000000000ee".

Definition sampleContent (t : string) : NewsletterContent :=
  mkContent [t] [t] t [t] None.

Definition letter1 : Newsletter :=
  mkNewsletter "64b000000000000000000e01" userU (sampleContent "first") 0 100 None
               [feedA] 1000 1000.
Definition letter2 : Newsletter :=
  mkNewsletter "64b000000000000000000e02" userV (sampleContent "second") 0 100 None
               [feedB] 2000 2000.
Definition letter3 : Newsletter :=
  mkNewsletter "64b000000000000000000e03" userU (sampleContent "third") 0 100 None
               [feedA; feedB] 3000 3000.

Definition sampleArchive : Archive := mkArchive [letter1; letter2; letter3] 5000 3 [].

Definition sampleLetter : NewsletterData :=
  mkNewsletterData userU (sampleContent "fourth") 0 100 (Some "short") [feedA; feedC].

(** A server that puts 101 documents into a batch and has no preference
    among newsletters of equal date, and a runtime that resumes the
    refreshes in turn, each for one step. *)
Definition batchOf101 (A : Type) (l : list A) : nat := 101.

Definition noPreference (skipBy : option nat) (limitBy : option Z) (n : Newsletter) : nat := 0.

Fixpoint inTurn (promises rounds : nat) : list nat :=
  match rounds with
  | 0 => []
  | S n => seq 0 promises ++ inTurn promises n
  end.

(** A runtime that lets every refresh finish before it resumes the next. *)
Definition oneByOne : list nat := [].

Section Actions.

Set Default Proof Using "Type".

(** What lies outside the repository's sources: the constructor of the
    driver's [ObjectId] ([None] when it throws on a malformed string) and
    the feed parser of [lib/rss/parser], which fetches a url over the
    network and either throws or returns metadata and articles. *)
Variable parseObjectId : string -> option ObjectId.
Variable fetchAndParseFeed : string -> string -> Exn + (FeedMetadata * list ArticleData).

(** What the database server decides: how many documents of a result fit
    into the first batch of its reply, and in which order it returns
    newsletters of equal [createdAt] for a query with the given [skip] and
    [limit]. *)
Variable singleBatch : forall A : Type, list A -> nat.
Variable tieOrder : option nat -> option Z -> Newsletter -> nat.

(** What the runtime decides: the order in which it resumes the refreshes
    that [prepareFeedsAndArticles] has in flight. *)
Variable schedule : list nat.

(** [tauto] and [intuition] revert the whole context; a proof that uses
    them first drops the section variables its statement does not mention. *)
Ltac statement_variables_only :=
  try clear schedule; try clear tieOrder; try clear singleBatch;
  try clear fetchAndParseFeed; try clear parseObjectId.

Definition toObjectId (id : string) : M ObjectId :=
  match parseObjectId id with
  | Some o => ret o
  | None => throw (JsError ("Invalid ObjectId: " ++ id))
  end.

(** *** actions/rss-article.ts *)

Definition createRssArticle (data : ArticleCreateData) : M RssArticle :=
  wrapDatabaseOperation
    (feedObjectId <- toObjectId (feedId data) ;;
     existing <- articles_findOne_guid (guid data) ;;
     match existing with
     | Some ex =>
         let existingFeedIds := map fromObjectId (sourcesOf ex) in
         if negb (includes existingFeedIds (feedId data)) then
           result <- articles_findOneAndUpdate_addToSet (guid data) feedObjectId ;;
           match result with
           | None => throw (JsError "Failed to update article")
           | Some r => ret r
           end
         else
           fullArticle <- articles_findOne_guid (guid data) ;;
           match fullArticle with
           | None => throw (JsError "Article not found")
           | Some r => ret r
           end
     | None =>
         now <- newDate ;;
         insertedId <- articles_insertOne
                         (fun i => mkArticle i feedObjectId (guid data) (Some [feedObjectId])
                                             (pubDate data) (storedFields (fields data))
                                             now now) ;;
         newArticle <- articles_findOne_id insertedId ;;
         match newArticle with
         | None => throw (JsError "Failed to create article")
         | Some r => ret r
         end
     end)
    "create RSS article".

(** The body of the loop of [bulkCreateRssArticles]. *)
Definition tallyArticle (article : ArticleCreateData) (results : BulkOperationResult)
  : M BulkOperationResult :=
  tryCatch
    (createRssArticle article ;;;
     ret (mkBulk (S (created results)) (skipped results) (errors results)))
    (fun error =>
       if isDuplicateKey error
       then ret (mkBulk (created results) (S (skipped results)) (errors results))
       else emit (LogCreateFailed (guid article) error) ;;;
            ret (mkBulk (created results) (skipped results) (S (errors results)))).

Fixpoint bulkLoop (articles : list ArticleCreateData) (results : BulkOperationResult)
  : M BulkOperationResult :=
  match articles with
  | [] => ret results
  | article :: rest => results' <- tallyArticle article results ;; bulkLoop rest results'
  end.

Definition bulkCreateRssArticles (articles : list ArticleCreateData) : M BulkOperationResult :=
  bulkLoop articles (mkBulk 0 0 0).

Definition withFeed (article : RssArticle) : M ArticleWithFeed :=
  feed <- feeds_findOne_id (art_feedId article) ;;
  ret (mkArticleWithFeed
         (art_id article)
         (fromObjectId (art_feedId article))
         (map fromObjectId (sourcesOf article))
         (List.length (sourcesOf article))
         (match feed with
          | Some f => Some (mkFeedInfo (fd_id f) (md_title (fd_meta f)) (fd_url f))
          | None => None
          end)
         (art_guid article) (art_pubDate article) (art_fields article)).

Definition getArticlesByFeedsAndDateRange
           (ids : list string) (startDate endDate : Z) (limit : Z)
  : M (list ArticleWithFeed) :=
  wrapDatabaseOperation
    (feedObjectIds <- mapM toObjectId ids ;;
     articles <- articles_find_feedsAndRange (singleBatch RssArticle)
                   feedObjectIds startDate endDate limit ;;
     articlesWithFeeds <- mapM withFeed articles ;;
     ret articlesWithFeeds)
    "fetch articles by feeds and date range".

(** *** actions/rss-feed.ts *)

Definition updateFeedLastFetched (id : string) : M RssFeed :=
  wrapDatabaseOperation
    (o <- toObjectId id ;;
     now <- newDate ;;
     result <- feeds_findOneAndUpdate_lastFetched o now ;;
     match result with
     | None => throw (JsError ("Feed with ID " ++ id ++ " not found"))
     | Some r => ret r
     end)
    "update feed last fetched".

Definition deleteRssFeed (id : string) : M unit :=
  wrapDatabaseOperation
    (feedObjectId <- toObjectId id ;;
     articles_updateMany_pull feedObjectId ;;;
     articles_deleteMany_noSources ;;;
     feeds_deleteOne feedObjectId ;;;
     ret tt)
    "delete RSS feed".

(** *** actions/rss-fetch.ts *)

Definition fetchAndStoreFeed (id : string) : M FetchResult :=
  wrapDatabaseOperation
    (o <- toObjectId id ;;
     feed <- feeds_findOne_id o ;;
     match feed with
     | None => throw (JsError ("Feed with ID " ++ id ++ " not found"))
     | Some f =>
         match fetchAndParseFeed (fd_url f) id with
         | inl e => throw e
         | inr (metadata, articles) =>
             let articlesToCreate := map (toCreateData id) articles in
             result <- bulkCreateRssArticles articlesToCreate ;;
             updateFeedLastFetched id ;;;
             ret (mkFetchResult metadata (created result) (skipped result) (errors result))
         end
     end)
    "fetch feed".

(** *** The promise of a refresh

    [fetchAndStoreFeed] and the actions it awaits, with every step as a
    point where the promise can be suspended.  Run to its end without
    another promise in between, each one is the action above
    ([runTask_fetchAndStoreFeedAsync] below). *)

Definition wrapDatabaseOperationAsync {A} (operation : Task A) (operationName : string)
  : Task A :=
  orCatch operation
          (fun e => upon _ <~ pending (emit (LogDatabaseError operationName e)) ;; reject e).

Definition createRssArticleAsync (data : ArticleCreateData) : Task RssArticle :=
  wrapDatabaseOperationAsync
    (upon feedObjectId <~ pending (toObjectId (feedId data)) ;;
     upon existing <~ pending (articles_findOne_guid (guid data)) ;;
     match existing with
     | Some ex =>
         let existingFeedIds := map fromObjectId (sourcesOf ex) in
         if negb (includes existingFeedIds (feedId data)) then
           upon result <~ pending (articles_findOneAndUpdate_addToSet
                                     (guid data) feedObjectId) ;;
           match result with
           | None => reject (JsError "Failed to update article")
           | Some r => resolve r
           end
         else
           upon fullArticle <~ pending (articles_findOne_guid (guid data)) ;;
           match fullArticle with
           | None => reject (JsError "Article not found")
           | Some r => resolve r
           end
     | None =>
         upon now <~ pending newDate ;;
         upon insertedId <~ pending
                              (articles_insertOne
                                 (fun i => mkArticle i feedObjectId (guid data)
                                                     (Some [feedObjectId]) (pubDate data)
                                                     (storedFields (fields data)) now now)) ;;
         upon newArticle <~ pending (articles_findOne_id insertedId) ;;
         match newArticle with
         | None => reject (JsError "Failed to create article")
         | Some r => resolve r
         end
     end)
    "create RSS article".

Definition tallyArticleAsync (article : ArticleCreateData) (results : BulkOperationResult)
  : Task BulkOperationResult :=
  orCatch
    (upon _ <~ createRssArticleAsync article ;;
     resolve (mkBulk (S (created results)) (skipped results) (errors results)))
    (fun error =>
       if isDuplicateKey error
       then resolve (mkBulk (created results) (S (skipped results)) (errors results))
       else upon _ <~ pending (emit (LogCreateFailed (guid article) error)) ;;
            resolve (mkBulk (created results) (skipped results) (S (errors results)))).

Fixpoint bulkLoopAsync (articles : list ArticleCreateData) (results : BulkOperationResult)
  : Task BulkOperationResult :=
  match articles with
  | [] => resolve results
  | article :: rest =>
      upon results' <~ tallyArticleAsync article results ;; bulkLoopAsync rest results'
  end.

Definition bulkCreateRssArticlesAsync (articles : list ArticleCreateData)
  : Task BulkOperationResult :=
  bulkLoopAsync articles (mkBulk 0 0 0).

Definition updateFeedLastFetchedAsync (id : string) : Task RssFeed :=
  wrapDatabaseOperationAsync
    (upon o <~ pending (toObjectId id) ;;
     upon now <~ pending newDate ;;
     upon result <~ pending (feeds_findOneAndUpdate_lastFetched o now) ;;
     match result with
     | None => reject (JsError ("Feed with ID " ++ id ++ " not found"))
     | Some r => resolve r
     end)
    "update feed last fetched".

Definition fetchAndStoreFeedAsync (id : string) : Task FetchResult :=
  wrapDatabaseOperationAsync
    (upon o <~ pending (toObjectId id) ;;
     upon feed <~ pending (feeds_findOne_id o) ;;
     match feed with
     | None => reject (JsError ("Feed with ID " ++ id ++ " not found"))
     | Some f =>
         match fetchAndParseFeed (fd_url f) id with
         | inl e => reject e
         | inr (metadata, articles) =>
             let articlesToCreate := map (toCreateData id) articles in
             upon result <~ bulkCreateRssArticlesAsync articlesToCreate ;;
             upon _ <~ updateFeedLastFetchedAsync id ;;
             resolve (mkFetchResult metadata (created result) (skipped result)
                                    (errors result))
         end
     end)
    "fetch feed".

(** *** lib/rss/feed-refresh.ts *)

Definition getFeedsToRefresh (ids : list string) : M (list string) :=
  now <- newDate ;;
  let cacheThreshold := (now - CACHE_WINDOW)%Z in
  feedObjectIds <- mapM toObjectId ids ;;
  feeds <- feeds_find_idIn feedObjectIds ;;
  let urlsToCheck := distinct (map fd_url feeds) in
  recentFetches <- feeds_aggregate_recent urlsToCheck cacheThreshold ;;
  let recentlyFetchedUrls :=
    map grp_id (filter (fun g => match maxLastFetched g with
                                 | Some _ => true
                                 | None => false
                                 end) recentFetches) in
  let feedsToRefresh :=
    map (fun f => fromObjectId (fd_id f))
        (filter (fun f => negb (includes recentlyFetchedUrls (fd_url f))) feeds) in
  ret feedsToRefresh.

(** The first half of [prepareFeedsAndArticles]: refresh what is stale and
    log the tally. *)
Definition refreshStaleFeeds (params : PrepareFeedsParams) : M unit :=
  feedsToRefresh <- getFeedsToRefresh (feedIds params) ;;
  if (0 <? List.length feedsToRefresh)%nat then
    emit (LogRefreshing (List.length feedsToRefresh) (List.length (feedIds params))) ;;;
    refreshResults <- allSettled schedule (map fetchAndStoreFeedAsync feedsToRefresh) ;;
    let successful := List.length (filter isFulfilled refreshResults) in
    let failed := List.length (filter isRejected refreshResults) in
    emit (LogRefreshComplete successful failed)
  else
    emit (LogAllFresh (List.length (feedIds params))).

(** The second half: the article query and the check that it found
    something. *)
Definition queryArticles (params : PrepareFeedsParams) : M (list ArticleWithFeed) :=
  articles <- getArticlesByFeedsAndDateRange
                (feedIds params) (startDate params) (endDate params) ARTICLE_LIMIT ;;
  if (List.length articles =? 0)%nat then throw noArticlesFound else ret articles.

Definition prepareFeedsAndArticles (params : PrepareFeedsParams) : M (list ArticleWithFeed) :=
  refreshStaleFeeds params ;;; queryArticles params.

(** *** actions/rss-fetch.ts, the subscription

    [validateFeedUrl] is the other function of [lib/rss/parser]: it tries
    the url on the network and answers whether a feed was found.  The line
    that [console.error] prints in the [catch] is recorded with its text as
    label. *)
Definition validateAndAddFeed (validateFeedUrl : string -> bool)
           (generated : nat -> ObjectId) (userId url : string) : M AddFeedResult :=
  wrapDatabaseOperation
    (if negb (validateFeedUrl url)
     then throw (JsError "Invalid RSS feed URL or unable to fetch feed")
     else
       now <- newDate ;;
       userObjectId <- toObjectId userId ;;
       insertedId <- feeds_insertOne generated userObjectId url ;;
       let newFeedId := fromObjectId insertedId in
       tryCatch
         (fetchResult <- fetchAndStoreFeed newFeedId ;;
          feeds_updateOne_metadata insertedId (fr_metadata fetchResult) ;;;
          updatedFeed <- feeds_findOne_id insertedId ;;
          match updatedFeed with
          | None => throw (JsError "Failed to retrieve feed")
          | Some f =>
              ret (mkAddFeedResult f (fr_created fetchResult) (fr_skipped fetchResult) None)
          end)
         (fun fetchError =>
            emit (LogDatabaseError "Failed to fetch initial articles:" fetchError) ;;;
            feed <- feeds_findOne_id insertedId ;;
            match feed with
            | None => throw (JsError "Failed to retrieve feed")
            | Some f =>
                ret (mkAddFeedResult f 0 0 (Some "Feed created but initial fetch failed"))
            end))
    "add RSS feed".

(** *** actions/newsletter.ts *)

Definition toArchiveId (id : string) : N ObjectId :=
  match parseObjectId id with
  | Some o => retN o
  | None => throwN (JsError ("Invalid ObjectId: " ++ id))
  end.

Fixpoint toArchiveIds (ids : list string) : N (list ObjectId) :=
  match ids with
  | [] => retN []
  | id :: rest => await o <~ toArchiveId id ;; await os <~ toArchiveIds rest ;; retN (o :: os)
  end.

Definition createNewsletter (generated : nat -> ObjectId) (data : NewsletterData)
  : N Newsletter :=
  wrapArchiveOperation
    (await now <~ archiveDate ;;
     await userObjectId <~ toArchiveId (nd_userId data) ;;
     await feedsUsed <~ toArchiveIds (nd_feedsUsed data) ;;
     await insertedId <~ newsletters_insertOne generated
                     (fun i => mkNewsletter i userObjectId (nd_content data)
                                            (nd_startDate data) (nd_endDate data)
                                            (nd_userInput data) feedsUsed now now) ;;
     await newsletter <~ newsletters_findOne insertedId ;;
     match newsletter with
     | None => throwN (JsError "Failed to create newsletter")
     | Some n => retN n
     end)
    "create newsletter".

Definition getNewslettersByUserId (userId : string) (options : option Pagination)
  : N (list Newsletter) :=
  wrapArchiveOperation
    (await u <~ toArchiveId userId ;;
     newsletters_find (tieOrder (optionsSkip options) (optionsLimit options))
                      (singleBatch Newsletter)
                      u (optionsSkip options) (optionsLimit options))
    "fetch newsletters by user".

Definition getNewsletterById (id userId : string) : N (option Newsletter) :=
  wrapArchiveOperation
    (await o <~ toArchiveId id ;;
     await newsletter <~ newsletters_findOne o ;;
     match newsletter with
     | None => retN None
     | Some n =>
         if negb (String.eqb (fromObjectId (nl_userId n)) userId)
         then throwN (JsError "Unauthorized: Newsletter does not belong to user")
         else retN (Some n)
     end)
    "fetch newsletter by ID".

Definition getNewslettersCountByUserId (userId : string) : N nat :=
  wrapArchiveOperation
    (await u <~ toArchiveId userId ;; newsletters_count u)
    "count newsletters by user".

Definition deleteNewsletter (id userId : string) : N Newsletter :=
  wrapArchiveOperation
    (await o <~ toArchiveId id ;;
     await newsletter <~ newsletters_findOne o ;;
     match newsletter with
     | None => throwN (JsError "Newsletter not found")
     | Some n =>
         if negb (String.eqb (fromObjectId (nl_userId n)) userId)
         then throwN (JsError "Unauthorized: Newsletter does not belong to user")
         else
           await o' <~ toArchiveId id ;;
           await _ <~ newsletters_deleteOne o' ;;
           retN n
     end)
    "delete newsletter".

(** What the loop of [bulkCreateRssArticles] saw: the outcome of
    [createRssArticle] for every article, in order. *)
Fixpoint attempts (articles : list ArticleCreateData) (w : World)
  : list (Outcome RssArticle) :=
  match articles with
  | [] => []
  | article :: rest =>
      outcome (createRssArticle article) w
        :: attempts rest (after (tallyArticle article (mkBulk 0 0 0)) w)
  end.

Definition wasCreated (r : Outcome RssArticle) : bool :=
  match r with Returned _ => true | Thrown _ => false end.
Definition wasDuplicateKey (r : Outcome RssArticle) : bool :=
  match r with Returned _ => false | Thrown e => isDuplicateKey e end.
Definition wasOtherError (r : Outcome RssArticle) : bool :=
  match r with Returned _ => false | Thrown e => negb (isDuplicateKey e) end.

Definition count {A} (p : A -> bool) (l : list A) : nat := List.length (filter p l).

(** The document that [createRssArticle] inserts for a guid it has not
    seen, and the store that a call leaves behind when no other request
    writes in between ([o] is the parsed feed id). *)
Definition insertedArticle (o : ObjectId) (data : ArticleCreateData) (now : Z) (i : nat)
  : RssArticle :=
  mkArticle i o (guid data) (Some [o]) (pubDate data) (storedFields (fields data)) now now.

Definition storeAfterCreate (o : ObjectId) (data : ArticleCreateData) (s : Store) : Store :=
  match find (guidIs (guid data)) (rssArticles s) with
  | Some ex =>
      if includes (sourcesOf ex) (feedId data) then s
      else setArticles s
             (snd (updateFirst (guidIs (guid data))
                     (fun a => withSourceFeedIds a (addToSet o (art_sourceFeedIds a)))
                     (rssArticles s)))
  | None =>
      mkStore (rssFeeds s)
              (rssArticles s ++ [insertedArticle o data (clock s) (nextId s)])
              (clock s) (S (nextId s))
  end.


(** Once a pair (guid, feed) is in, ingesting it again changes nothing. *)
Definition alreadyIngested (o : ObjectId) (data : ArticleCreateData)
           (articles : list RssArticle) : Prop :=
  exists x, find (guidIs (guid data)) articles = Some x
            /\ (includes (sourcesOf x) (feedId data) = true
                \/ includes (sourcesOf x) o = true).

(** The invariant of an article: its primary feed is one of its sources
    (so it has at least one source). *)
Definition primaryIsSource (a : RssArticle) : Prop := In (art_feedId a) (sourcesOf a).
Definition hasSources (a : RssArticle) : Prop := sourcesOf a <> [].

(** Removal of a feed reference in the words of the specification: the
    feed id leaves the article's [sourceFeeds]; an article whose
    [sourceFeeds] is then empty is deleted ([None]). *)
Definition removeFeedReference (o : ObjectId) (a : RssArticle) : option RssArticle :=
  match filter (fun y => negb (String.eqb o y)) (sourcesOf a) with
  | [] => None
  | rest => Some (withSourceFeedIds a (Some rest))
  end.

Definition survivors (o : ObjectId) (articles : list RssArticle) : list RssArticle :=
  flat_map (fun a => match removeFeedReference o a with
                     | Some a' => [a']
                     | None => []
                     end) articles.

(** All the ids of a request as [ObjectId]s, when every one is well formed. *)
Fixpoint parseAll (ids : list string) : option (list ObjectId) :=
  match ids with
  | [] => Some []
  | id :: rest =>
      match parseObjectId id, parseAll rest with
      | Some o, Some os => Some (o :: os)
      | _, _ => None
      end
  end.

(** An element of the query's result shows a stored article. *)
Definition shows (a : RssArticle) (r : ArticleWithFeed) : Prop :=
  awf_id r = art_id a
  /\ awf_feedId r = art_feedId a
  /\ awf_sourceFeedIds r = sourcesOf a
  /\ awf_sourceCount r = List.length (sourcesOf a)
  /\ awf_guid r = art_guid a
  /\ awf_pubDate r = art_pubDate a.

Definition newestFirst (a b : ArticleWithFeed) : Prop := (awf_pubDate b <= awf_pubDate a)%Z.
Definition newestFirstStored (a b : RssArticle) : Prop := (art_pubDate b <= art_pubDate a)%Z.

(** What the query asks of an article: one of the requested feeds is its
    primary feed or one of its sources, and its date is in the closed
    range. *)
Definition fromRequestedFeeds (oids : list ObjectId) (r : ArticleWithFeed) : Prop :=
  In (awf_feedId r) oids \/ exists x, In x (awf_sourceFeedIds r) /\ In x oids.
Definition inDateRange (startDate endDate : Z) (r : ArticleWithFeed) : Prop :=
  (startDate <= awf_pubDate r <= endDate)%Z.

(** The freshness rule in the words of the specification: the maximum
    [lastFetched] over all feed records that share a url ([None] when the
    url was never fetched). *)
Definition latestFetch (feeds : list RssFeed) (url : string) : option Z :=
  fold_right maxDate None
             (map fd_lastFetched (filter (fun f => String.eqb (fd_url f) url) feeds)).

(** Reasoning about promises that run at the same time.  [R] says how the
    world may move while they run.  [guarantees R Q t w]: from the world
    [w] on, and as long as the world has only moved along [R], every step
    that the promise [t] takes moves the world along [R], and [t] settles
    with an outcome of which [Q] holds from then on. *)
Definition always (R : World -> World -> Prop) (P : World -> Prop) (w : World) : Prop :=
  forall w', R w w' -> P w'.

Definition preorder (R : World -> World -> Prop) : Prop :=
  (forall w, R w w) /\ (forall w1 w2 w3, R w1 w2 -> R w2 w3 -> R w1 w3).

Fixpoint guarantees {A} (R : World -> World -> Prop) (Q : Outcome A -> World -> Prop)
         (t : Task A) (w0 : World) : Prop :=
  match t with
  | Settled r => always R (Q r) w0
  | Await step k =>
      forall w, R w0 w ->
                R w (snd (step w)) /\ guarantees R Q (k (fst (step w))) (snd (step w))
  end.

(** How the world moves while refreshes, and nothing else, run in it: no
    write of another request is pending; the clock stands; every feed
    stays as it is or gets [lastFetched] set to the current date; and
    every article stays in the collection with its id and its guid. *)
Definition refreshedOrSame (now : Z) (f f' : RssFeed) : Prop :=
  f' = f \/ f' = withLastFetched f now.

Definition evolves (w w' : World) : Prop :=
  others w = [] ->
  others w' = []
  /\ clock (store w') = clock (store w)
  /\ Forall2 (refreshedOrSame (clock (store w))) (rssFeeds (store w)) (rssFeeds (store w'))
  /\ forall a, In a (rssArticles (store w)) ->
               exists a', In a' (rssArticles (store w'))
                          /\ art_id a' = art_id a /\ art_guid a' = art_guid a.

Definition stored (g : string) (w : World) : Prop :=
  existsb (guidIs g) (rssArticles (store w)) = true.

(** What the refresh of the stored feed [f] comes to, whatever the other
    refreshes do.  If the fetch of its url fails, the refresh is rejected
    with that error.  If the fetch succeeds, the refresh is fulfilled:
    every fetched article was counted as created or as skipped, none as
    an error; the feed has [lastFetched] set to the current date; and
    every fetched guid is in the collection. *)
Definition settlesOnItsOwn (id : string) (f : RssFeed) (now : Z)
           (r : Outcome FetchResult) (w : World) : Prop :=
  match fetchAndParseFeed (fd_url f) id with
  | inl e => r = Thrown e
  | inr (metadata, articles) =>
      (exists nCreated nSkipped,
          r = Returned (mkFetchResult metadata nCreated nSkipped 0)
          /\ nCreated + nSkipped = List.length articles)
      /\ (exists f', find (feedIdIs (fd_id f)) (rssFeeds (store w)) = Some f'
                     /\ fd_lastFetched f' = Some now)
      /\ forall a, In a articles -> stored (ad_guid a) w
  end.

Definition invalidObjectId (e : Exn) : Prop :=
  exists id, e = JsError ("Invalid ObjectId: " ++ id).

(** A call that throws before it reaches a collection: the store and the
    pending writes of the other requests are as they were. *)
Definition throwsUntouched {A} (m : M A) (e : Exn) (w : World) : Prop :=
  outcome m w = Thrown e
  /\ store (after m w) = store w
  /\ others (after m w) = others w.

(** A wrapped action that throws before it reaches a collection: the
    store and the pending writes of the other requests are as they were,
    and [wrapDatabaseOperation] has logged the error under the name of
    the action. *)
Definition throwsLogged {A} (m : M A) (operationName : string) (e : Exn) (w : World) : Prop :=
  outcome m w = Thrown e
  /\ after m w
     = mkWorld (store w) (others w) (console w ++ [LogDatabaseError operationName e]).

(** What [createRssArticle] returns when no other request writes in
    between: the article it found, updated or inserted. *)
Definition articleAfterCreate (o : ObjectId) (data : ArticleCreateData) (s : Store)
  : RssArticle :=
  match find (guidIs (guid data)) (rssArticles s) with
  | Some ex =>
      if includes (sourcesOf ex) (feedId data) then ex
      else withSourceFeedIds ex (addToSet o (art_sourceFeedIds ex))
  | None =>
      match find (fun a => Nat.eqb (art_id a) (nextId s))
                 (rssArticles s ++ [insertedArticle o data (clock s) (nextId s)]) with
      | Some x => x
      | None => insertedArticle o data (clock s) (nextId s)
      end
  end.

(** The ids of the stored articles were all generated before [nextId]. *)
Definition idsGenerated (s : Store) : Prop :=
  Forall (fun a => art_id a < nextId s) (rssArticles s).

(** The store that [bulkCreateRssArticles] leaves behind when no other
    request writes in between: one [createRssArticle] after the other. *)
Fixpoint storeAfterBulk (articles : list ArticleCreateData) (s : Store) : Store :=
  match articles with
  | [] => s
  | article :: rest =>
      storeAfterBulk rest
        (match parseObjectId (feedId article) with
         | Some o => storeAfterCreate o article s
         | None => s
         end)
  end.

(** How [getArticlesByFeedsAndDateRange] presents an article when the
    feeds are [feeds] at the time its primary feed is looked up. *)
Definition presented (feeds : list RssFeed) (article : RssArticle) : ArticleWithFeed :=
  mkArticleWithFeed
    (art_id article)
    (fromObjectId (art_feedId article))
    (map fromObjectId (sourcesOf article))
    (List.length (sourcesOf article))
    (match find (feedIdIs (art_feedId article)) feeds with
     | Some f => Some (mkFeedInfo (fd_id f) (md_title (fd_meta f)) (fd_url f))
     | None => None
     end)
    (art_guid article) (art_pubDate article) (art_fields article).

(** The stored articles that the query asks for, newest first, before the
    limit is applied. *)
Definition matching (oids : list ObjectId) (startDate endDate : Z) (s : Store)
  : list RssArticle :=
  sortByPubDateDesc (filter (matchesFeedsAndRange oids startDate endDate) (rssArticles s)).

Definition newestNewsletterFirst (a b : Newsletter) : Prop :=
  (nl_createdAt b <= nl_createdAt a)%Z.

(** The newsletters that are not the given user's. *)
Definition notOf (userId : string) (n : Newsletter) : bool :=
  negb (String.eqb (fromObjectId (nl_userId n)) userId).

(** ** Properties *)

(** *** The monad *)

Lemma run_bind {A B} (m : M A) (k : A -> M B) (w : World) :
  bind m k w = match m w with
               | (Returned a, w') => k a w'
               | (Thrown e, w') => (Thrown e, w')
               end.
Proof. reflexivity. Qed.

Lemma interleave_quiet (s : Store) (c : list LogEntry) :
  interleave (mkWorld s [] c) = mkWorld s [] c.
Proof. reflexivity. Qed.

Lemma dbCall_quiet {A} (op : Store -> Outcome A * Store) (s : Store) (c : list LogEntry) :
  dbCall op (mkWorld s [] c) = (fst (op s), mkWorld (snd (op s)) [] c).
Proof. unfold dbCall. simpl. destruct (op s); reflexivity. Qed.

(** *** bulkCreateRssArticles *)

Lemma tallyArticle_returns (article : ArticleCreateData) (r : BulkOperationResult) (w : World) :
  tallyArticle article r w =
  (Returned (match outcome (createRssArticle article) w with
             | Returned _ => mkBulk (S (created r)) (skipped r) (errors r)
             | Thrown e =>
                 if isDuplicateKey e
                 then mkBulk (created r) (S (skipped r)) (errors r)
                 else mkBulk (created r) (skipped r) (S (errors r))
             end),
   after (tallyArticle article (mkBulk 0 0 0)) w).
Proof.
  unfold tallyArticle, tryCatch, after, outcome. rewrite !run_bind.
  destruct (createRssArticle article w) as [[a|e] w1]; simpl; [reflexivity|].
  destruct (isDuplicateKey e); reflexivity.
Qed.

Lemma bulkLoop_counts (articles : list ArticleCreateData) :
  forall (r0 : BulkOperationResult) (w : World),
  exists r, outcome (bulkLoop articles r0) w = Returned r
    /\ created r = created r0 + count wasCreated (attempts articles w)
    /\ skipped r = skipped r0 + count wasDuplicateKey (attempts articles w)
    /\ errors r = errors r0 + count wasOtherError (attempts articles w).
Proof.
  induction articles as [|article rest IH]; intros r0 w.
  - exists r0. unfold count; simpl. repeat split; lia.
  - unfold outcome. simpl bulkLoop. rewrite run_bind, tallyArticle_returns.
    match goal with |- context [bulkLoop rest ?r1 ?w1] => destruct (IH r1 w1) as (r & Hr & Hc & Hs & He) end.
    exists r. unfold outcome in Hr. split; [exact Hr|].
    simpl attempts. unfold count in *. simpl filter.
    destruct (outcome (createRssArticle article) w) as [a|e]; simpl in *.
    + repeat split; lia.
    + destruct (isDuplicateKey e); simpl in *; repeat split; lia.
Qed.

Lemma count_partition (l : list (Outcome RssArticle)) :
  count wasCreated l + count wasDuplicateKey l + count wasOtherError l = List.length l.
Proof.
  unfold count. induction l as [|[a|e] l IH]; simpl; [reflexivity|lia|].
  destruct (isDuplicateKey e); simpl; lia.
Qed.

Lemma attempts_length (articles : list ArticleCreateData) :
  forall w, List.length (attempts articles w) = List.length articles.
Proof. induction articles as [|a rest IH]; intros w; simpl; [reflexivity|]. now rewrite IH. Qed.

(** C10.  For every input list, in every world (whatever other requests
    write in between), [bulkCreateRssArticles] returns and does not throw;
    its three counters add up to the length of the input; [created] counts
    the articles for which [createRssArticle] returned, [skipped] counts
    exactly those for which it threw an error with code 11000, and [errors]
    the remaining failures. *)
Theorem bulkCreateRssArticles_tallies_every_failure
        (articles : list ArticleCreateData) (w : World) :
  exists r, outcome (bulkCreateRssArticles articles) w = Returned r
    /\ created r + skipped r + errors r = List.length articles
    /\ created r = count wasCreated (attempts articles w)
    /\ skipped r = count wasDuplicateKey (attempts articles w)
    /\ errors r = count wasOtherError (attempts articles w).
Proof.
  destruct (bulkLoop_counts articles (mkBulk 0 0 0) w) as (r & Hr & Hc & Hs & He).
  exists r. simpl in *. split; [exact Hr|].
  pose proof (count_partition (attempts articles w)) as Hp.
  rewrite attempts_length in Hp. repeat split; lia.
Qed.

(** *** createRssArticle without interference *)

Lemma find_updateFirst {A} (p : A -> bool) (f : A -> A) (l : list A) (x : A) :
  find p l = Some x -> fst (updateFirst p f l) = Some (f x).
Proof.
  induction l as [|y l IH]; simpl; [discriminate|].
  destruct (p y).
  - intros [= ->]. reflexivity.
  - intros H. specialize (IH H). destruct (updateFirst p f l). exact IH.
Qed.

Lemma find_none_existsb {A} (p : A -> bool) (l : list A) :
  find p l = None -> existsb p l = false.
Proof.
  induction l as [|y l IH]; simpl; [reflexivity|].
  destruct (p y); [discriminate|]. exact IH.
Qed.

Lemma find_app_last {A} (p : A -> bool) (l : list A) (d : A) :
  p d = true -> exists x, find p (l ++ [d]) = Some x.
Proof.
  intros Hd. induction l as [|y l IH]; simpl.
  - rewrite Hd. eauto.
  - destruct (p y); eauto.
Qed.

Lemma createRssArticle_quiet (data : ArticleCreateData) (o : ObjectId)
      (s : Store) (c : list LogEntry) :
  parseObjectId (feedId data) = Some o ->
  exists r, createRssArticle data (mkWorld s [] c)
            = (Returned r, mkWorld (storeAfterCreate o data s) [] c).
Proof.
  intros Hp. unfold createRssArticle, wrapDatabaseOperation, tryCatch, toObjectId.
  rewrite Hp, run_bind. unfold ret at 1. rewrite run_bind.
  unfold articles_findOne_guid at 1. rewrite dbCall_quiet. cbn [fst snd].
  unfold storeAfterCreate.
  destruct (find (guidIs (guid data)) (rssArticles s)) as [ex|] eqn:Hf.
  - unfold fromObjectId. rewrite map_id.
    destruct (includes (sourcesOf ex) (feedId data)) eqn:Hi; cbn [negb].
    + rewrite run_bind. unfold articles_findOne_guid. rewrite dbCall_quiet. cbn [fst snd].
      rewrite Hf. unfold ret. eauto.
    + rewrite run_bind. unfold articles_findOneAndUpdate_addToSet.
      rewrite dbCall_quiet.
      pose proof (find_updateFirst (guidIs (guid data))
                    (fun a => withSourceFeedIds a (addToSet o (art_sourceFeedIds a)))
                    _ _ Hf) as Hu.
      destruct (updateFirst _ _ (rssArticles s)) as [u l]. cbn [fst snd] in *.
      rewrite Hu. unfold ret. eauto.
  - rewrite run_bind. unfold newDate at 1. rewrite run_bind.
    unfold articles_insertOne. rewrite dbCall_quiet. cbn [art_guid store].
    rewrite (find_none_existsb _ _ Hf). cbn [fst snd].
    rewrite run_bind. unfold articles_findOne_id. rewrite dbCall_quiet. cbn [fst snd rssArticles].
    destruct (find_app_last (fun a => Nat.eqb (art_id a) (nextId s)) (rssArticles s)
                (insertedArticle o data (clock s) (nextId s))) as [x Hx].
    { simpl. apply Nat.eqb_refl. }
    unfold insertedArticle in Hx. rewrite Hx. unfold ret. eauto.
Qed.

Lemma createRssArticle_invalid (data : ArticleCreateData) (w : World) :
  parseObjectId (feedId data) = None ->
  exists e, outcome (createRssArticle data) w = Thrown e
            /\ store (after (createRssArticle data) w) = store w
            /\ others (after (createRssArticle data) w) = others w.
Proof.
  intros Hp. unfold createRssArticle, wrapDatabaseOperation, tryCatch, toObjectId, outcome, after.
  rewrite Hp, run_bind. unfold throw at 1. rewrite run_bind. unfold emit, throw. simpl. eauto.
Qed.

Lemma createRssArticle_after_quiet (data : ArticleCreateData) (w : World) :
  others w = [] ->
  others (after (createRssArticle data) w) = []
  /\ store (after (createRssArticle data) w)
     = match parseObjectId (feedId data) with
       | Some o => storeAfterCreate o data (store w)
       | None => store w
       end.
Proof.
  intros Hq. destruct (parseObjectId (feedId data)) as [o|] eqn:Hp.
  - destruct w as [s ot c]. simpl in Hq. subst ot.
    destruct (createRssArticle_quiet data o s c Hp) as [r Hr].
    unfold after. rewrite Hr. simpl. auto.
  - destruct (createRssArticle_invalid data w Hp) as (e & _ & Hs & Ho).
    rewrite Ho, Hs. auto.
Qed.

(** *** Lists of documents *)

Lemma includes_In (l : list string) (x : string) : includes l x = true <-> In x l.
Proof.
  unfold includes. rewrite existsb_exists. split.
  - intros (y & Hy & He). apply String.eqb_eq in He. now subst.
  - intros H. exists x. split; [exact H|apply String.eqb_refl].
Qed.

Lemma includes_false_not_In (l : list string) (x : string) :
  includes l x = false <-> ~ In x l.
Proof.
  rewrite <- includes_In. destruct (includes l x); split; intros; congruence.
Qed.

Lemma find_app_none {A} (p : A -> bool) (l l' : list A) :
  find p l = None -> find p (l ++ l') = find p l'.
Proof.
  induction l as [|y l IH]; simpl; [reflexivity|].
  destruct (p y); [discriminate|]. exact IH.
Qed.

Lemma filter_find_none {A} (p : A -> bool) (l : list A) :
  find p l = None -> filter p l = [].
Proof.
  induction l as [|y l IH]; simpl; [reflexivity|].
  destruct (p y); [discriminate|]. exact IH.
Qed.

Lemma updateFirst_app_none {A} (p : A -> bool) (f : A -> A) (l : list A) (d : A) :
  find p l = None -> p d = true -> snd (updateFirst p f (l ++ [d])) = l ++ [f d].
Proof.
  intros Hn Hd. induction l as [|y l IH]; simpl in *.
  - rewrite Hd. reflexivity.
  - destruct (p y); [discriminate|]. specialize (IH Hn).
    destruct (updateFirst p f (l ++ [d])). simpl in *. now rewrite IH.
Qed.

Lemma updateFirst_fixed {A} (p : A -> bool) (f : A -> A) (l : list A) (x : A) :
  find p l = Some x -> f x = x -> snd (updateFirst p f l) = l.
Proof.
  intros Hf Hx. induction l as [|y l IH]; simpl in *; [reflexivity|].
  destruct (p y).
  - injection Hf as ->. simpl. now rewrite Hx.
  - specialize (IH Hf). destruct (updateFirst p f l). simpl in *. now rewrite IH.
Qed.

Lemma find_updateFirst_snd {A} (p : A -> bool) (f : A -> A) (l : list A) (x : A) :
  find p l = Some x -> p (f x) = true -> find p (snd (updateFirst p f l)) = Some (f x).
Proof.
  intros Hf Hx. induction l as [|y l IH]; simpl in *; [discriminate|].
  destruct (p y) eqn:Hy.
  - injection Hf as ->. simpl. now rewrite Hx.
  - specialize (IH Hf). destruct (updateFirst p f l). simpl in *. now rewrite Hy.
Qed.

Lemma find_some_holds {A} (p : A -> bool) (l : list A) (x : A) :
  find p l = Some x -> p x = true /\ In x l.
Proof. intros H. apply find_some in H. tauto. Qed.

Lemma addToSet_includes (o : ObjectId) (a : RssArticle) :
  includes (sourcesOf (withSourceFeedIds a (addToSet o (art_sourceFeedIds a)))) o = true.
Proof.
  unfold sourcesOf, addToSet. simpl. destruct (art_sourceFeedIds a) as [l|].
  - destruct (includes l o) eqn:Hi; [exact Hi|].
    apply includes_In, in_or_app. right. now left.
  - simpl. now rewrite String.eqb_refl.
Qed.

Lemma addToSet_fixed (o : ObjectId) (a : RssArticle) :
  includes (sourcesOf a) o = true ->
  withSourceFeedIds a (addToSet o (art_sourceFeedIds a)) = a.
Proof.
  unfold sourcesOf, addToSet. destruct a as [i f g [l|] pd fl ca ua]; simpl.
  - intros ->. reflexivity.
  - discriminate.
Qed.

(** *** Ingesting one guid from two feeds *)

Lemma storeAfterCreate_two_feeds (da db : ArticleCreateData) (oa ob : ObjectId) (s : Store) :
  guid da = guid db ->
  parseObjectId (feedId db) = Some ob ->
  parseObjectId oa = Some oa ->
  find (guidIs (guid da)) (rssArticles s) = None ->
  exists a l,
    filter (guidIs (guid da))
           (rssArticles (storeAfterCreate ob db (storeAfterCreate oa da s))) = [a]
    /\ art_sourceFeedIds a = Some l
    /\ NoDup l
    /\ forall x, In x l <-> x = oa \/ x = ob.
Proof.
  intros Hg Hb Hcan Hnone.
  assert (Hself : guidIs (guid da) (insertedArticle oa da (clock s) (nextId s)) = true)
    by (unfold guidIs; simpl; apply String.eqb_refl).
  unfold storeAfterCreate at 2. rewrite Hnone.
  unfold storeAfterCreate. cbn [rssArticles]. rewrite <- Hg.
  rewrite (find_app_none _ _ _ Hnone). cbn [find]. rewrite Hself.
  cbn [sourcesOf insertedArticle art_sourceFeedIds].
  destruct (includes [oa] (feedId db)) eqn:Hi.
  - cbn [rssArticles]. rewrite filter_app, (filter_find_none _ _ Hnone).
    cbn [filter app]. rewrite Hself.
    apply includes_In in Hi. destruct Hi as [Hi|[]].
    assert (ob = oa) by congruence. subst ob.
    exists (insertedArticle oa da (clock s) (nextId s)), [oa].
    repeat split; try (constructor; [intros []|constructor]).
    + intros [<-|[]]; auto.
    + intros [->| ->]; now left.
  - cbn [setArticles rssArticles].
    rewrite (updateFirst_app_none _ _ _ _ Hnone Hself).
    rewrite filter_app, (filter_find_none _ _ Hnone). cbn [filter app].
    match goal with |- context [guidIs ?g ?d] =>
      assert (Hupd : guidIs g d = true) by (unfold guidIs; simpl; apply String.eqb_refl) end.
    rewrite Hupd. cbn [art_sourceFeedIds insertedArticle addToSet].
    destruct (includes [oa] ob) eqn:Hob.
    + apply includes_In in Hob. destruct Hob as [Hob|[]]. subst ob.
      eexists. exists [oa]. repeat split; try (constructor; [intros []|constructor]).
      * intros [<-|[]]; auto.
      * intros [->| ->]; now left.
    + apply includes_false_not_In in Hob.
      eexists. exists [oa; ob]. repeat split.
      * constructor; [|constructor; [intros []|constructor]].
        intros [H|[]]. apply Hob. now left.
      * simpl. intros [<-|[<-|[]]]; auto.
      * simpl. intros [->| ->]; auto.
Qed.

Lemma storeAfterCreate_ingests (o : ObjectId) (data : ArticleCreateData) (s : Store) :
  alreadyIngested o data (rssArticles (storeAfterCreate o data s)).
Proof.
  unfold storeAfterCreate, alreadyIngested.
  destruct (find (guidIs (guid data)) (rssArticles s)) as [ex|] eqn:Hf.
  - destruct (includes (sourcesOf ex) (feedId data)) eqn:Hi.
    + exists ex. auto.
    + cbn [setArticles rssArticles]. eexists. split.
      * apply find_updateFirst_snd; [exact Hf|].
        apply find_some_holds in Hf. exact (proj1 Hf).
      * right. apply addToSet_includes.
  - cbn [rssArticles]. rewrite (find_app_none _ _ _ Hf). cbn [find].
    unfold guidIs at 1. cbn [art_guid insertedArticle]. rewrite String.eqb_refl.
    eexists. split; [reflexivity|]. right. simpl. now rewrite String.eqb_refl.
Qed.

Lemma storeAfterCreate_stable (o : ObjectId) (data : ArticleCreateData) (s : Store) :
  alreadyIngested o data (rssArticles s) ->
  rssArticles (storeAfterCreate o data s) = rssArticles s.
Proof.
  intros (x & Hf & Hin). unfold storeAfterCreate. rewrite Hf.
  destruct (includes (sourcesOf x) (feedId data)) eqn:Hi; [reflexivity|].
  destruct Hin as [Hin|Hin]; [congruence|].
  cbn [setArticles rssArticles].
  apply (updateFirst_fixed _ _ _ x Hf). now apply addToSet_fixed.
Qed.

Lemma reingest_unchanged (data : ArticleCreateData) (n : nat) (w : World) :
  others w = [] ->
  let once := after (createRssArticle data) w in
  others (Nat.iter n (after (createRssArticle data)) once) = []
  /\ rssArticles (store (Nat.iter n (after (createRssArticle data)) once))
     = rssArticles (store once).
Proof.
  intros Hq once.
  destruct (createRssArticle_after_quiet data w Hq) as [Ho Hs]. fold once in Ho, Hs.
  induction n as [|n [IHo IHs]]; simpl; [auto|].
  destruct (createRssArticle_after_quiet data _ IHo) as [Ho' Hs'].
  split; [exact Ho'|]. rewrite Hs'.
  destruct (parseObjectId (feedId data)) as [o|]; [|exact IHs].
  rewrite storeAfterCreate_stable; [exact IHs|].
  rewrite IHs, Hs. apply storeAfterCreate_ingests.
Qed.

(** C2.  Let a guid be unknown to the store and let no other request write
    in between.  Ingesting it from feed f1 and then from feed f2, or from
    f2 and then from f1, leaves exactly one stored article with that guid,
    and its [sourceFeedIds] holds the two feed ids and nothing else, each
    once.  Ingesting the same (guid, feed) pair again, any number of
    times, leaves the article collection as the first ingestion left it. *)
Theorem ingestion_idempotent_and_commutative
        (d1 d2 : ArticleCreateData) (o1 o2 : ObjectId) (s : Store) (c : list LogEntry) :
  guid d1 = guid d2 ->
  parseObjectId (feedId d1) = Some o1 ->
  parseObjectId (feedId d2) = Some o2 ->
  parseObjectId o1 = Some o1 ->
  parseObjectId o2 = Some o2 ->
  find (guidIs (guid d1)) (rssArticles s) = None ->
  let w := mkWorld s [] c in
  let exactlyBoth (w' : World) :=
    exists a l, filter (guidIs (guid d1)) (rssArticles (store w')) = [a]
                /\ art_sourceFeedIds a = Some l
                /\ NoDup l
                /\ forall x, In x l <-> x = o1 \/ x = o2 in
  exactlyBoth (after (createRssArticle d2) (after (createRssArticle d1) w))
  /\ exactlyBoth (after (createRssArticle d1) (after (createRssArticle d2) w))
  /\ forall (d : ArticleCreateData) (w0 : World) (n : nat),
       others w0 = [] ->
       rssArticles (store (Nat.iter n (after (createRssArticle d))
                                    (after (createRssArticle d) w0)))
       = rssArticles (store (after (createRssArticle d) w0)).
Proof.
  statement_variables_only.
  intros Hg H1 H2 Hc1 Hc2 Hnone w exactlyBoth.
  assert (Hw : others w = []) by reflexivity.
  split; [|split].
  - destruct (createRssArticle_after_quiet d1 w Hw) as [Ho Hs].
    destruct (createRssArticle_after_quiet d2 _ Ho) as [_ Hs2].
    unfold exactlyBoth. rewrite Hs2, Hs, H1, H2.
    apply storeAfterCreate_two_feeds; assumption.
  - destruct (createRssArticle_after_quiet d2 w Hw) as [Ho Hs].
    destruct (createRssArticle_after_quiet d1 _ Ho) as [_ Hs2].
    unfold exactlyBoth. rewrite Hs2, Hs, H1, H2.
    assert (Hnone2 : find (guidIs (guid d2)) (rssArticles s) = None)
      by (rewrite <- Hg; exact Hnone).
    destruct (storeAfterCreate_two_feeds d2 d1 o2 o1 s (eq_sym Hg) H1 Hc2 Hnone2)
      as (a & l & Ha & Hl & Hnd & Hin).
    exists a, l. rewrite Hg.
    split; [exact Ha|]. split; [exact Hl|]. split; [exact Hnd|].
    intros x. rewrite (Hin x). tauto.
  - intros d w0 n Hq. apply (reingest_unchanged d n w0 Hq).
Qed.

(** *** deleteRssFeed *)

Lemma deleteRssFeed_quiet (id : string) (o : ObjectId) (s : Store) (c : list LogEntry) :
  parseObjectId id = Some o ->
  deleteRssFeed id (mkWorld s [] c)
  = (Returned tt,
     mkWorld (mkStore (removeFirst (feedIdIs o) (rssFeeds s))
                      (filter (fun a => negb (noSources a))
                         (map (fun a => if hasSource o a
                                        then withSourceFeedIds a (pull o (art_sourceFeedIds a))
                                        else a)
                              (rssArticles s)))
                      (clock s) (nextId s))
             [] c).
Proof.
  intros Hp. unfold deleteRssFeed, wrapDatabaseOperation, tryCatch, toObjectId.
  rewrite Hp. reflexivity.
Qed.

Lemma deleteRssFeed_invalid (id : string) (w : World) :
  parseObjectId id = None -> store (after (deleteRssFeed id) w) = store w.
Proof.
  intros Hp. unfold deleteRssFeed, wrapDatabaseOperation, tryCatch, toObjectId, after.
  rewrite Hp. reflexivity.
Qed.

Lemma filter_not_in (o : ObjectId) (l : list ObjectId) :
  includes l o = false -> filter (fun y => negb (String.eqb o y)) l = l.
Proof.
  induction l as [|y l IH]; simpl; [reflexivity|].
  destruct (String.eqb o y); simpl; [discriminate|].
  intros H. now rewrite IH.
Qed.

Lemma pull_then_purge (o : ObjectId) (articles : list RssArticle) :
  filter (fun a => negb (noSources a))
         (map (fun a => if hasSource o a
                        then withSourceFeedIds a (pull o (art_sourceFeedIds a))
                        else a)
              articles)
  = survivors o articles.
Proof.
  induction articles as [|a rest IH]; [reflexivity|].
  unfold survivors in *. cbn [map filter flat_map]. rewrite IH. clear IH.
  unfold removeFeedReference, hasSource, sourcesOf, noSources.
  destruct a as [i f g [l|] pd fl ca ua]; cbn [art_sourceFeedIds]; [|reflexivity].
  destruct (includes l o) eqn:Hi.
  - cbn [withSourceFeedIds art_sourceFeedIds pull].
    destruct (filter (fun y => negb (String.eqb o y)) l); reflexivity.
  - rewrite (filter_not_in _ _ Hi). cbn [art_sourceFeedIds].
    destruct l; reflexivity.
Qed.

(** C8.  When no other request writes in between, [deleteRssFeed] returns
    and leaves in the article collection exactly the articles that survive
    the removal of the feed reference, each with the feed id taken out of
    its [sourceFeedIds]: an article whose [sourceFeedIds] was the feed
    alone is deleted, one whose [sourceFeedIds] was the feed and another
    feed g stays with [sourceFeedIds] g alone. *)
Theorem deleteRssFeed_removes_references
        (id : string) (o : ObjectId) (s : Store) (c : list LogEntry) :
  parseObjectId id = Some o ->
  let w := mkWorld s [] c in
  outcome (deleteRssFeed id) w = Returned tt
  /\ rssArticles (store (after (deleteRssFeed id) w)) = survivors o (rssArticles s)
  /\ (forall a, art_sourceFeedIds a = Some [o] -> removeFeedReference o a = None)
  /\ (forall a g, g <> o ->
        art_sourceFeedIds a = Some [o; g] \/ art_sourceFeedIds a = Some [g; o] ->
        removeFeedReference o a = Some (withSourceFeedIds a (Some [g])))
  /\ (forall a', In a' (survivors o (rssArticles s)) <->
        exists a, In a (rssArticles s)
                  /\ filter (fun y => negb (String.eqb o y)) (sourcesOf a) <> []
                  /\ a' = withSourceFeedIds a
                            (Some (filter (fun y => negb (String.eqb o y)) (sourcesOf a)))).
Proof.
  intros Hp w. unfold outcome, after, w. rewrite (deleteRssFeed_quiet id o s c Hp).
  cbn [fst snd store rssArticles]. split; [reflexivity|]. split; [apply pull_then_purge|].
  split; [|split].
  - intros a Ha. unfold removeFeedReference, sourcesOf. rewrite Ha. simpl.
    now rewrite String.eqb_refl.
  - intros a g Hg Ha. unfold removeFeedReference, sourcesOf.
    assert (Hog : String.eqb o g = false) by (apply String.eqb_neq; congruence).
    destruct Ha as [Ha|Ha]; rewrite Ha; simpl; rewrite String.eqb_refl, Hog; reflexivity.
  - intros a'. unfold survivors. rewrite in_flat_map. split.
    + intros (a & Hin & Ha). exists a. split; [exact Hin|].
      unfold removeFeedReference in Ha.
      destruct (filter (fun y => negb (String.eqb o y)) (sourcesOf a)) as [|y r]; [destruct Ha|].
      destruct Ha as [<-|[]]. split; [discriminate|reflexivity].
    + intros (a & Hin & Hne & ->). exists a. split; [exact Hin|].
      unfold removeFeedReference.
      destruct (filter (fun y => negb (String.eqb o y)) (sourcesOf a)) as [|y r];
        [congruence|now left].
Qed.

(** *** The invariant of stored articles *)

Lemma updateFirst_Forall {A} (P : A -> Prop) (p : A -> bool) (f : A -> A) (l : list A) :
  (forall x, P x -> P (f x)) -> Forall P l -> Forall P (snd (updateFirst p f l)).
Proof.
  intros Hf H. induction H as [|x l Hx Hl IH]; simpl; [constructor|].
  destruct (p x); simpl.
  - constructor; auto.
  - destruct (updateFirst p f l). simpl in *. constructor; auto.
Qed.

Lemma addToSet_keeps_primary (o : ObjectId) (a : RssArticle) :
  primaryIsSource a ->
  primaryIsSource (withSourceFeedIds a (addToSet o (art_sourceFeedIds a))).
Proof.
  unfold primaryIsSource, sourcesOf, addToSet. cbn [art_feedId art_sourceFeedIds withSourceFeedIds].
  destruct (art_sourceFeedIds a) as [l|]; [|intros []].
  destruct (includes l o); [auto|]. intros H. apply in_or_app. now left.
Qed.

Lemma storeAfterCreate_invariant (o : ObjectId) (data : ArticleCreateData) (s : Store) :
  Forall primaryIsSource (rssArticles s) ->
  Forall primaryIsSource (rssArticles (storeAfterCreate o data s)).
Proof.
  intros H. unfold storeAfterCreate.
  destruct (find (guidIs (guid data)) (rssArticles s)) as [ex|].
  - destruct (includes (sourcesOf ex) (feedId data)); [exact H|].
    cbn [setArticles rssArticles]. apply updateFirst_Forall; [|exact H].
    intros x. apply addToSet_keeps_primary.
  - cbn [rssArticles]. apply Forall_app. split; [exact H|].
    constructor; [|constructor]. unfold primaryIsSource. simpl. now left.
Qed.

Lemma survivors_have_sources (o : ObjectId) (articles : list RssArticle) :
  Forall hasSources (survivors o articles).
Proof.
  apply Forall_forall. intros a' Ha'. unfold survivors in Ha'.
  apply in_flat_map in Ha'. destruct Ha' as (a & _ & Ha).
  unfold removeFeedReference in Ha.
  destruct (filter (fun y => negb (String.eqb o y)) (sourcesOf a)) as [|y r]; [destruct Ha|].
  destruct Ha as [<-|[]]. unfold hasSources, sourcesOf. simpl. discriminate.
Qed.

Lemma survivors_keep_other_primaries (o : ObjectId) (articles : list RssArticle) :
  Forall primaryIsSource articles ->
  Forall (fun a => art_feedId a <> o -> primaryIsSource a) (survivors o articles).
Proof.
  intros H. apply Forall_forall. intros a' Ha' Hne. unfold survivors in Ha'.
  apply in_flat_map in Ha'. destruct Ha' as (a & Hin & Ha).
  pose proof (proj1 (Forall_forall _ _) H a Hin) as Hprim.
  unfold removeFeedReference in Ha.
  destruct (filter (fun y => negb (String.eqb o y)) (sourcesOf a)) as [|y r] eqn:Hf;
    [destruct Ha|].
  destruct Ha as [<-|[]]. unfold primaryIsSource, sourcesOf in *.
  cbn [art_feedId art_sourceFeedIds withSourceFeedIds] in *.
  rewrite <- Hf. apply filter_In. split; [exact Hprim|].
  apply negb_true_iff, String.eqb_neq. congruence.
Qed.

(** C9, as the code has it.  When no other request writes in between and
    every stored article has its primary feed among its sources:
    [createRssArticle] keeps that invariant for every stored article;
    [deleteRssFeed] leaves no article with an empty [sourceFeedIds], and
    keeps the primary feed among the sources of every article whose
    primary feed is not the deleted one. *)
Theorem article_invariant_preservation (w : World) :
  others w = [] ->
  Forall primaryIsSource (rssArticles (store w)) ->
  (forall data,
      Forall primaryIsSource (rssArticles (store (after (createRssArticle data) w))))
  /\ (forall id,
         Forall hasSources (rssArticles (store (after (deleteRssFeed id) w))))
  /\ (forall id o,
         parseObjectId id = Some o ->
         Forall (fun a => art_feedId a <> o -> primaryIsSource a)
                (rssArticles (store (after (deleteRssFeed id) w)))).
Proof.
  intros Hq Hinv. split; [|split].
  - intros data. destruct (createRssArticle_after_quiet data w Hq) as [_ Hs].
    rewrite Hs. destruct (parseObjectId (feedId data)); [|exact Hinv].
    now apply storeAfterCreate_invariant.
  - intros id. destruct (parseObjectId id) as [o|] eqn:Hp.
    + destruct w as [s ot c]. simpl in Hq. subst ot. unfold after.
      rewrite (deleteRssFeed_quiet id o s c Hp). cbn [snd store rssArticles].
      rewrite pull_then_purge. apply survivors_have_sources.
    + rewrite (deleteRssFeed_invalid id w Hp).
      eapply Forall_impl; [|exact Hinv].
      intros a Ha Hempty. unfold primaryIsSource in Ha. rewrite Hempty in Ha. destruct Ha.
  - intros id o Hp. destruct w as [s ot c]. simpl in Hq. subst ot. unfold after.
    rewrite (deleteRssFeed_quiet id o s c Hp). cbn [snd store rssArticles].
    rewrite pull_then_purge. now apply survivors_keep_other_primaries.
Qed.

(** *** getArticlesByFeedsAndDateRange *)

Lemma run_toObjectId (id : string) (w : World) :
  toObjectId id w = match parseObjectId id with
                    | Some o => (Returned o, w)
                    | None => (Thrown (JsError ("Invalid ObjectId: " ++ id)), w)
                    end.
Proof. unfold toObjectId. destruct (parseObjectId id); reflexivity. Qed.

Lemma mapM_toObjectId (ids : list string) (w : World) :
  match parseAll ids with
  | Some os => mapM toObjectId ids w = (Returned os, w)
  | None => exists id, mapM toObjectId ids w = (Thrown (JsError ("Invalid ObjectId: " ++ id)), w)
  end.
Proof.
  induction ids as [|id rest IH]; [reflexivity|].
  cbn [parseAll mapM]. rewrite run_bind, run_toObjectId.
  destruct (parseObjectId id) as [o|].
  - rewrite run_bind. destruct (parseAll rest) as [os|].
    + rewrite IH. reflexivity.
    + destruct IH as [bad IH]. exists bad. rewrite IH. reflexivity.
  - exists id. reflexivity.
Qed.

Lemma withFeed_shows (a : RssArticle) (w : World) :
  exists r w', withFeed a w = (Returned r, w') /\ shows a r.
Proof.
  unfold withFeed, feeds_findOne_id. rewrite run_bind. unfold dbCall, ret.
  eexists. eexists. split; [reflexivity|]. unfold shows. simpl. repeat split.
  unfold fromObjectId. apply map_id.
Qed.

Lemma mapM_withFeed (articles : list RssArticle) :
  forall w, exists l w', mapM withFeed articles w = (Returned l, w') /\ Forall2 shows articles l.
Proof.
  induction articles as [|a rest IH]; intros w.
  - exists [], w. split; [reflexivity|constructor].
  - cbn [mapM]. rewrite run_bind.
    destruct (withFeed_shows a w) as (r & w1 & Hr & Hs). rewrite Hr. rewrite run_bind.
    destruct (IH w1) as (l & w2 & Hl & Hf). rewrite Hl.
    exists (r :: l), w2. split; [reflexivity|]. constructor; assumption.
Qed.

Lemma insertDesc_In (a x : RssArticle) (l : list RssArticle) :
  In x (insertDesc a l) <-> x = a \/ In x l.
Proof.
  induction l as [|b l IH]; simpl.
  - intuition.
  - destruct (art_pubDate b <=? art_pubDate a)%Z; simpl; [intuition|].
    rewrite IH. intuition.
Qed.

Lemma insertDesc_sorted (a : RssArticle) (l : list RssArticle) :
  StronglySorted newestFirstStored l -> StronglySorted newestFirstStored (insertDesc a l).
Proof.
  intros H. induction H as [|b l Hl IH Hb]; simpl.
  - constructor; constructor.
  - destruct (art_pubDate b <=? art_pubDate a)%Z eqn:Hc.
    + apply Z.leb_le in Hc. constructor; [constructor; assumption|].
      constructor; [exact Hc|].
      eapply Forall_impl; [|exact Hb]. unfold newestFirstStored. intros; lia.
    + apply Z.leb_gt in Hc. constructor; [exact IH|].
      apply Forall_forall. intros x Hx. apply insertDesc_In in Hx.
      destruct Hx as [->|Hx].
      * unfold newestFirstStored. lia.
      * exact (proj1 (Forall_forall _ _) Hb x Hx).
Qed.

Lemma sortByPubDateDesc_sorted (l : list RssArticle) :
  StronglySorted newestFirstStored (sortByPubDateDesc l).
Proof.
  induction l as [|a l IH]; simpl; [constructor|]. now apply insertDesc_sorted.
Qed.

Lemma sortByPubDateDesc_In (l : list RssArticle) (x : RssArticle) :
  In x (sortByPubDateDesc l) <-> In x l.
Proof.
  induction l as [|a l IH]; simpl; [tauto|]. rewrite insertDesc_In, IH. intuition.
Qed.

Lemma firstn_subset {A} (n : nat) (l : list A) (x : A) : In x (firstn n l) -> In x l.
Proof.
  revert n. induction l as [|y l IH]; intros [|n]; simpl; try tauto.
  intros [->|H]; [now left|right; eauto].
Qed.

Lemma Forall2_shown_by {A B} (R : A -> B -> Prop) (l : list A) (l' : list B) (y : B) :
  Forall2 R l l' -> In y l' -> exists x, In x l /\ R x y.
Proof.
  intros H. induction H as [|a b l l' Hab Hf IH]; simpl; [intros []|].
  intros [->|Hy].
  - exists a. auto.
  - destruct (IH Hy) as (x & Hx & HR). exists x. auto.
Qed.

Lemma firstn_sorted {A} (R : A -> A -> Prop) (n : nat) (l : list A) :
  StronglySorted R l -> StronglySorted R (firstn n l).
Proof.
  intros H. revert n. induction H as [|a l Hl IH Ha]; intros [|n]; simpl; try constructor.
  - apply IH.
  - apply Forall_forall. intros x Hx.
    exact (proj1 (Forall_forall _ _) Ha x (firstn_subset _ _ _ Hx)).
Qed.

Lemma cursorLimit_sorted {A} (R : A -> A -> Prop) (batch : nat) (n : Z) (l : list A) :
  StronglySorted R l -> StronglySorted R (cursorLimit batch n l).
Proof.
  intros H. unfold cursorLimit. destruct (n =? 0)%Z; [exact H|].
  destruct (n <? 0)%Z; now apply firstn_sorted.
Qed.

Lemma cursorLimit_In {A} (batch : nat) (n : Z) (l : list A) (x : A) :
  In x (cursorLimit batch n l) -> In x l.
Proof.
  unfold cursorLimit. destruct (n =? 0)%Z; [auto|].
  destruct (n <? 0)%Z; apply firstn_subset.
Qed.

Lemma cursorLimit_length {A} (batch : nat) (n : Z) (l : list A) :
  (0 < n)%Z -> (Z.of_nat (List.length (cursorLimit batch n l)) <= n)%Z.
Proof.
  intros Hn. unfold cursorLimit.
  destruct (Z.eqb_spec n 0) as [->|_]; [lia|].
  destruct (Z.ltb_spec n 0) as [Hneg|_]; [lia|].
  pose proof (firstn_le_length (Z.abs_nat n) l) as H1.
  rewrite length_firstn. lia.
Qed.

Lemma Forall2_sorted (l : list RssArticle) (l' : list ArticleWithFeed) :
  Forall2 shows l l' -> StronglySorted newestFirstStored l -> StronglySorted newestFirst l'.
Proof.
  intros H. induction H as [|a r l l' Hs Hf IH]; intros Hsorted; [constructor|].
  inversion Hsorted as [|? ? Hl Ha]; subst. constructor; [auto|].
  apply Forall_forall. intros r' Hr'.
  destruct (Forall2_shown_by _ _ _ _ Hf Hr') as (a' & Ha' & Hs').
  pose proof (proj1 (Forall_forall _ _) Ha a' Ha') as Hle.
  unfold newestFirst, newestFirstStored, shows in *.
  destruct Hs as (_ & _ & _ & _ & _ & ->). destruct Hs' as (_ & _ & _ & _ & _ & ->).
  exact Hle.
Qed.

Lemma matchesFeedsAndRange_sound (oids : list ObjectId) (startDate endDate : Z)
      (a : RssArticle) (r : ArticleWithFeed) :
  shows a r ->
  matchesFeedsAndRange oids startDate endDate a = true ->
  fromRequestedFeeds oids r /\ inDateRange startDate endDate r.
Proof.
  intros (_ & Hf & Hs & _ & _ & Hd) Hm. unfold matchesFeedsAndRange in Hm.
  apply andb_true_iff in Hm. destruct Hm as [Hm Hhi].
  apply andb_true_iff in Hm. destruct Hm as [Hm Hlo].
  apply Z.leb_le in Hhi, Hlo. unfold fromRequestedFeeds, inDateRange.
  rewrite Hf, Hs, Hd. split; [|lia].
  apply orb_true_iff in Hm. destruct Hm as [Hm|Hm].
  - left. now apply includes_In.
  - right. apply existsb_exists in Hm. destruct Hm as (x & Hx & Hi).
    exists x. split; [exact Hx|]. now apply includes_In.
Qed.

Lemma run_find_feedsAndRange (oids : list ObjectId) (startDate endDate limit : Z) (w : World) :
  articles_find_feedsAndRange (singleBatch RssArticle) oids startDate endDate limit w
  = (Returned (cursorLimit
                 (singleBatch RssArticle
                    (sortByPubDateDesc
                       (filter (matchesFeedsAndRange oids startDate endDate)
                               (rssArticles (store (interleave w))))))
                 limit
                 (sortByPubDateDesc
                    (filter (matchesFeedsAndRange oids startDate endDate)
                            (rssArticles (store (interleave w)))))),
     interleave w).
Proof.
  unfold articles_find_feedsAndRange, dbCall. cbv zeta.
  destruct (interleave w) as [s ot c]. reflexivity.
Qed.

Lemma getArticlesByFeedsAndDateRange_run
      (ids : list string) (startDate endDate limit : Z) (w : World) :
  match parseAll ids with
  | None =>
      exists e, outcome (getArticlesByFeedsAndDateRange ids startDate endDate limit) w
                = Thrown e /\ invalidObjectId e
  | Some oids =>
      exists result,
        outcome (getArticlesByFeedsAndDateRange ids startDate endDate limit) w
        = Returned result
        /\ Forall2 shows
             (cursorLimit
                (singleBatch RssArticle
                   (sortByPubDateDesc
                      (filter (matchesFeedsAndRange oids startDate endDate)
                              (rssArticles (store (interleave w))))))
                limit
                (sortByPubDateDesc
                   (filter (matchesFeedsAndRange oids startDate endDate)
                           (rssArticles (store (interleave w))))))
             result
  end.
Proof.
  unfold getArticlesByFeedsAndDateRange, wrapDatabaseOperation, tryCatch, outcome.
  rewrite run_bind. pose proof (mapM_toObjectId ids w) as Hids.
  destruct (parseAll ids) as [oids|].
  - rewrite Hids, run_bind, run_find_feedsAndRange, run_bind.
    set (found := cursorLimit _ limit _).
    destruct (mapM_withFeed found (interleave w)) as (l & w2 & Hl & Hf).
    rewrite Hl. exists l. split; [reflexivity|exact Hf].
  - destruct Hids as [bad Hbad]. rewrite Hbad. unfold emit, throw. simpl.
    eexists. split; [reflexivity|]. now exists bad.
Qed.

(** C6, as the code has it.  A request with a malformed feed id throws.
    Otherwise the query returns, in every world; each returned element
    shows an article of the collection whose primary feed or one of whose
    sources is among the requested feeds and whose date lies in the closed
    range; the elements come newest first; and for a positive [limit]
    there are at most [limit] of them. *)
Theorem getArticlesByFeedsAndDateRange_sound
        (ids : list string) (startDate endDate limit : Z) (w : World) :
  match parseAll ids with
  | None =>
      exists e, outcome (getArticlesByFeedsAndDateRange ids startDate endDate limit) w
                = Thrown e
  | Some oids =>
      exists result,
        outcome (getArticlesByFeedsAndDateRange ids startDate endDate limit) w
        = Returned result
        /\ Forall (fun r => fromRequestedFeeds oids r /\ inDateRange startDate endDate r
                            /\ exists a, In a (rssArticles (store (interleave w)))
                                         /\ shows a r) result
        /\ StronglySorted newestFirst result
        /\ ((0 < limit)%Z -> (Z.of_nat (List.length result) <= limit)%Z)
  end.
Proof.
  pose proof (getArticlesByFeedsAndDateRange_run ids startDate endDate limit w) as Hrun.
  destruct (parseAll ids) as [oids|].
  - destruct Hrun as (l & Hl & Hf). exists l. split; [exact Hl|]. split; [|split].
    + apply Forall_forall. intros r Hr.
      destruct (Forall2_shown_by _ _ _ _ Hf Hr) as (a & Ha & Hs).
      apply cursorLimit_In, sortByPubDateDesc_In, filter_In in Ha.
      destruct Ha as [Hin Hm].
      destruct (matchesFeedsAndRange_sound _ _ _ _ _ Hs Hm) as [H1 H2].
      split; [exact H1|]. split; [exact H2|]. exists a. auto.
    + apply (Forall2_sorted _ _ Hf). apply cursorLimit_sorted, sortByPubDateDesc_sorted.
    + intros Hpos. rewrite <- (Forall2_length Hf). now apply cursorLimit_length.
  - destruct Hrun as (e & He & _). eauto.
Qed.

(** *** getFeedsToRefresh *)

Lemma distinctFrom_In (x : string) (l seen : list string) :
  In x (distinctFrom seen l) <-> In x l /\ ~ In x seen.
Proof.
  statement_variables_only.
  revert seen. induction l as [|y l IH]; intros seen; simpl; [tauto|].
  destruct (includes seen y) eqn:Hy.
  - apply includes_In in Hy. rewrite IH. split.
    + tauto.
    + intros [[->|H] Hn]; [contradiction|tauto].
  - apply includes_false_not_In in Hy. simpl. rewrite IH. simpl.
    destruct (string_dec y x) as [->|Hne]; [tauto|]. tauto.
Qed.

Lemma distinct_In (x : string) (l : list string) : In x (distinct l) <-> In x l.
Proof. statement_variables_only. unfold distinct. rewrite distinctFrom_In. simpl. tauto. Qed.

Lemma maxDate_fold_some (l : list (option Z)) (m : Z) :
  fold_right maxDate None l = Some m ->
  In (Some m) l /\ forall t, In (Some t) l -> (t <= m)%Z.
Proof.
  revert m. induction l as [|[x|] l IH]; intros m; simpl.
  - discriminate.
  - destruct (fold_right maxDate None l) as [y|] eqn:Hy.
    + intros [= <-]. destruct (IH y eq_refl) as [Hin Hmax]. split.
      * destruct (Z.max_spec x y) as [[_ ->]|[_ ->]]; auto.
      * intros t [[= ->]|Ht]; [lia|]. specialize (Hmax t Ht). lia.
    + intros [= <-]. split; [now left|].
      intros t [[= ->]|Ht]; [lia|].
      exfalso. clear IH. induction l as [|[z|] l IHl]; simpl in *.
      * destruct Ht.
      * destruct (fold_right maxDate None l); discriminate.
      * destruct Ht as [Ht|Ht]; [discriminate|]. auto.
  - intros Hm. destruct (IH m Hm) as [Hin Hmax]. split; [now right|].
    intros t [Ht|Ht]; [discriminate|]. auto.
Qed.

Lemma maxDate_fold_in (l : list (option Z)) (t : Z) :
  In (Some t) l -> exists m, fold_right maxDate None l = Some m.
Proof.
  induction l as [|[x|] l IH]; simpl.
  - intros [].
  - intros _. destruct (fold_right maxDate None l); eauto.
  - intros [Ht|Ht]; [discriminate|]. auto.
Qed.

Lemma latestFetch_recent (feeds : list RssFeed) (url : string) (threshold : Z) :
  (exists m, latestFetch feeds url = Some m /\ (threshold <= m)%Z)
  <-> exists f t, In f feeds /\ fd_url f = url /\ fd_lastFetched f = Some t
                  /\ (threshold <= t)%Z.
Proof.
  unfold latestFetch. split.
  - intros (m & Hm & Hle). apply maxDate_fold_some in Hm. destruct Hm as [Hin _].
    apply in_map_iff in Hin. destruct Hin as (f & Hf & Hin).
    apply filter_In in Hin. destruct Hin as [Hin Hu]. apply String.eqb_eq in Hu.
    exists f, m. auto.
  - intros (f & t & Hin & Hu & Ht & Hle).
    assert (Hmem : In (Some t)
                      (map fd_lastFetched
                           (filter (fun f => String.eqb (fd_url f) url) feeds))).
    { apply in_map_iff. exists f. split; [exact Ht|].
      apply filter_In. split; [exact Hin|]. now apply String.eqb_eq. }
    destruct (maxDate_fold_in _ _ Hmem) as [m Hm]. exists m. split; [exact Hm|].
    apply maxDate_fold_some in Hm. destruct Hm as [_ Hmax]. specialize (Hmax t Hmem). lia.
Qed.

Lemma recent_urls_spec (feeds : list RssFeed) (urls : list string) (threshold : Z)
      (url : string) :
  In url urls ->
  (includes
     (map grp_id
          (filter (fun g => match maxLastFetched g with Some _ => true | None => false end)
                  (groupByUrl (filter (recentlyFetched urls threshold) feeds))))
     url = true
   <-> exists m, latestFetch feeds url = Some m /\ (threshold <= m)%Z).
Proof.
  intros Hurl. rewrite latestFetch_recent, includes_In, in_map_iff.
  set (docs := filter (recentlyFetched urls threshold) feeds).
  assert (Hdocs : forall f, In f docs <->
                    In f feeds /\ In (fd_url f) urls
                    /\ exists t, fd_lastFetched f = Some t /\ (threshold <= t)%Z).
  { intros f. unfold docs. rewrite filter_In. unfold recentlyFetched.
    rewrite andb_true_iff, includes_In. split.
    - intros (Hin & Hu & Ht). destruct (fd_lastFetched f) as [t|]; [|discriminate].
      apply Z.leb_le in Ht. eauto.
    - intros (Hin & Hu & t & -> & Hle). apply Z.leb_le in Hle. auto. }
  split.
  - intros (g & Hg & Hin). apply filter_In in Hin. destruct Hin as [Hin _].
    unfold groupByUrl in Hin. apply in_map_iff in Hin. destruct Hin as (u & <- & Hu).
    simpl in Hg. subst u. apply distinct_In, in_map_iff in Hu.
    destruct Hu as (f & Hfu & Hf). apply Hdocs in Hf.
    destruct Hf as (Hin & _ & t & Ht & Hle). exists f, t. auto.
  - intros (f & t & Hin & Hu & Ht & Hle).
    assert (Hf : In f docs) by (apply Hdocs; rewrite Hu; eauto).
    assert (Hmem : In (Some t)
                      (map fd_lastFetched
                           (filter (fun f => String.eqb (fd_url f) url) docs))).
    { apply in_map_iff. exists f. split; [exact Ht|].
      apply filter_In. split; [exact Hf|]. now apply String.eqb_eq. }
    destruct (maxDate_fold_in _ _ Hmem) as [m Hm].
    exists (mkGroup url (Some m)). split; [reflexivity|].
    apply filter_In. split; [|reflexivity].
    unfold groupByUrl. apply in_map_iff. exists url. split; [now rewrite Hm|].
    apply distinct_In, in_map_iff. exists f. auto.
Qed.

Lemma run_getFeedsToRefresh_quiet (ids : list string) (oids : list ObjectId)
      (s : Store) (c : list LogEntry) :
  parseAll ids = Some oids ->
  let requested := filter (fun f => includes oids (fd_id f)) (rssFeeds s) in
  let urlsToCheck := distinct (map fd_url requested) in
  let recent :=
    map grp_id
        (filter (fun g => match maxLastFetched g with Some _ => true | None => false end)
                (groupByUrl (filter (recentlyFetched urlsToCheck (clock s - CACHE_WINDOW))
                                    (rssFeeds s)))) in
  getFeedsToRefresh ids (mkWorld s [] c)
  = (Returned (map (fun f => fromObjectId (fd_id f))
                   (filter (fun f => negb (includes recent (fd_url f))) requested)),
     mkWorld s [] c).
Proof.
  intros Hp. cbv zeta. unfold getFeedsToRefresh. rewrite run_bind. unfold newDate at 1.
  rewrite run_bind. pose proof (mapM_toObjectId ids (mkWorld s [] c)) as Hids.
  rewrite Hp in Hids. rewrite Hids. cbn [store].
  rewrite run_bind. unfold feeds_find_idIn. rewrite dbCall_quiet. cbn [fst snd].
  rewrite run_bind. unfold feeds_aggregate_recent. rewrite dbCall_quiet. cbn [fst snd].
  destruct s; reflexivity.
Qed.

Lemma same_id_same_feed (feeds : list RssFeed) (f g : RssFeed) :
  NoDup (map fd_id feeds) -> In f feeds -> In g feeds -> fd_id f = fd_id g -> f = g.
Proof.
  induction feeds as [|h feeds IH]; simpl; [intros _ []|].
  intros Hnd Hf Hg Heq. inversion Hnd as [|? ? Hnotin Hnd']; subst.
  destruct Hf as [->|Hf], Hg as [->|Hg]; auto.
  - exfalso. apply Hnotin. rewrite Heq. now apply in_map.
  - exfalso. apply Hnotin. rewrite <- Heq. now apply in_map.
Qed.

(** C1, as the code has it.  When every requested id is well formed, feed
    ids are unique in the collection and no other request writes in
    between, [getFeedsToRefresh] returns, and a requested feed that is
    stored is reported stale exactly when no record with its url was ever
    fetched, or when the latest [lastFetched] over all records with its
    url is more than the window before now.  At exactly the window the
    feed is fresh. *)
Theorem getFeedsToRefresh_classifies
        (ids : list string) (oids : list ObjectId) (s : Store) (c : list LogEntry) :
  parseAll ids = Some oids ->
  NoDup (map fd_id (rssFeeds s)) ->
  exists stale,
    outcome (getFeedsToRefresh ids) (mkWorld s [] c) = Returned stale
    /\ (forall id, In id stale -> In id oids /\ exists f, In f (rssFeeds s) /\ fd_id f = id)
    /\ forall f, In f (rssFeeds s) -> In (fd_id f) oids ->
         (In (fd_id f) stale <->
            match latestFetch (rssFeeds s) (fd_url f) with
            | None => True
            | Some m => (CACHE_WINDOW < clock s - m)%Z
            end)
         /\ (~ In (fd_id f) stale <->
               exists m, latestFetch (rssFeeds s) (fd_url f) = Some m
                         /\ (clock s - m <= CACHE_WINDOW)%Z).
Proof.
  intros Hp Hnd. unfold outcome. rewrite (run_getFeedsToRefresh_quiet ids oids s c Hp).
  cbn [fst]. eexists. split; [reflexivity|].
  set (requested := filter (fun f => includes oids (fd_id f)) (rssFeeds s)).
  set (urls := distinct (map fd_url requested)).
  set (recent := map grp_id _).
  assert (Hreq : forall f, In f requested <-> In f (rssFeeds s) /\ In (fd_id f) oids).
  { intros f. unfold requested. rewrite filter_In, includes_In. tauto. }
  split.
  - intros id Hid. apply in_map_iff in Hid. destruct Hid as (f & <- & Hf).
    apply filter_In in Hf. destruct Hf as [Hf _]. apply Hreq in Hf.
    unfold fromObjectId. split; [tauto|]. exists f. tauto.
  - intros f Hf Hin.
    assert (Hurl : In (fd_url f) urls).
    { apply distinct_In, in_map. apply Hreq. auto. }
    pose proof (recent_urls_spec (rssFeeds s) urls (clock s - CACHE_WINDOW) (fd_url f) Hurl)
      as Hrecent. fold recent in Hrecent.
    assert (Hstale : In (fd_id f)
                        (map (fun f => fromObjectId (fd_id f))
                             (filter (fun f => negb (includes recent (fd_url f))) requested))
                     <-> includes recent (fd_url f) = false).
    { rewrite in_map_iff. split.
      - intros (g & Hg & Hgin). apply filter_In in Hgin. destruct Hgin as [Hgin Hneg].
        unfold fromObjectId in Hg.
        assert (g = f) by (apply (same_id_same_feed (rssFeeds s)); auto; apply Hreq, Hgin).
        subst g. now apply negb_true_iff.
      - intros Hfalse. exists f. split; [reflexivity|].
        apply filter_In. split; [apply Hreq; auto|]. now rewrite Hfalse. }
    rewrite Hstale. split.
    + destruct (includes recent (fd_url f)) eqn:Hi.
      * destruct (proj1 Hrecent eq_refl) as (m & -> & Hle). split; [discriminate|lia].
      * split; [|reflexivity]. intros _.
        destruct (latestFetch (rssFeeds s) (fd_url f)) as [m|]; [|exact I].
        destruct (Z_lt_le_dec CACHE_WINDOW (clock s - m)) as [Hlt|Hle]; [exact Hlt|].
        assert (false = true); [|discriminate]. apply Hrecent. exists m. split; [reflexivity|lia].
    + rewrite not_false_iff_true, Hrecent. split.
      * intros (m & Hm & Hle). exists m. split; [exact Hm|lia].
      * intros (m & Hm & Hle). exists m. split; [exact Hm|lia].
Qed.

(** *** prepareFeedsAndArticles *)

Lemma finish_returns {A} (tasks : list (Task A)) :
  forall w, exists results,
    finish tasks w = (Returned results, snd (finish tasks w))
    /\ List.length results = List.length tasks.
Proof.
  induction tasks as [|t rest IH]; intros w.
  - exists []. split; reflexivity.
  - cbn [finish]. destruct (runTask t w) as [r w1]. rewrite run_bind.
    destruct (IH w1) as (rs & Hrs & Hlen). rewrite Hrs.
    exists (settle r :: rs). split; [reflexivity|]. simpl. now rewrite Hlen.
Qed.

Lemma advanceNth_length {A} (turn : nat) (tasks : list (Task A)) :
  forall w, List.length (fst (advanceNth turn tasks w)) = List.length tasks.
Proof.
  revert turn. induction tasks as [|t rest IH]; intros turn w; [reflexivity|].
  cbn [advanceNth]. destruct turn as [|n].
  - destruct (advance t w). reflexivity.
  - specialize (IH n w). destruct (advanceNth n rest w). simpl in *. now rewrite IH.
Qed.

(** [Promise.allSettled] never rejects, whatever the promises do and in
    whatever order they are resumed, and it reports on every promise. *)
Lemma allSettled_returns {A} (turns : list nat) :
  forall (tasks : list (Task A)) (w : World),
  exists results,
    allSettled turns tasks w = (Returned results, snd (allSettled turns tasks w))
    /\ List.length results = List.length tasks.
Proof.
  induction turns as [|turn later IH]; intros tasks w.
  - apply finish_returns.
  - cbn [allSettled]. pose proof (advanceNth_length turn tasks w) as Hlen.
    destruct (advanceNth turn tasks w) as [tasks' w1]. cbn [fst] in Hlen.
    destruct (IH tasks' w1) as (results & Hrun & Hres).
    exists results. split; [exact Hrun|congruence].
Qed.

Lemma settled_partition {A} (l : list (PromiseSettledResult A)) :
  count isFulfilled l + count isRejected l = List.length l.
Proof.
  unfold count. induction l as [|[v|e] l IH]; simpl; lia.
Qed.

Lemma getFeedsToRefresh_throws (ids : list string) (w w1 : World) (e : Exn) :
  getFeedsToRefresh ids w = (Thrown e, w1) -> invalidObjectId e.
Proof.
  unfold getFeedsToRefresh. rewrite run_bind. unfold newDate at 1. rewrite run_bind.
  pose proof (mapM_toObjectId ids w) as Hids.
  destruct (parseAll ids) as [oids|].
  - rewrite Hids. discriminate.
  - destruct Hids as [bad Hbad]. rewrite Hbad. intros [= <- _]. now exists bad.
Qed.

Lemma refreshStaleFeeds_run (params : PrepareFeedsParams) (w w1 : World) (stale : list string) :
  getFeedsToRefresh (feedIds params) w = (Returned stale, w1) ->
  stale <> [] ->
  let w2 := after (emit (LogRefreshing (List.length stale) (List.length (feedIds params)))) w1 in
  exists results w3,
    allSettled schedule (map fetchAndStoreFeedAsync stale) w2 = (Returned results, w3)
    /\ List.length results = List.length stale
    /\ refreshStaleFeeds params w
       = (Returned tt,
          after (emit (LogRefreshComplete (count isFulfilled results)
                                          (count isRejected results))) w3).
Proof.
  intros Hg Hne w2.
  destruct (allSettled_returns schedule (map fetchAndStoreFeedAsync stale) w2)
    as (results & Hrun & Hlen).
  exists results, (snd (allSettled schedule (map fetchAndStoreFeedAsync stale) w2)).
  split; [exact Hrun|]. split; [now rewrite length_map in Hlen|].
  unfold refreshStaleFeeds. rewrite run_bind, Hg.
  destruct stale as [|id rest]; [congruence|].
  cbn [Nat.ltb Nat.leb List.length]. rewrite run_bind.
  change (emit (LogRefreshing (S (List.length rest)) (List.length (feedIds params))) w1)
    with (Returned tt, w2).
  cbv beta iota. rewrite run_bind, Hrun. reflexivity.
Qed.

Lemma refreshStaleFeeds_throws (params : PrepareFeedsParams) (w w1 : World) (e : Exn) :
  refreshStaleFeeds params w = (Thrown e, w1) -> invalidObjectId e.
Proof.
  destruct (getFeedsToRefresh (feedIds params) w) as [[stale|e'] w'] eqn:Hg.
  - destruct stale as [|id rest].
    + unfold refreshStaleFeeds. rewrite run_bind, Hg. discriminate.
    + assert (Hne : id :: rest <> []) by discriminate.
      destruct (refreshStaleFeeds_run params w w' (id :: rest) Hg Hne)
        as (results & w3 & _ & _ & Hrun).
      rewrite Hrun. discriminate.
  - unfold refreshStaleFeeds. rewrite run_bind, Hg. intros [= <- _].
    exact (getFeedsToRefresh_throws _ _ _ _ Hg).
Qed.

Lemma invalidObjectId_not_noContent (e : Exn) : invalidObjectId e -> e <> noArticlesFound.
Proof. intros [id ->]. unfold noArticlesFound. simpl. discriminate. Qed.

Lemma run_queryArticles (params : PrepareFeedsParams) (w : World) :
  outcome (queryArticles params) w
  = match outcome (getArticlesByFeedsAndDateRange (feedIds params) (startDate params)
                     (endDate params) ARTICLE_LIMIT) w with
    | Returned [] => Thrown noArticlesFound
    | Returned (a :: l) => Returned (a :: l)
    | Thrown e => Thrown e
    end.
Proof.
  unfold queryArticles, outcome. rewrite run_bind.
  destruct (getArticlesByFeedsAndDateRange _ _ _ _ w) as [[[|a l]|e] w1]; reflexivity.
Qed.

Lemma run_prepareFeedsAndArticles (params : PrepareFeedsParams) (w : World) :
  prepareFeedsAndArticles params w
  = match refreshStaleFeeds params w with
    | (Returned _, w1) => queryArticles params w1
    | (Thrown e, w1) => (Thrown e, w1)
    end.
Proof. reflexivity. Qed.

(** C5.  [prepareFeedsAndArticles] throws the error "No articles found
    for the selected feeds and date range" exactly when the refresh has
    run and the article query that follows it returns the empty list; and
    it returns a list exactly when that query returns the same list and
    the list is not empty. *)
Theorem prepareFeedsAndArticles_no_content (params : PrepareFeedsParams) (w : World) :
  let query := getArticlesByFeedsAndDateRange
                 (feedIds params) (startDate params) (endDate params) ARTICLE_LIMIT in
  (outcome (prepareFeedsAndArticles params) w = Thrown noArticlesFound
   <-> exists w1, refreshStaleFeeds params w = (Returned tt, w1)
                  /\ outcome query w1 = Returned [])
  /\ forall l, outcome (prepareFeedsAndArticles params) w = Returned l
               <-> l <> []
                   /\ exists w1, refreshStaleFeeds params w = (Returned tt, w1)
                                 /\ outcome query w1 = Returned l.
Proof.
  intros query. unfold outcome at 1 3. rewrite run_prepareFeedsAndArticles.
  destruct (refreshStaleFeeds params w) as [[[]|e] w1] eqn:Hr.
  - fold (outcome (queryArticles params) w1). rewrite run_queryArticles. fold query.
    pose proof (getArticlesByFeedsAndDateRange_run (feedIds params) (startDate params)
                  (endDate params) ARTICLE_LIMIT w1) as Hq. fold query in Hq.
    split.
    + split.
      * intros H. exists w1. split; [reflexivity|].
        destruct (outcome query w1) as [[|a l]|e]; [reflexivity|discriminate|].
        exfalso. destruct (parseAll (feedIds params)).
        -- destruct Hq as (res & Hres & _). discriminate.
        -- destruct Hq as (e' & He' & Hinv). injection He' as <-. injection H as ->.
           exact (invalidObjectId_not_noContent _ Hinv eq_refl).
      * intros (w1' & [= <-] & ->). reflexivity.
    + intros l. split.
      * intros H. destruct (outcome query w1) as [[|a l']|e] eqn:Ho; try discriminate.
        injection H as <-. split; [discriminate|]. exists w1. split; [reflexivity|exact Ho].
      * intros (Hne & w1' & [= <-] & ->). destruct l; [congruence|reflexivity].
  - cbn [fst]. split.
    + split.
      * intros [= ->]. exfalso.
        exact (invalidObjectId_not_noContent _ (refreshStaleFeeds_throws _ _ _ _ Hr) eq_refl).
      * intros (w1' & Hw & _). discriminate.
    + intros l. split; [discriminate|]. intros (_ & w1' & Hw & _). discriminate.
Qed.

(** *** A lost race on a new guid *)

Lemma world_eta (w : World) : mkWorld (store w) (others w) (console w) = w.
Proof. destruct w; reflexivity. Qed.

Lemma dbCall_read {A} (g : Store -> A) (w : World) :
  dbCall (fun s => (Returned (g s), s)) w = (Returned (g (store (interleave w))), interleave w).
Proof. unfold dbCall. cbv zeta. now rewrite world_eta. Qed.

(** Let the lookup of [createRssArticle] find no article with the guid and
    let the guid be stored by the time of the insert.  Then
    [createRssArticle] does not go back to the update: it logs the
    duplicate-key error (code 11000) and throws it to its caller, and it
    has written nothing. *)
Lemma createRssArticle_conflict (data : ArticleCreateData) (o : ObjectId) (w : World) :
  parseObjectId (feedId data) = Some o ->
  find (guidIs (guid data)) (rssArticles (store (interleave w))) = None ->
  existsb (guidIs (guid data)) (rssArticles (store (interleave (interleave w)))) = true ->
  createRssArticle data w
  = (Thrown (MongoServerError 11000),
     after (emit (LogDatabaseError "create RSS article" (MongoServerError 11000)))
           (interleave (interleave w))).
Proof.
  intros Hp Hnone Hdup.
  unfold createRssArticle, wrapDatabaseOperation, tryCatch.
  rewrite run_bind, run_toObjectId, Hp, run_bind.
  unfold articles_findOne_guid. rewrite dbCall_read, Hnone.
  rewrite run_bind. unfold newDate at 1. rewrite run_bind.
  unfold articles_insertOne, dbCall. cbv zeta. cbn [art_guid]. rewrite Hdup.
  rewrite world_eta. reflexivity.
Qed.

(** *** fetchAndStoreFeed *)

Lemma bulkCreateRssArticles_returns (articles : list ArticleCreateData) (w : World) :
  exists counts,
    bulkCreateRssArticles articles w
    = (Returned counts, after (bulkCreateRssArticles articles) w)
    /\ created counts + skipped counts + errors counts = List.length articles.
Proof.
  destruct (bulkLoop_counts articles (mkBulk 0 0 0) w) as (r & Hr & Hc & Hs & He).
  exists r. unfold bulkCreateRssArticles, outcome, after in *.
  destruct (bulkLoop articles (mkBulk 0 0 0) w) as [r' w']. simpl in *. subst r'.
  split; [reflexivity|].
  pose proof (count_partition (attempts articles w)) as Hpart.
  rewrite attempts_length in Hpart. lia.
Qed.

Lemma run_updateFeedLastFetched (id : string) (o : ObjectId) (w : World) :
  parseObjectId id = Some o ->
  rssFeeds (store (after (updateFeedLastFetched id) w))
  = snd (updateFirst (feedIdIs o) (fun g => withLastFetched g (clock (store w)))
                     (rssFeeds (store (interleave w)))).
Proof.
  intros Hp. unfold updateFeedLastFetched, wrapDatabaseOperation, tryCatch, after.
  rewrite run_bind, run_toObjectId, Hp, run_bind. unfold newDate at 1. rewrite run_bind.
  unfold feeds_findOneAndUpdate_lastFetched, dbCall. cbv zeta.
  destruct (updateFirst _ _ (rssFeeds (store (interleave w)))) as [[g|] l]; reflexivity.
Qed.

(** C7, as the code has it.  Let the feed be stored.  If the fetch or the
    parse of its url fails, [fetchAndStoreFeed] throws that error and has
    written nothing: the store is what it was when the feed was looked
    up.  If the fetch succeeds, [bulkCreateRssArticles] first runs over
    every returned article and returns its tallies, whatever happened to
    the single articles; only then [updateFeedLastFetched] sets the feed's
    [lastFetched] to the current date, and the result carries the
    tallies. *)
Theorem fetchAndStoreFeed_updates_after_ingestion
        (id : string) (o : ObjectId) (f : RssFeed) (w : World) :
  parseObjectId id = Some o ->
  find (feedIdIs o) (rssFeeds (store (interleave w))) = Some f ->
  match fetchAndParseFeed (fd_url f) id with
  | inl e =>
      outcome (fetchAndStoreFeed id) w = Thrown e
      /\ store (after (fetchAndStoreFeed id) w) = store (interleave w)
  | inr (metadata, articles) =>
      exists counts w2,
        bulkCreateRssArticles (map (toCreateData id) articles) (interleave w)
        = (Returned counts, w2)
        /\ created counts + skipped counts + errors counts = List.length articles
        /\ fetchAndStoreFeed id w
           = match updateFeedLastFetched id w2 with
             | (Returned _, w3) =>
                 (Returned (mkFetchResult metadata (created counts) (skipped counts)
                                          (errors counts)), w3)
             | (Thrown e, w3) =>
                 (Thrown e, after (emit (LogDatabaseError "fetch feed" e)) w3)
             end
        /\ rssFeeds (store (after (updateFeedLastFetched id) w2))
           = snd (updateFirst (feedIdIs o) (fun g => withLastFetched g (clock (store w2)))
                              (rssFeeds (store (interleave w2))))
  end.
Proof.
  intros Hp Hfind.
  assert (Hrun : fetchAndStoreFeed id w
                 = tryCatch
                     (match fetchAndParseFeed (fd_url f) id with
                      | inl e => throw e
                      | inr (metadata, articles) =>
                          result <- bulkCreateRssArticles (map (toCreateData id) articles) ;;
                          updateFeedLastFetched id ;;;
                          ret (mkFetchResult metadata (created result) (skipped result)
                                             (errors result))
                      end)
                     (fun e => emit (LogDatabaseError "fetch feed" e) ;;; throw e)
                     (interleave w)).
  { unfold fetchAndStoreFeed, wrapDatabaseOperation, tryCatch.
    rewrite run_bind, run_toObjectId, Hp, run_bind.
    unfold feeds_findOne_id. rewrite dbCall_read, Hfind. reflexivity. }
  destruct (fetchAndParseFeed (fd_url f) id) as [e|[metadata articles]].
  - unfold outcome, after. rewrite Hrun. split; reflexivity.
  - destruct (bulkCreateRssArticles_returns (map (toCreateData id) articles) (interleave w))
      as (counts & Hbulk & Hsum).
    exists counts, (after (bulkCreateRssArticles (map (toCreateData id) articles)) (interleave w)).
    split; [exact Hbulk|]. split; [now rewrite length_map in Hsum|].
    split; [|now apply run_updateFeedLastFetched].
    rewrite Hrun. unfold tryCatch. rewrite run_bind, Hbulk, run_bind.
    destruct (updateFeedLastFetched id _) as [[g|e] w3]; reflexivity.
Qed.

(** *** Promises run to their end *)

Lemma run_pending {X} (step : M X) (w : World) : runTask (pending step) w = step w.
Proof. unfold pending. cbn [runTask]. destruct (step w); reflexivity. Qed.

Lemma run_andThen {A B} (t : Task A) (k : A -> Task B) :
  forall w, runTask (andThen t k) w
            = match runTask t w with
              | (Returned a, w1) => runTask (k a) w1
              | (Thrown e, w1) => (Thrown e, w1)
              end.
Proof.
  induction t as [[a|e]|X step k' IH]; intros w; cbn [andThen runTask]; try reflexivity.
  destruct (step w) as [r w1]. apply IH.
Qed.

Lemma run_orCatch {A} (t : Task A) (handler : Exn -> Task A) :
  forall w, runTask (orCatch t handler) w
            = match runTask t w with
              | (Returned a, w1) => (Returned a, w1)
              | (Thrown e, w1) => runTask (handler e) w1
              end.
Proof.
  induction t as [[a|e]|X step k' IH]; intros w; cbn [orCatch runTask]; try reflexivity.
  destruct (step w) as [r w1]. apply IH.
Qed.

Lemma runTask_wrapDatabaseOperationAsync {A} (t : Task A) (m : M A) (name : string) :
  (forall w, runTask t w = m w) ->
  forall w, runTask (wrapDatabaseOperationAsync t name) w = wrapDatabaseOperation m name w.
Proof.
  intros H w. unfold wrapDatabaseOperationAsync, wrapDatabaseOperation, tryCatch.
  rewrite run_orCatch, H. destruct (m w) as [[a|e] w1]; [reflexivity|].
  rewrite run_andThen, run_pending. reflexivity.
Qed.

Lemma runTask_createRssArticleAsync (data : ArticleCreateData) (w : World) :
  runTask (createRssArticleAsync data) w = createRssArticle data w.
Proof.
  unfold createRssArticleAsync, createRssArticle.
  apply runTask_wrapDatabaseOperationAsync. clear w. intros w.
  rewrite run_andThen, run_pending, run_bind.
  destruct (toObjectId (feedId data) w) as [[o|e] w1]; [|reflexivity].
  rewrite run_andThen, run_pending, run_bind.
  destruct (articles_findOne_guid (guid data) w1) as [[[ex|]|e] w2]; [| |reflexivity].
  - cbv zeta. destruct (negb (includes (map fromObjectId (sourcesOf ex)) (feedId data))).
    + rewrite run_andThen, run_pending, run_bind.
      destruct (articles_findOneAndUpdate_addToSet (guid data) o w2) as [[[r|]|e] w3];
        reflexivity.
    + rewrite run_andThen, run_pending, run_bind.
      destruct (articles_findOne_guid (guid data) w2) as [[[r|]|e] w3]; reflexivity.
  - rewrite run_andThen, run_pending, run_bind.
    destruct (newDate w2) as [[now|e] w3]; [|reflexivity].
    rewrite run_andThen, run_pending, run_bind.
    destruct (articles_insertOne _ w3) as [[i|e] w4]; [|reflexivity].
    rewrite run_andThen, run_pending, run_bind.
    destruct (articles_findOne_id i w4) as [[[r|]|e] w5]; reflexivity.
Qed.

Lemma runTask_tallyArticleAsync (article : ArticleCreateData) (results : BulkOperationResult)
      (w : World) :
  runTask (tallyArticleAsync article results) w = tallyArticle article results w.
Proof.
  unfold tallyArticleAsync, tallyArticle, tryCatch.
  rewrite run_orCatch, run_andThen, runTask_createRssArticleAsync, run_bind.
  destruct (createRssArticle article w) as [[a|e] w1]; [reflexivity|].
  destruct (isDuplicateKey e); [reflexivity|].
  rewrite run_andThen, run_pending. reflexivity.
Qed.

Lemma runTask_bulkLoopAsync (articles : list ArticleCreateData) :
  forall results w, runTask (bulkLoopAsync articles results) w = bulkLoop articles results w.
Proof.
  induction articles as [|article rest IH]; intros results w; [reflexivity|].
  cbn [bulkLoopAsync bulkLoop]. rewrite run_andThen, runTask_tallyArticleAsync, run_bind.
  destruct (tallyArticle article results w) as [[r|e] w1]; [apply IH|reflexivity].
Qed.

Lemma runTask_updateFeedLastFetchedAsync (id : string) (w : World) :
  runTask (updateFeedLastFetchedAsync id) w = updateFeedLastFetched id w.
Proof.
  unfold updateFeedLastFetchedAsync, updateFeedLastFetched.
  apply runTask_wrapDatabaseOperationAsync. clear w. intros w.
  rewrite run_andThen, run_pending, run_bind.
  destruct (toObjectId id w) as [[o|e] w1]; [|reflexivity].
  rewrite run_andThen, run_pending, run_bind.
  destruct (newDate w1) as [[now|e] w2]; [|reflexivity].
  rewrite run_andThen, run_pending, run_bind.
  destruct (feeds_findOneAndUpdate_lastFetched o now w2) as [[[r|]|e] w3]; reflexivity.
Qed.

(** Run to its end with nothing in between, the promise of a refresh is
    the action [fetchAndStoreFeed]. *)
Lemma runTask_fetchAndStoreFeedAsync (id : string) (w : World) :
  runTask (fetchAndStoreFeedAsync id) w = fetchAndStoreFeed id w.
Proof.
  unfold fetchAndStoreFeedAsync, fetchAndStoreFeed.
  apply runTask_wrapDatabaseOperationAsync. clear w. intros w.
  rewrite run_andThen, run_pending, run_bind.
  destruct (toObjectId id w) as [[o|e] w1]; [|reflexivity].
  rewrite run_andThen, run_pending, run_bind.
  destruct (feeds_findOne_id o w1) as [[[f|]|e] w2]; [| |reflexivity]; [|reflexivity].
  destruct (fetchAndParseFeed (fd_url f) id) as [e|[metadata articles]]; [reflexivity|].
  cbv zeta. rewrite run_andThen, run_bind. unfold bulkCreateRssArticlesAsync.
  rewrite runTask_bulkLoopAsync. fold (bulkCreateRssArticles (map (toCreateData id) articles)).
  destruct (bulkCreateRssArticles (map (toCreateData id) articles) w2) as [[r|e] w3];
    [|reflexivity].
  rewrite run_andThen, runTask_updateFeedLastFetchedAsync, run_bind.
  destruct (updateFeedLastFetched id w3) as [[g|e] w4]; reflexivity.
Qed.

(** *** Promises that run at the same time *)

Lemma always_later (R : World -> World -> Prop) (P : World -> Prop) (w w' : World) :
  preorder R -> always R P w -> R w w' -> always R P w'.
Proof. intros [_ Htrans] H Hw w'' Hw''. apply H. exact (Htrans _ _ _ Hw Hw''). Qed.

Lemma always_now (R : World -> World -> Prop) (P : World -> Prop) (w : World) :
  preorder R -> always R P w -> P w.
Proof. intros [Hrefl _] H. apply H, Hrefl. Qed.

Lemma guarantees_later {A} (R : World -> World -> Prop) (Q : Outcome A -> World -> Prop)
      (t : Task A) (w0 w1 : World) :
  preorder R -> guarantees R Q t w0 -> R w0 w1 -> guarantees R Q t w1.
Proof.
  intros [_ Htrans]. destruct t as [r|X step k]; cbn [guarantees]; unfold always;
    intros H H01 w Hw; apply H; exact (Htrans _ _ _ H01 Hw).
Qed.

Lemma guarantees_andThen {A B} (R : World -> World -> Prop)
      (Q1 : Outcome A -> World -> Prop) (Q : Outcome B -> World -> Prop)
      (k : A -> Task B) (t : Task A) :
  preorder R ->
  forall w0,
    guarantees R Q1 t w0 ->
    (forall a w, R w0 w -> always R (Q1 (Returned a)) w -> guarantees R Q (k a) w) ->
    (forall e w, R w0 w -> always R (Q1 (Thrown e)) w -> always R (Q (Thrown e)) w) ->
    guarantees R Q (andThen t k) w0.
Proof.
  intros [Hrefl Htrans].
  induction t as [[a|e]|X step k' IH]; intros w0 H Hk He; cbn [andThen].
  - apply Hk; [apply Hrefl|exact H].
  - cbn [guarantees]. apply He; [apply Hrefl|exact H].
  - cbn [guarantees]. intros w Hw. destruct (H w Hw) as [Hstep Hcont].
    split; [exact Hstep|]. apply IH; [exact Hcont| |].
    + intros a w' Hw'. apply Hk. exact (Htrans _ _ _ (Htrans _ _ _ Hw Hstep) Hw').
    + intros e w' Hw'. apply He. exact (Htrans _ _ _ (Htrans _ _ _ Hw Hstep) Hw').
Qed.

Lemma guarantees_orCatch {A} (R : World -> World -> Prop)
      (Q1 Q : Outcome A -> World -> Prop) (handler : Exn -> Task A) (t : Task A) :
  preorder R ->
  forall w0,
    guarantees R Q1 t w0 ->
    (forall e w, R w0 w -> always R (Q1 (Thrown e)) w -> guarantees R Q (handler e) w) ->
    (forall a w, R w0 w -> always R (Q1 (Returned a)) w -> always R (Q (Returned a)) w) ->
    guarantees R Q (orCatch t handler) w0.
Proof.
  intros [Hrefl Htrans].
  induction t as [[a|e]|X step k' IH]; intros w0 H Hh Ha; cbn [orCatch].
  - cbn [guarantees]. apply Ha; [apply Hrefl|exact H].
  - apply Hh; [apply Hrefl|exact H].
  - cbn [guarantees]. intros w Hw. destruct (H w Hw) as [Hstep Hcont].
    split; [exact Hstep|]. apply IH; [exact Hcont| |].
    + intros e w' Hw'. apply Hh. exact (Htrans _ _ _ (Htrans _ _ _ Hw Hstep) Hw').
    + intros a w' Hw'. apply Ha. exact (Htrans _ _ _ (Htrans _ _ _ Hw Hstep) Hw').
Qed.

Lemma guarantees_weaken {A} (R : World -> World -> Prop)
      (Q Q' : Outcome A -> World -> Prop) (t : Task A) :
  (forall r w, Q r w -> Q' r w) ->
  forall w0, guarantees R Q t w0 -> guarantees R Q' t w0.
Proof.
  intros HQ. induction t as [r|X step k IH]; intros w0 H; cbn [guarantees] in *.
  - intros w Hw. apply HQ, H, Hw.
  - intros w Hw. destruct (H w Hw) as [Hstep Hcont]. split; [exact Hstep|]. now apply IH.
Qed.

Lemma guarantees_and_always {A} (R : World -> World -> Prop)
      (Q : Outcome A -> World -> Prop) (P : World -> Prop) (t : Task A) :
  preorder R ->
  forall w0, guarantees R Q t w0 -> always R P w0 ->
             guarantees R (fun r w => Q r w /\ P w) t w0.
Proof.
  intros HR. induction t as [r|X step k IH]; intros w0 H HP; cbn [guarantees] in *.
  - intros w Hw. split; [apply H, Hw|apply HP, Hw].
  - intros w Hw. destruct (H w Hw) as [Hstep Hcont]. split; [exact Hstep|].
    apply IH; [exact Hcont|].
    apply (always_later R P w _ HR); [|exact Hstep]. exact (always_later R P w0 w HR HP Hw).
Qed.

Lemma runTask_guarantees {A} (R : World -> World -> Prop) (Q : Outcome A -> World -> Prop)
      (t : Task A) :
  preorder R ->
  forall w, guarantees R Q t w ->
            R w (snd (runTask t w)) /\ always R (Q (fst (runTask t w))) (snd (runTask t w)).
Proof.
  intros [Hrefl Htrans]. induction t as [r|X step k IH]; intros w H; cbn [runTask].
  - split; [apply Hrefl|exact H].
  - destruct (H w (Hrefl w)) as [Hstep Hcont]. destruct (step w) as [r w1].
    cbn [fst snd] in *. destruct (IH r w1 Hcont) as [H1 H2].
    split; [exact (Htrans _ _ _ Hstep H1)|exact H2].
Qed.

Lemma advanceNth_guarantees {A I} (R : World -> World -> Prop)
      (Q : I -> Outcome A -> World -> Prop) (ids : list I) (tasks : list (Task A))
      (w : World) :
  preorder R ->
  Forall2 (fun i t => guarantees R (Q i) t w) ids tasks ->
  forall turn,
    R w (snd (advanceNth turn tasks w))
    /\ Forall2 (fun i t => guarantees R (Q i) t (snd (advanceNth turn tasks w)))
               ids (fst (advanceNth turn tasks w)).
Proof.
  intros HR H. pose proof HR as [Hrefl Htrans].
  induction H as [|i t ids tasks Ht Hrest IH]; intros turn.
  - split; [apply Hrefl|constructor].
  - cbn [advanceNth]. destruct turn as [|n].
    + destruct t as [r|X step k]; cbn [advance].
      * cbn [fst snd]. split; [apply Hrefl|]. constructor; assumption.
      * destruct (Ht w (Hrefl w)) as [Hstep Hcont]. destruct (step w) as [r w1].
        cbn [fst snd] in *. split; [exact Hstep|]. constructor; [exact Hcont|].
        eapply Forall2_impl; [|exact Hrest]. intros j t' Hj.
        exact (guarantees_later R (Q j) t' w w1 HR Hj Hstep).
    + specialize (IH n). destruct (advanceNth n tasks w) as [rest' w1].
      cbn [fst snd] in *. destruct IH as [Hw1 Hall]. split; [exact Hw1|].
      constructor; [|exact Hall]. exact (guarantees_later R (Q i) t w w1 HR Ht Hw1).
Qed.

Lemma finish_guarantees {A I} (R : World -> World -> Prop)
      (Q : I -> Outcome A -> World -> Prop) (ids : list I) (tasks : list (Task A)) :
  preorder R ->
  forall w,
    Forall2 (fun i t => guarantees R (Q i) t w) ids tasks ->
    exists results w',
      finish tasks w = (Returned results, w')
      /\ R w w'
      /\ Forall2 (fun i r => exists o, r = settle o /\ Q i o w') ids results.
Proof.
  intros HR. pose proof HR as [Hrefl Htrans]. revert ids.
  induction tasks as [|t rest IH]; intros ids w H; inversion H as [|i ? ids' ? Ht Hrest]; subst.
  - exists [], w. split; [reflexivity|]. split; [apply Hrefl|constructor].
  - cbn [finish]. destruct (runTask_guarantees R (Q i) t HR w Ht) as [Hw1 Hq].
    destruct (runTask t w) as [r w1]. cbn [fst snd] in *.
    assert (Hrest1 : Forall2 (fun j t' => guarantees R (Q j) t' w1) ids' rest).
    { eapply Forall2_impl; [|exact Hrest]. intros j t' Hj.
      exact (guarantees_later R (Q j) t' w w1 HR Hj Hw1). }
    destruct (IH ids' w1 Hrest1) as (rs & w' & Hrun & Hw' & Hall).
    exists (settle r :: rs), w'. rewrite run_bind, Hrun.
    split; [reflexivity|]. split; [exact (Htrans _ _ _ Hw1 Hw')|].
    constructor; [|exact Hall]. exists r. split; [reflexivity|]. apply Hq, Hw'.
Qed.

(** However the promises are resumed: if every promise keeps the world
    moving along [R] and settles as its [Q] says while the world moves
    along [R], then [Promise.allSettled] reports for every promise an
    outcome of which its [Q] holds when the last one has settled. *)
Lemma allSettled_guarantees {A I} (R : World -> World -> Prop)
      (Q : I -> Outcome A -> World -> Prop) (turns : list nat) :
  preorder R ->
  forall (ids : list I) (tasks : list (Task A)) (w : World),
    Forall2 (fun i t => guarantees R (Q i) t w) ids tasks ->
    exists results w',
      allSettled turns tasks w = (Returned results, w')
      /\ R w w'
      /\ Forall2 (fun i r => exists o, r = settle o /\ Q i o w') ids results.
Proof.
  intros HR. pose proof HR as [Hrefl Htrans].
  induction turns as [|turn later IH]; intros ids tasks w H.
  - now apply finish_guarantees.
  - cbn [allSettled].
    destruct (advanceNth_guarantees R Q ids tasks w HR H turn) as [Hw1 Hall].
    destruct (advanceNth turn tasks w) as [tasks' w1]. cbn [fst snd] in *.
    destruct (IH ids tasks' w1 Hall) as (results & w' & Hrun & Hw' & Hres).
    exists results, w'. split; [exact Hrun|]. split; [exact (Htrans _ _ _ Hw1 Hw')|exact Hres].
Qed.

(** *** The world while refreshes run *)

Lemma refreshedOrSame_refl (now : Z) (feeds : list RssFeed) :
  Forall2 (refreshedOrSame now) feeds feeds.
Proof. induction feeds; constructor; [now left|assumption]. Qed.

Lemma refreshedOrSame_trans (now : Z) (l1 l2 : list RssFeed) :
  Forall2 (refreshedOrSame now) l1 l2 ->
  forall l3, Forall2 (refreshedOrSame now) l2 l3 -> Forall2 (refreshedOrSame now) l1 l3.
Proof.
  induction 1 as [|f f' l1 l2 Hf Hl IH]; intros l3 H3; inversion H3 as [|? f'' ? l3' Hf' Hl'];
    subst; constructor; [|now apply IH].
  destruct Hf as [Hf|Hf], Hf' as [Hf'|Hf']; subst; [now left|now right|now right|now right].
Qed.

Lemma evolves_preorder : preorder evolves.
Proof.
  split.
  - intros w Hq. split; [exact Hq|]. split; [reflexivity|].
    split; [apply refreshedOrSame_refl|]. intros a Ha. exists a. auto.
  - intros w1 w2 w3 H12 H23 Hq.
    destruct (H12 Hq) as (Hq2 & Hc2 & Hf2 & Ha2).
    destruct (H23 Hq2) as (Hq3 & Hc3 & Hf3 & Ha3).
    split; [exact Hq3|]. split; [congruence|]. split.
    + rewrite Hc2 in Hf3. exact (refreshedOrSame_trans _ _ _ Hf2 _ Hf3).
    + intros a Ha. destruct (Ha2 a Ha) as (a' & Ha' & Hid & Hg).
      destruct (Ha3 a' Ha') as (a'' & Ha'' & Hid' & Hg').
      exists a''. split; [exact Ha''|]. split; congruence.
Qed.

(** A world in which no write of another request is pending. *)
Lemma quiet_world (w : World) : others w = [] -> w = mkWorld (store w) [] (console w).
Proof. destruct w as [s ot c]. simpl. now intros ->. Qed.

Lemma dbCall_at_rest {A} (op : Store -> Outcome A * Store) (w : World) :
  others w = [] ->
  dbCall op w = (fst (op (store w)), mkWorld (snd (op (store w))) [] (console w)).
Proof. intros Hq. rewrite (quiet_world w Hq) at 1. apply dbCall_quiet. Qed.

Lemma evolves_same_store (w w' : World) :
  others w' = others w -> store w' = store w -> evolves w w'.
Proof.
  intros Ho Hs Hq. rewrite Ho, Hs. split; [exact Hq|]. split; [reflexivity|].
  split; [apply refreshedOrSame_refl|]. intros a Ha. exists a. auto.
Qed.

Lemma find_evolved (now : Z) (o : ObjectId) (l l' : list RssFeed) (f : RssFeed) :
  Forall2 (refreshedOrSame now) l l' ->
  find (feedIdIs o) l = Some f ->
  exists f', find (feedIdIs o) l' = Some f' /\ refreshedOrSame now f f'.
Proof.
  induction 1 as [|g g' l l' Hg Hl IH]; simpl; [discriminate|].
  assert (Hid : feedIdIs o g' = feedIdIs o g) by (destruct Hg as [Hg|Hg]; rewrite Hg; reflexivity).
  rewrite Hid. destruct (feedIdIs o g).
  - intros [= <-]. exists g'. split; [reflexivity|exact Hg].
  - exact IH.
Qed.

Lemma stored_later (g : string) (w : World) :
  others w = [] -> stored g w -> always evolves (stored g) w.
Proof.
  intros Hq Hs w' Hw'. destruct (Hw' Hq) as (_ & _ & _ & Ha).
  unfold stored in *. apply existsb_exists in Hs. destruct Hs as (a & Hin & Hga).
  destruct (Ha a Hin) as (a' & Hin' & _ & Hg'). apply existsb_exists.
  exists a'. split; [exact Hin'|]. unfold guidIs in *. now rewrite Hg'.
Qed.

Lemma updateFirst_keeps {A B} (key : A -> B) (p : A -> bool) (f : A -> A) (l : list A) :
  (forall x, key (f x) = key x) ->
  forall a, In a l -> exists a', In a' (snd (updateFirst p f l)) /\ key a' = key a.
Proof.
  intros Hkey. induction l as [|x l IH]; intros a Ha; [destruct Ha|].
  cbn [updateFirst]. destruct (p x).
  - destruct Ha as [->|Ha].
    + exists (f a). split; [now left|apply Hkey].
    + exists a. split; [now right|reflexivity].
  - destruct (updateFirst p f l) as [r l'] eqn:Hu. cbn [snd] in *.
    destruct Ha as [->|Ha].
    + exists a. split; [now left|reflexivity].
    + destruct (IH a Ha) as (a' & Ha' & Hk). exists a'. split; [now right|exact Hk].
Qed.

Lemma updateFirst_found {A} (p : A -> bool) (f : A -> A) (l : list A) :
  existsb p l = true -> exists r, fst (updateFirst p f l) = Some r.
Proof.
  induction l as [|x l IH]; simpl; [discriminate|]. destruct (p x); simpl.
  - intros _. eexists. reflexivity.
  - intros H. destruct (IH H) as [r Hr]. destruct (updateFirst p f l). simpl in *. eauto.
Qed.

Lemma find_found {A} (p : A -> bool) (l : list A) :
  existsb p l = true -> exists r, find p l = Some r.
Proof.
  induction l as [|x l IH]; simpl; [discriminate|]. destruct (p x); simpl; eauto.
Qed.

Lemma updateFirst_refreshes (now : Z) (o : ObjectId) (l : list RssFeed) :
  Forall2 (refreshedOrSame now) l
          (snd (updateFirst (feedIdIs o) (fun f => withLastFetched f now) l)).
Proof.
  induction l as [|x l IH]; cbn [updateFirst]; [constructor|]. destruct (feedIdIs o x).
  - cbn [snd]. constructor; [now right|apply refreshedOrSame_refl].
  - destruct (updateFirst _ _ l). cbn [snd] in *. constructor; [now left|exact IH].
Qed.


Lemma evolves_read (w : World) (c : list LogEntry) :
  others w = [] -> evolves w (mkWorld (store w) [] c).
Proof. intros Hq. apply evolves_same_store; [now rewrite Hq|reflexivity]. Qed.

Lemma evolves_articles (w : World) (l : list RssArticle) (n : nat) (c : list LogEntry) :
  (forall a, In a (rssArticles (store w)) ->
             exists a', In a' l /\ art_id a' = art_id a /\ art_guid a' = art_guid a) ->
  evolves w (mkWorld (mkStore (rssFeeds (store w)) l (clock (store w)) n) [] c).
Proof.
  intros Ha _. split; [reflexivity|]. split; [reflexivity|].
  split; [apply refreshedOrSame_refl|exact Ha].
Qed.

Lemma evolves_feeds (w : World) (l : list RssFeed) (c : list LogEntry) :
  Forall2 (refreshedOrSame (clock (store w))) (rssFeeds (store w)) l ->
  evolves w (mkWorld (setFeeds (store w) l) [] c).
Proof.
  intros Hf _. split; [reflexivity|]. split; [reflexivity|]. split; [exact Hf|].
  intros a Ha. exists a. auto.
Qed.

(** The rule for one awaited step followed by the rest of the promise. *)
Lemma guarantees_upon {X B} (R : World -> World -> Prop) (Q : Outcome B -> World -> Prop)
      (step : M X) (k : X -> Task B) (w0 : World) :
  (forall w, R w0 w ->
             R w (snd (step w))
             /\ match fst (step w) with
                | Returned x => guarantees R Q (k x) (snd (step w))
                | Thrown e => always R (Q (Thrown e)) (snd (step w))
                end) ->
  guarantees R Q (andThen (pending step) k) w0.
Proof.
  intros H. unfold pending. cbn [andThen guarantees]. intros w Hw.
  destruct (H w Hw) as [Hstep Hcont]. split; [exact Hstep|].
  destruct (fst (step w)) as [x|e]; exact Hcont.
Qed.

Ltac awaited w Hw Hq :=
  apply guarantees_upon; intros w Hw;
  pose proof (proj1 (Hw ltac:(assumption))) as Hq.

Lemma evolves_refl (w : World) : evolves w w.
Proof. apply (proj1 evolves_preorder). Qed.

Lemma evolves_trans (w1 w2 w3 : World) : evolves w1 w2 -> evolves w2 w3 -> evolves w1 w3.
Proof. apply (proj2 evolves_preorder). Qed.

Lemma found_exists {A} (p : A -> bool) (l : list A) (x : A) :
  find p l = Some x -> existsb p l = true.
Proof.
  intros H. apply find_some_holds in H. apply existsb_exists. exists x. tauto.
Qed.

Lemma stored_from (g : string) (w w' : World) :
  others w = [] -> stored g w -> evolves w w' -> always evolves (stored g) w'.
Proof.
  intros Hq Hs Hw. exact (always_later _ _ _ _ evolves_preorder (stored_later g w Hq Hs) Hw).
Qed.

Lemma evolves_log (w : World) (l : LogEntry) :
  evolves w (mkWorld (store w) (others w) (console w ++ [l])).
Proof. apply evolves_same_store; reflexivity. Qed.

Ltac evolved := eauto 7 using evolves_refl, evolves_trans, evolves_read.

(** [createRssArticle] among other refreshes: it returns or it loses the
    race for a new guid, and either way the guid is stored afterwards. *)
Lemma createRssArticleAsync_guarantees (data : ArticleCreateData) (o : ObjectId) (w0 : World) :
  others w0 = [] ->
  parseObjectId (feedId data) = Some o ->
  guarantees evolves
    (fun r w => ((exists a, r = Returned a) \/ r = Thrown (MongoServerError 11000))
                /\ stored (guid data) w)
    (createRssArticleAsync data) w0.
Proof.
  intros Hq0 Hp. pose proof evolves_preorder as HR.
  set (Qc := fun (r : Outcome RssArticle) (w : World) =>
               ((exists a, r = Returned a) \/ r = Thrown (MongoServerError 11000))
               /\ stored (guid data) w).
  unfold createRssArticleAsync, wrapDatabaseOperationAsync.
  apply (guarantees_orCatch evolves Qc Qc _ _ HR).
  - awaited w Hw Hq. rewrite run_toObjectId, Hp. cbn [fst snd].
    split; [apply evolves_refl|].
    awaited w1 Hw1 Hq1. unfold articles_findOne_guid. rewrite (dbCall_at_rest _ w1 Hq1).
    cbn [fst snd]. split; [now apply evolves_read|].
    set (w2 := mkWorld (store w1) [] (console w1)).
    assert (Hq2 : others w2 = []) by reflexivity.
    destruct (find (guidIs (guid data)) (rssArticles (store w1))) as [ex|] eqn:Hfind.
    + assert (Hstored : always evolves (stored (guid data)) w2).
      { apply stored_later; [exact Hq2|]. exact (found_exists _ _ _ Hfind). }
      cbv zeta. destruct (negb (includes (map fromObjectId (sourcesOf ex)) (feedId data))).
      * awaited w3 Hw3 Hq3. unfold articles_findOneAndUpdate_addToSet.
        rewrite (dbCall_at_rest _ w3 Hq3).
        pose proof (Hstored w3 Hw3) as Hs3. unfold stored in Hs3.
        destruct (updateFirst_found (guidIs (guid data))
                    (fun a => withSourceFeedIds a (addToSet o (art_sourceFeedIds a)))
                    (rssArticles (store w3)) Hs3) as [r Hr].
        pose proof (updateFirst_keeps (fun a => (art_id a, art_guid a)) (guidIs (guid data))
                      (fun a => withSourceFeedIds a (addToSet o (art_sourceFeedIds a)))
                      (rssArticles (store w3)) (fun x => eq_refl)) as Hkeep.
        destruct (updateFirst _ _ (rssArticles (store w3))) as [r' l'].
        cbn [fst snd] in *. subst r'.
        assert (Hstep : evolves w3 (mkWorld (setArticles (store w3) l') [] (console w3))).
        { apply evolves_articles. intros a Ha. destruct (Hkeep a Ha) as (a' & Ha' & Hk).
          exists a'. injection Hk as Hid Hg. auto. }
        split; [exact Hstep|]. cbn [resolve guarantees]. intros w4 Hw4. split.
        -- left. eauto.
        -- apply (Hstored w4). evolved.
      * awaited w3 Hw3 Hq3. unfold articles_findOne_guid. rewrite (dbCall_at_rest _ w3 Hq3).
        cbn [fst snd]. split; [now apply evolves_read|].
        pose proof (Hstored w3 Hw3) as Hs3. unfold stored in Hs3.
        destruct (find_found _ _ Hs3) as [r Hr]. rewrite Hr.
        cbn [resolve guarantees]. intros w4 Hw4. split; [left; eauto|].
        apply (Hstored w4). evolved.
    + awaited w3 Hw3 Hq3. unfold newDate. cbn [fst snd]. split; [apply evolves_refl|].
      awaited w4 Hw4 Hq4. unfold articles_insertOne. rewrite (dbCall_at_rest _ w4 Hq4).
      cbn [art_guid].
      destruct (existsb (guidIs (guid data)) (rssArticles (store w4))) eqn:Hdup;
        cbn [fst snd].
      * split; [now apply evolves_read|]. intros w5 Hw5. split; [now right|].
        apply (stored_later (guid data) w4 Hq4 Hdup). evolved.
      * set (d := mkArticle (nextId (store w4)) o (guid data) (Some [o]) (pubDate data)
                            (storedFields (fields data)) (clock (store w3))
                            (clock (store w3))).
        set (w5 := mkWorld (mkStore (rssFeeds (store w4)) (rssArticles (store w4) ++ [d])
                                    (clock (store w4)) (S (nextId (store w4))))
                           [] (console w4)).
        assert (Hstep : evolves w4 w5).
        { apply evolves_articles. intros a Ha. exists a. split; [|auto].
          apply in_or_app. now left. }
        split; [exact Hstep|].
        assert (Hq5 : others w5 = []) by reflexivity.
        assert (Hs5 : stored (guid data) w5).
        { unfold stored. cbn [w5 store rssArticles]. rewrite existsb_app. cbn [existsb].
          unfold guidIs at 2. cbn [d art_guid]. rewrite String.eqb_refl.
          now rewrite !orb_true_r. }
        awaited w6 Hw6 Hq6. unfold articles_findOne_id. rewrite (dbCall_at_rest _ w6 Hq6).
        cbn [fst snd]. split; [now apply evolves_read|].
        assert (Hid : existsb (fun a => Nat.eqb (art_id a) (nextId (store w4)))
                              (rssArticles (store w6)) = true).
        { destruct (Hw6 Hq5) as (_ & _ & _ & Hkeep).
          destruct (Hkeep d) as (a' & Ha' & Hid' & _).
          { cbn [w5 store rssArticles]. apply in_or_app. right. now left. }
          apply existsb_exists. exists a'. split; [exact Ha'|].
          rewrite Hid'. cbn [d art_id]. apply Nat.eqb_refl. }
        destruct (find_found _ _ Hid) as [r Hr]. rewrite Hr.
        cbn [resolve guarantees]. intros w7 Hw7. split; [left; eauto|].
        apply (stored_later (guid data) w5 Hq5 Hs5). evolved.
  - intros e w Hw Hall. pose proof (proj1 (Hw Hq0)) as Hq.
    awaited w1 Hw1 Hq1. unfold emit. cbn [fst snd].
    split; [apply evolves_log|].
    cbn [reject guarantees]. intros w2 Hw2. apply Hall.
    exact (evolves_trans _ _ _ Hw1 (evolves_trans _ _ _ (evolves_log w1 _) Hw2)).
  - intros a w _ H. exact H.
Qed.

Lemma tallyArticleAsync_guarantees (article : ArticleCreateData) (o : ObjectId)
      (nc ns : nat) (w0 : World) :
  others w0 = [] ->
  parseObjectId (feedId article) = Some o ->
  guarantees evolves
    (fun r w => (r = Returned (mkBulk (S nc) ns 0) \/ r = Returned (mkBulk nc (S ns) 0))
                /\ stored (guid article) w)
    (tallyArticleAsync article (mkBulk nc ns 0)) w0.
Proof.
  intros Hq0 Hp. pose proof evolves_preorder as HR.
  set (Qin := fun (r : Outcome BulkOperationResult) (w : World) =>
                (r = Returned (mkBulk (S nc) ns 0) \/ r = Thrown (MongoServerError 11000))
                /\ stored (guid article) w).
  unfold tallyArticleAsync. cbn [created skipped errors].
  apply (guarantees_orCatch evolves Qin _ _ _ HR).
  - apply (guarantees_andThen evolves _ Qin _ _ HR w0
             (createRssArticleAsync_guarantees article o w0 Hq0 Hp)).
    + intros a w Hw Hall. cbn [resolve guarantees]. intros w1 Hw1.
      destruct (Hall w1 Hw1) as [_ Hs]. split; [now left|exact Hs].
    + intros e w Hw Hall w1 Hw1. destruct (Hall w1 Hw1) as [[[a Ha]|He] Hs]; [discriminate|].
      injection He as ->. split; [now right|exact Hs].
  - intros e w Hw Hall. destruct (always_now _ _ _ HR Hall) as [[Hr|He] _]; [discriminate|].
    injection He as ->. cbn [isDuplicateKey Z.eqb Pos.eqb resolve guarantees].
    intros w1 Hw1. split; [now right|]. apply (Hall w1 Hw1).
  - intros a w Hw Hall w1 Hw1. destruct (Hall w1 Hw1) as [[Hr|Hr] Hs]; [|discriminate].
    split; [now left|exact Hs].
Qed.

(** [bulkCreateRssArticles] among other refreshes: every article is
    counted as created or as skipped, and every guid is stored
    afterwards. *)
Lemma bulkLoopAsync_guarantees (o : ObjectId) (articles : list ArticleCreateData) :
  Forall (fun a => parseObjectId (feedId a) = Some o) articles ->
  forall (nc ns : nat) (w0 : World),
    others w0 = [] ->
    guarantees evolves
      (fun r w => (exists nc' ns', r = Returned (mkBulk nc' ns' 0)
                                   /\ nc' + ns' = nc + ns + List.length articles)
                  /\ forall a, In a articles -> stored (guid a) w)
      (bulkLoopAsync articles (mkBulk nc ns 0)) w0.
Proof.
  pose proof evolves_preorder as HR.
  intros Hall. induction Hall as [|article rest Hp Hrest IH]; intros nc ns w0 Hq0.
  - cbn [bulkLoopAsync resolve guarantees]. intros w Hw. split; [|intros a []].
    exists nc, ns. split; [reflexivity|simpl; lia].
  - cbn [bulkLoopAsync].
    apply (guarantees_andThen evolves _ _ _ _ HR w0
             (tallyArticleAsync_guarantees article o nc ns w0 Hq0 Hp)).
    + intros results' w Hw Hall'. pose proof (proj1 (Hw Hq0)) as Hq.
      destruct (always_now _ _ _ HR Hall') as [Hr _].
      assert (Hst : always evolves (stored (guid article)) w).
      { intros w1 Hw1. apply (Hall' w1 Hw1). }
      destruct Hr as [Hr|Hr]; injection Hr as ->.
      * eapply guarantees_weaken;
          [|exact (guarantees_and_always evolves _ _ _ HR w (IH (S nc) ns w Hq) Hst)].
        cbn beta. intros r w1 [[(nc' & ns' & Hr' & Hsum) Hin] Hs1]. split.
        -- exists nc', ns'. split; [exact Hr'|simpl; lia].
        -- intros a [<-|Ha]; auto.
      * eapply guarantees_weaken;
          [|exact (guarantees_and_always evolves _ _ _ HR w (IH nc (S ns) w Hq) Hst)].
        cbn beta. intros r w1 [[(nc' & ns' & Hr' & Hsum) Hin] Hs1]. split.
        -- exists nc', ns'. split; [exact Hr'|simpl; lia].
        -- intros a [<-|Ha]; auto.
    + intros e w Hw Hall' w1 Hw1. destruct (Hall' w1 Hw1) as [[H|H] _]; discriminate.
Qed.

Lemma refreshed_later (now : Z) (o : ObjectId) (w : World) :
  others w = [] ->
  clock (store w) = now ->
  (exists f, find (feedIdIs o) (rssFeeds (store w)) = Some f /\ fd_lastFetched f = Some now) ->
  always evolves
         (fun w' => exists f, find (feedIdIs o) (rssFeeds (store w')) = Some f
                              /\ fd_lastFetched f = Some now) w.
Proof.
  intros Hq Hc (f & Hf & Hl) w' Hw'. destruct (Hw' Hq) as (_ & _ & Hfeeds & _).
  rewrite Hc in Hfeeds. destruct (find_evolved now o _ _ f Hfeeds Hf) as (f' & Hf' & Hrel).
  exists f'. split; [exact Hf'|]. destruct Hrel as [->| ->]; [exact Hl|reflexivity].
Qed.

(** [updateFeedLastFetched] among other refreshes. *)
Lemma updateFeedLastFetchedAsync_guarantees (id : string) (o : ObjectId) (f : RssFeed)
      (w0 : World) :
  others w0 = [] ->
  parseObjectId id = Some o ->
  find (feedIdIs o) (rssFeeds (store w0)) = Some f ->
  guarantees evolves
    (fun r w => (exists g, r = Returned g)
                /\ exists f', find (feedIdIs o) (rssFeeds (store w)) = Some f'
                              /\ fd_lastFetched f' = Some (clock (store w0)))
    (updateFeedLastFetchedAsync id) w0.
Proof.
  intros Hq0 Hp Hfind. pose proof evolves_preorder as HR.
  set (Qu := fun (r : Outcome RssFeed) (w : World) =>
               (exists g, r = Returned g)
               /\ exists f', find (feedIdIs o) (rssFeeds (store w)) = Some f'
                             /\ fd_lastFetched f' = Some (clock (store w0))).
  unfold updateFeedLastFetchedAsync, wrapDatabaseOperationAsync.
  apply (guarantees_orCatch evolves Qu Qu _ _ HR).
  - awaited w Hw Hq. rewrite run_toObjectId, Hp. cbn [fst snd].
    split; [apply evolves_refl|].
    awaited w1 Hw1 Hq1. unfold newDate. cbn [fst snd]. split; [apply evolves_refl|].
    awaited w2 Hw2 Hq2. unfold feeds_findOneAndUpdate_lastFetched.
    rewrite (dbCall_at_rest _ w2 Hq2).
    assert (Hev1 : evolves w0 w1) by evolved.
    assert (Hev2 : evolves w0 w2) by evolved.
    destruct (Hev1 Hq0) as (_ & Hc1 & _ & _).
    destruct (Hev2 Hq0) as (_ & Hc2 & Hf2 & _).
    destruct (find_evolved _ o _ _ f Hf2 Hfind) as (f2 & Hfind2 & _).
    rewrite Hc1.
    pose proof (find_updateFirst (feedIdIs o)
                  (fun g => withLastFetched g (clock (store w0))) _ f2 Hfind2) as Hres.
    pose proof (find_updateFirst_snd (feedIdIs o)
                  (fun g => withLastFetched g (clock (store w0))) _ f2 Hfind2) as Hafter.
    pose proof (updateFirst_refreshes (clock (store w0)) o (rssFeeds (store w2))) as Hrefr.
    destruct (updateFirst _ _ (rssFeeds (store w2))) as [r l'].
    cbn [fst snd] in *. subst r.
    set (w3 := mkWorld (setFeeds (store w2) l') [] (console w2)).
    assert (Hstep : evolves w2 w3).
    { apply evolves_feeds. now rewrite Hc2. }
    split; [exact Hstep|]. cbn [resolve guarantees].
    assert (Hlast : always evolves
                      (fun w' => exists f', find (feedIdIs o) (rssFeeds (store w')) = Some f'
                                            /\ fd_lastFetched f' = Some (clock (store w0)))
                      w3).
    { apply refreshed_later; [reflexivity|exact Hc2|].
      exists (withLastFetched f2 (clock (store w0))). split; [|reflexivity].
      apply Hafter. apply find_some_holds in Hfind2. exact (proj1 Hfind2). }
    intros w4 Hw4. split; [eauto|]. exact (Hlast w4 Hw4).
  - intros e w Hw Hall. pose proof (proj1 (Hw Hq0)) as Hq.
    awaited w1 Hw1 Hq1. unfold emit. cbn [fst snd]. split; [apply evolves_log|].
    cbn [reject guarantees]. intros w2 Hw2. apply Hall.
    exact (evolves_trans _ _ _ Hw1 (evolves_trans _ _ _ (evolves_log w1 _) Hw2)).
  - intros a w _ H. exact H.
Qed.

(** The refresh of a stored feed among other refreshes settles on its
    own: how it ends depends on the fetch of its own url alone. *)
Lemma fetchAndStoreFeedAsync_guarantees (id : string) (f : RssFeed) (w0 : World) :
  others w0 = [] ->
  parseObjectId id = Some (fd_id f) ->
  find (feedIdIs (fd_id f)) (rssFeeds (store w0)) = Some f ->
  guarantees evolves (settlesOnItsOwn id f (clock (store w0))) (fetchAndStoreFeedAsync id) w0.
Proof.
  intros Hq0 Hp Hfind. pose proof evolves_preorder as HR.
  unfold fetchAndStoreFeedAsync, wrapDatabaseOperationAsync.
  apply (guarantees_orCatch evolves (settlesOnItsOwn id f (clock (store w0)))
                            (settlesOnItsOwn id f (clock (store w0))) _ _ HR).
  - awaited w Hw Hq. rewrite run_toObjectId, Hp. cbn [fst snd].
    split; [apply evolves_refl|].
    awaited w1 Hw1 Hq1. unfold feeds_findOne_id. rewrite (dbCall_at_rest _ w1 Hq1).
    cbn [fst snd]. split; [now apply evolves_read|].
    set (w2 := mkWorld (store w1) [] (console w1)).
    assert (Hq2 : others w2 = []) by reflexivity.
    assert (Hev2 : evolves w0 w2) by (unfold w2; evolved).
    assert (Hev1 : evolves w0 w1) by evolved.
    destruct (Hev1 Hq0) as (_ & Hc1 & Hf1 & _).
    destruct (find_evolved _ _ _ _ f Hf1 Hfind) as (f1 & Hfind1 & Hrel). rewrite Hfind1.
    assert (Hurl : fd_url f1 = fd_url f) by (destruct Hrel as [Hrel|Hrel]; now rewrite Hrel).
    rewrite Hurl.
    destruct (fetchAndParseFeed (fd_url f) id) as [e|[metadata articles]] eqn:Hfetch.
    + cbn [reject guarantees]. intros w3 Hw3. unfold settlesOnItsOwn. now rewrite Hfetch.
    + cbv zeta. unfold bulkCreateRssArticlesAsync.
      assert (Hids : Forall (fun a => parseObjectId (feedId a) = Some (fd_id f))
                            (map (toCreateData id) articles)).
      { apply Forall_forall. intros a Ha. apply in_map_iff in Ha.
        destruct Ha as (x & <- & _). exact Hp. }
      apply (guarantees_andThen evolves _ _ _ _ HR w2
               (bulkLoopAsync_guarantees (fd_id f) _ Hids 0 0 w2 Hq2)).
      * intros result w3 Hw3 Hall3. pose proof (proj1 (Hw3 Hq2)) as Hq3.
        destruct (always_now _ _ _ HR Hall3) as [(nc & ns & Hr & Hsum) _].
        injection Hr as ->. cbn [created skipped errors].
        assert (Hev3 : evolves w0 w3) by evolved.
        destruct (Hev3 Hq0) as (_ & Hc3 & Hf3 & _).
        destruct (find_evolved _ _ _ _ f Hf3 Hfind) as (f3 & Hfind3 & _).
        apply (guarantees_andThen evolves _ _ _ _ HR w3
                 (updateFeedLastFetchedAsync_guarantees id (fd_id f) f3 w3 Hq3 Hp Hfind3)).
        -- intros g w4 Hw4 Hall4. cbn [resolve guarantees]. intros w5 Hw5.
           unfold settlesOnItsOwn. rewrite Hfetch. split; [|split].
           ++ exists nc, ns. split; [reflexivity|]. rewrite length_map in Hsum. exact Hsum.
           ++ destruct (Hall4 w5 Hw5) as [_ Hlast]. rewrite Hc3 in Hlast. exact Hlast.
           ++ intros a Ha. destruct (Hall3 w5 (evolves_trans _ _ _ Hw4 Hw5)) as [_ Hst].
              apply (Hst (toCreateData id a)). now apply in_map.
        -- intros e w4 Hw4 Hall4 w5 Hw5. destruct (Hall4 w5 Hw5) as [[g Hg] _]. discriminate.
      * intros e w3 Hw3 Hall3 w4 Hw4.
        destruct (Hall3 w4 Hw4) as [(nc & ns & Hr & _) _]. discriminate.
  - intros e w Hw Hall. pose proof (proj1 (Hw Hq0)) as Hq.
    awaited w1 Hw1 Hq1. unfold emit. cbn [fst snd]. split; [apply evolves_log|].
    cbn [reject guarantees]. intros w2 Hw2. apply Hall.
    exact (evolves_trans _ _ _ Hw1 (evolves_trans _ _ _ (evolves_log w1 _) Hw2)).
  - intros a w _ H. exact H.
Qed.

Lemma getFeedsToRefresh_parses (ids stale : list string) (w w1 : World) :
  getFeedsToRefresh ids w = (Returned stale, w1) -> exists oids, parseAll ids = Some oids.
Proof.
  intros Hg. destruct (parseAll ids) as [oids|] eqn:Hp; [eauto|]. exfalso.
  unfold getFeedsToRefresh in Hg. rewrite run_bind in Hg. unfold newDate at 1 in Hg.
  rewrite run_bind in Hg. pose proof (mapM_toObjectId ids w) as Hids.
  rewrite Hp in Hids. destruct Hids as [bad Hbad]. rewrite Hbad in Hg. discriminate.
Qed.

Lemma stale_feeds_are_stored (ids stale : list string) (w w1 : World) :
  others w = [] ->
  getFeedsToRefresh ids w = (Returned stale, w1) ->
  w1 = mkWorld (store w) [] (console w)
  /\ Forall (fun id => exists f, In f (rssFeeds (store w)) /\ fd_id f = id) stale.
Proof.
  intros Hq Hg. destruct (getFeedsToRefresh_parses _ _ _ _ Hg) as [oids Hp].
  rewrite (quiet_world w Hq) in Hg.
  rewrite (run_getFeedsToRefresh_quiet ids oids _ _ Hp) in Hg. injection Hg as <- <-.
  split; [reflexivity|]. apply Forall_forall. intros id Hid. apply in_map_iff in Hid.
  destruct Hid as (f & <- & Hf). apply filter_In in Hf. destruct Hf as [Hf _].
  apply filter_In in Hf. destruct Hf as [Hf _]. exists f. split; [exact Hf|reflexivity].
Qed.

Lemma refreshes_settle_on_their_own (stale : list string) (w : World) :
  others w = [] ->
  (forall f, In f (rssFeeds (store w)) -> parseObjectId (fd_id f) = Some (fd_id f)) ->
  Forall (fun id => exists f, In f (rssFeeds (store w)) /\ fd_id f = id) stale ->
  Forall2 (fun id t =>
             guarantees evolves
               (fun o w' => exists f, find (feedIdIs id) (rssFeeds (store w)) = Some f
                                      /\ settlesOnItsOwn id f (clock (store w)) o w')
               t w)
          stale (map fetchAndStoreFeedAsync stale).
Proof.
  intros Hq Hcanon Hstale. induction Hstale as [|id rest (f0 & Hin0 & Hid0) Hrest IH];
    cbn [map]; constructor; [|exact IH].
  assert (Hex : existsb (feedIdIs id) (rssFeeds (store w)) = true).
  { apply existsb_exists. exists f0. split; [exact Hin0|].
    unfold feedIdIs. rewrite Hid0. apply String.eqb_refl. }
  destruct (find_found _ _ Hex) as [f Hfind].
  destruct (find_some_holds _ _ _ Hfind) as [Hidf Hinf].
  apply String.eqb_eq in Hidf.
  assert (Hp : parseObjectId id = Some (fd_id f)).
  { rewrite <- Hidf at 1. now apply Hcanon. }
  pose proof Hfind as Hfind'. rewrite <- Hidf in Hfind'.
  eapply guarantees_weaken;
    [|exact (fetchAndStoreFeedAsync_guarantees id f w Hq Hp Hfind')].
  cbn beta. intros o w' Hsettled. exists f. split; assumption.
Qed.

(** C4.  When [getFeedsToRefresh] reports a non-empty list of stale feeds,
    the refresh of every one of them is started, and in whatever order
    the runtime resumes them: no rejection leaves [Promise.allSettled];
    it reports on every stale feed; the refresh logs the number of
    fulfilled and the number of rejected refreshes, which add up to the
    number of stale feeds, and returns; and what
    [prepareFeedsAndArticles] returns or throws is what the article query
    returns or throws afterwards.  When moreover no other request writes
    in between and the stored feed ids print in canonical form, the
    failure of one refresh changes nothing for the others: each stale
    feed's refresh is rejected exactly when the fetch of its own url
    fails, and is otherwise fulfilled with every fetched article counted
    as created or skipped, the feed's [lastFetched] set to the current
    date and every fetched guid in the collection. *)
Theorem prepareFeedsAndArticles_tolerates_failed_refreshes
        (params : PrepareFeedsParams) (w w1 : World) (stale : list string) :
  getFeedsToRefresh (feedIds params) w = (Returned stale, w1) ->
  stale <> [] ->
  let w2 := after (emit (LogRefreshing (List.length stale) (List.length (feedIds params)))) w1 in
  exists results w3,
    let summary := LogRefreshComplete (count isFulfilled results) (count isRejected results) in
    allSettled schedule (map fetchAndStoreFeedAsync stale) w2 = (Returned results, w3)
    /\ List.length results = List.length stale
    /\ count isFulfilled results + count isRejected results = List.length stale
    /\ refreshStaleFeeds params w = (Returned tt, after (emit summary) w3)
    /\ console (after (emit summary) w3) = console w3 ++ [summary]
    /\ prepareFeedsAndArticles params w = queryArticles params (after (emit summary) w3)
    /\ (others w = [] ->
        (forall f, In f (rssFeeds (store w)) -> parseObjectId (fd_id f) = Some (fd_id f)) ->
        Forall2 (fun id r =>
                   exists f o,
                     find (feedIdIs id) (rssFeeds (store w)) = Some f
                     /\ r = settle o
                     /\ settlesOnItsOwn id f (clock (store w)) o w3)
                stale results).
Proof.
  intros Hg Hne w2.
  destruct (refreshStaleFeeds_run params w w1 stale Hg Hne) as (results & w3 & Hrun & Hlen & Hr).
  fold w2 in Hrun. exists results, w3. cbv zeta.
  split; [exact Hrun|]. split; [exact Hlen|].
  split; [now rewrite settled_partition|]. split; [exact Hr|]. split; [reflexivity|].
  split; [rewrite run_prepareFeedsAndArticles, Hr; reflexivity|].
  intros Hq Hcanon.
  destruct (stale_feeds_are_stored _ _ _ _ Hq Hg) as [Hw1 Hstored].
  assert (Hq2 : others w2 = []) by (unfold w2; rewrite Hw1; reflexivity).
  assert (Hs2 : store w2 = store w) by (unfold w2; rewrite Hw1; reflexivity).
  assert (Htasks : Forall2 (fun id t =>
                     guarantees evolves
                       (fun o w' => exists f,
                            find (feedIdIs id) (rssFeeds (store w2)) = Some f
                            /\ settlesOnItsOwn id f (clock (store w2)) o w')
                       t w2)
                     stale (map fetchAndStoreFeedAsync stale)).
  { apply refreshes_settle_on_their_own; [exact Hq2| |]; rewrite Hs2; assumption. }
  destruct (allSettled_guarantees evolves _ schedule evolves_preorder _ _ w2 Htasks)
    as (results' & w3' & Hrun' & _ & Hall).
  rewrite Hrun in Hrun'. injection Hrun' as <- <-.
  eapply Forall2_impl; [|exact Hall]. cbn beta.
  intros id r (o & Hr' & f & Hfind & Hsettled). rewrite Hs2 in Hfind, Hsettled.
  exists f, o. auto.
Qed.

(** ** Further properties of the actions *)

(** *** Lookups after an update *)

Lemma updateFirst_none {A} (p : A -> bool) (f : A -> A) (l : list A) :
  find p l = None -> updateFirst p f l = (None, l).
Proof.
  induction l as [|x l IH]; simpl; [reflexivity|].
  destruct (p x); [discriminate|]. intros H. now rewrite (IH H).
Qed.

Lemma find_updateFirst_other {A} (p q : A -> bool) (f : A -> A) (l : list A) :
  (forall x, p x = true -> q x = false) ->
  (forall x, p x = true -> q (f x) = false) ->
  find q (snd (updateFirst p f l)) = find q l.
Proof.
  intros Hpq Hpf. induction l as [|x l IH]; simpl; [reflexivity|].
  destruct (p x) eqn:Hp; simpl.
  - now rewrite (Hpq x Hp), (Hpf x Hp).
  - destruct (updateFirst p f l). simpl in *. now rewrite IH.
Qed.

Lemma map_updateFirst {A B} (g : A -> B) (p : A -> bool) (f : A -> A) (l : list A) :
  (forall x, g (f x) = g x) -> map g (snd (updateFirst p f l)) = map g l.
Proof.
  intros Hg. induction l as [|x l IH]; simpl; [reflexivity|].
  destruct (p x); simpl.
  - now rewrite Hg.
  - destruct (updateFirst p f l). simpl in *. now rewrite IH.
Qed.

Lemma setFeeds_same (s : Store) : setFeeds s (rssFeeds s) = s.
Proof. destruct s; reflexivity. Qed.

Lemma setArticles_same (s : Store) : setArticles s (rssArticles s) = s.
Proof. destruct s; reflexivity. Qed.

Lemma feedIdIs_other (o o' : ObjectId) (g : RssFeed) :
  o' <> o -> feedIdIs o g = true -> feedIdIs o' g = false.
Proof.
  unfold feedIdIs. intros Hne Ho. apply String.eqb_eq in Ho. apply String.eqb_neq. congruence.
Qed.

(** *** updateFeedLastFetched *)

Lemma run_updateFeedLastFetched_quiet (id : string) (o : ObjectId) (s : Store)
      (c : list LogEntry) :
  parseObjectId id = Some o ->
  updateFeedLastFetched id (mkWorld s [] c)
  = match updateFirst (feedIdIs o) (fun g => withLastFetched g (clock s)) (rssFeeds s) with
    | (Some r, l) => (Returned r, mkWorld (setFeeds s l) [] c)
    | (None, l) =>
        (Thrown (JsError ("Feed with ID " ++ id ++ " not found")),
         mkWorld (setFeeds s l) []
                 (c ++ [LogDatabaseError "update feed last fetched"
                          (JsError ("Feed with ID " ++ id ++ " not found"))]))
    end.
Proof.
  intros Hp. unfold updateFeedLastFetched, wrapDatabaseOperation, tryCatch.
  rewrite run_bind, run_toObjectId, Hp, run_bind. unfold newDate at 1. rewrite run_bind.
  unfold feeds_findOneAndUpdate_lastFetched. rewrite dbCall_quiet. cbn [store].
  destruct (updateFirst _ _ (rssFeeds s)) as [[r|] l]; reflexivity.
Qed.

(** X1.  When no other request writes in between, [updateFeedLastFetched]
    of a stored feed returns that feed with [lastFetched] set to the
    current date; afterwards a lookup of the feed finds exactly that
    record, every other feed is found as before, no feed changed its id,
    url or metadata, and the articles are untouched. *)
Theorem updateFeedLastFetched_sets_only_lastFetched
        (id : string) (o : ObjectId) (f : RssFeed) (s : Store) (c : list LogEntry) :
  parseObjectId id = Some o ->
  find (feedIdIs o) (rssFeeds s) = Some f ->
  let w' := after (updateFeedLastFetched id) (mkWorld s [] c) in
  outcome (updateFeedLastFetched id) (mkWorld s [] c)
  = Returned (withLastFetched f (clock s))
  /\ find (feedIdIs o) (rssFeeds (store w')) = Some (withLastFetched f (clock s))
  /\ (forall o', o' <> o ->
        find (feedIdIs o') (rssFeeds (store w')) = find (feedIdIs o') (rssFeeds s))
  /\ map (fun g => (fd_id g, fd_userId g, fd_url g, fd_meta g)) (rssFeeds (store w'))
     = map (fun g => (fd_id g, fd_userId g, fd_url g, fd_meta g)) (rssFeeds s)
  /\ rssArticles (store w') = rssArticles s.
Proof.
  intros Hp Hf w'. unfold w', outcome, after.
  rewrite (run_updateFeedLastFetched_quiet id o s c Hp).
  pose proof (find_updateFirst (feedIdIs o) (fun g => withLastFetched g (clock s)) _ _ Hf) as H1.
  pose proof (find_updateFirst_snd (feedIdIs o) (fun g => withLastFetched g (clock s)) _ _ Hf)
    as H2.
  pose proof (fun o' (Hne : o' <> o) =>
                find_updateFirst_other (feedIdIs o) (feedIdIs o')
                  (fun g => withLastFetched g (clock s)) (rssFeeds s)
                  (fun x Hx => feedIdIs_other o o' x Hne Hx)
                  (fun x Hx => feedIdIs_other o o' _ Hne Hx)) as H3.
  pose proof (map_updateFirst (fun g => (fd_id g, fd_userId g, fd_url g, fd_meta g))
                (feedIdIs o) (fun g => withLastFetched g (clock s)) (rssFeeds s)
                (fun x => eq_refl)) as H4.
  destruct (updateFirst _ _ (rssFeeds s)) as [r l]. cbn [fst snd] in *. subst r.
  cbn [fst snd store rssFeeds rssArticles setFeeds].
  repeat split; auto. apply H2. apply find_some_holds in Hf. exact (proj1 Hf).
Qed.

(** X2.  In every world, [updateFeedLastFetched] of a well-formed id that
    no stored feed has throws "Feed with ID ... not found" and writes
    nothing. *)
Theorem updateFeedLastFetched_missing_feed (id : string) (o : ObjectId) (w : World) :
  parseObjectId id = Some o ->
  find (feedIdIs o) (rssFeeds (store (interleave w))) = None ->
  outcome (updateFeedLastFetched id) w
  = Thrown (JsError ("Feed with ID " ++ id ++ " not found"))
  /\ store (after (updateFeedLastFetched id) w) = store (interleave w).
Proof.
  intros Hp Hf. unfold updateFeedLastFetched, wrapDatabaseOperation, tryCatch, outcome, after.
  rewrite run_bind, run_toObjectId, Hp.
  unfold bind, newDate, feeds_findOneAndUpdate_lastFetched, dbCall. cbv beta iota zeta.
  rewrite (updateFirst_none _ _ _ Hf). cbn [fst snd store emit throw].
  rewrite setFeeds_same. split; reflexivity.
Qed.

(** *** Malformed ids *)

(** X3.  In every world, a malformed feed id makes [createRssArticle],
    [updateFeedLastFetched], [deleteRssFeed] and [fetchAndStoreFeed] throw
    "Invalid ObjectId: ..." before any collection call: nothing is read,
    written or fetched, and the only trace is the line that
    [wrapDatabaseOperation] logs under the name of the action. *)
Theorem malformed_feed_id_is_refused (id : string) (w : World) :
  parseObjectId id = None ->
  let e := JsError ("Invalid ObjectId: " ++ id) in
  (forall data, feedId data = id ->
                throwsLogged (createRssArticle data) "create RSS article" e w)
  /\ throwsLogged (updateFeedLastFetched id) "update feed last fetched" e w
  /\ throwsLogged (deleteRssFeed id) "delete RSS feed" e w
  /\ throwsLogged (fetchAndStoreFeed id) "fetch feed" e w.
Proof.
  intros Hp e. unfold throwsLogged, outcome, after.
  split; [|split; [|split]].
  - intros data <-. unfold createRssArticle, wrapDatabaseOperation, tryCatch.
    rewrite run_bind, run_toObjectId, Hp. split; reflexivity.
  - unfold updateFeedLastFetched, wrapDatabaseOperation, tryCatch.
    rewrite run_bind, run_toObjectId, Hp. split; reflexivity.
  - unfold deleteRssFeed, wrapDatabaseOperation, tryCatch.
    rewrite run_bind, run_toObjectId, Hp. split; reflexivity.
  - unfold fetchAndStoreFeed, wrapDatabaseOperation, tryCatch.
    rewrite run_bind, run_toObjectId, Hp. split; reflexivity.
Qed.

(** X4.  In every world, a request whose list of feed ids holds a
    malformed id makes [getFeedsToRefresh],
    [getArticlesByFeedsAndDateRange] and [prepareFeedsAndArticles] throw
    "Invalid ObjectId: ..." before any collection call and before any feed
    is fetched. *)
Theorem malformed_request_is_refused (params : PrepareFeedsParams) (limit : Z) (w : World) :
  parseAll (feedIds params) = None ->
  exists e,
    invalidObjectId e
    /\ throwsUntouched (getFeedsToRefresh (feedIds params)) e w
    /\ throwsUntouched (getArticlesByFeedsAndDateRange (feedIds params) (startDate params)
                          (endDate params) limit) e w
    /\ throwsUntouched (prepareFeedsAndArticles params) e w.
Proof.
  intros Hp. pose proof (mapM_toObjectId (feedIds params) w) as Hids. rewrite Hp in Hids.
  destruct Hids as [bad Hbad]. exists (JsError ("Invalid ObjectId: " ++ bad)).
  split; [now exists bad|].
  assert (Hstale : getFeedsToRefresh (feedIds params) w
                   = (Thrown (JsError ("Invalid ObjectId: " ++ bad)), w)).
  { unfold getFeedsToRefresh. rewrite run_bind. unfold newDate at 1.
    rewrite run_bind, Hbad. reflexivity. }
  unfold throwsUntouched, outcome, after. split; [|split].
  - rewrite Hstale. repeat split.
  - unfold getArticlesByFeedsAndDateRange, wrapDatabaseOperation, tryCatch.
    rewrite run_bind, Hbad. repeat split.
  - rewrite run_prepareFeedsAndArticles. unfold refreshStaleFeeds.
    rewrite run_bind, Hstale. repeat split.
Qed.

(** *** deleteRssFeed, continued *)

Lemma removeFirst_none {A} (p : A -> bool) (l : list A) :
  find p l = None -> removeFirst p l = l.
Proof.
  induction l as [|x l IH]; simpl; [reflexivity|].
  destruct (p x); [discriminate|]. intros H. now rewrite (IH H).
Qed.

Lemma find_removeFirst_other {A} (p q : A -> bool) (l : list A) :
  (forall x, p x = true -> q x = false) ->
  find q (removeFirst p l) = find q l.
Proof.
  intros Hpq. induction l as [|x l IH]; simpl; [reflexivity|].
  destruct (p x) eqn:Hp; simpl.
  - now rewrite (Hpq x Hp).
  - now rewrite IH.
Qed.

Lemma find_removeFirst_unique (o : ObjectId) (feeds : list RssFeed) :
  NoDup (map fd_id feeds) -> find (feedIdIs o) (removeFirst (feedIdIs o) feeds) = None.
Proof.
  induction feeds as [|g feeds IH]; simpl; [reflexivity|].
  intros Hnd. inversion Hnd as [|? ? Hnotin Hnd']; subst.
  destruct (feedIdIs o g) eqn:Hg; simpl.
  - destruct (find (feedIdIs o) feeds) as [g'|] eqn:Hf; [|reflexivity].
    exfalso. apply Hnotin. apply find_some_holds in Hf. destruct Hf as [Hg' Hin].
    unfold feedIdIs in *. apply String.eqb_eq in Hg, Hg'. rewrite Hg, <- Hg'.
    now apply in_map.
  - rewrite Hg. auto.
Qed.

Lemma survivors_without (o : ObjectId) (articles : list RssArticle) (a : RssArticle) :
  In a (survivors o articles) -> ~ In o (sourcesOf a).
Proof.
  unfold survivors. rewrite in_flat_map. intros (b & _ & Hb) Hin.
  unfold removeFeedReference in Hb.
  destruct (filter (fun y => negb (String.eqb o y)) (sourcesOf b)) as [|y r] eqn:Hf;
    [destruct Hb|].
  destruct Hb as [<-|[]]. unfold sourcesOf in Hin at 1. cbn [art_sourceFeedIds withSourceFeedIds] in Hin.
  rewrite <- Hf in Hin. apply filter_In in Hin. destruct Hin as [_ Hneq].
  now rewrite String.eqb_refl in Hneq.
Qed.

Lemma removeFeedReference_again (o : ObjectId) (a a' : RssArticle) :
  removeFeedReference o a = Some a' -> removeFeedReference o a' = Some a'.
Proof.
  unfold removeFeedReference.
  destruct (filter (fun y => negb (String.eqb o y)) (sourcesOf a)) as [|y r] eqn:Hf;
    [discriminate|].
  intros [= <-]. unfold sourcesOf at 1. cbn [art_sourceFeedIds withSourceFeedIds].
  assert (Hagain : filter (fun y0 => negb (String.eqb o y0)) (y :: r) = y :: r).
  { rewrite <- Hf. apply filter_not_in. apply includes_false_not_In.
    intros Hin. apply filter_In in Hin. destruct Hin as [_ Hneq].
    now rewrite String.eqb_refl in Hneq. }
  rewrite Hagain. reflexivity.
Qed.

Lemma survivors_idempotent (o : ObjectId) (articles : list RssArticle) :
  survivors o (survivors o articles) = survivors o articles.
Proof.
  unfold survivors. induction articles as [|a rest IH]; [reflexivity|].
  cbn [flat_map]. rewrite flat_map_app, IH.
  destruct (removeFeedReference o a) as [a'|] eqn:Ha; [|reflexivity].
  cbn [flat_map]. rewrite (removeFeedReference_again o a a' Ha). reflexivity.
Qed.

(** X5.  When feed ids are unique and no other request writes in between,
    [deleteRssFeed] leaves no feed with the deleted id and no article that
    still lists it among its sources; every other feed is found as
    before. *)
Theorem deleteRssFeed_forgets_feed
        (id : string) (o : ObjectId) (s : Store) (c : list LogEntry) :
  parseObjectId id = Some o ->
  NoDup (map fd_id (rssFeeds s)) ->
  let w' := after (deleteRssFeed id) (mkWorld s [] c) in
  find (feedIdIs o) (rssFeeds (store w')) = None
  /\ (forall o', o' <> o ->
        find (feedIdIs o') (rssFeeds (store w')) = find (feedIdIs o') (rssFeeds s))
  /\ forall a, In a (rssArticles (store w')) -> ~ In o (sourcesOf a).
Proof.
  intros Hp Hnd w'. unfold w', after. rewrite (deleteRssFeed_quiet id o s c Hp).
  cbn [snd store rssFeeds rssArticles]. split; [|split].
  - now apply find_removeFirst_unique.
  - intros o' Hne. apply find_removeFirst_other.
    intros x Hx. exact (feedIdIs_other o o' x Hne Hx).
  - intros a. rewrite pull_then_purge. apply survivors_without.
Qed.

(** X6.  When feed ids are unique and no other request writes in between,
    deleting a feed a second time changes nothing: the store after two
    calls of [deleteRssFeed] is the store after one. *)
Theorem deleteRssFeed_idempotent
        (id : string) (o : ObjectId) (s : Store) (c : list LogEntry) :
  parseObjectId id = Some o ->
  NoDup (map fd_id (rssFeeds s)) ->
  store (after (deleteRssFeed id) (after (deleteRssFeed id) (mkWorld s [] c)))
  = store (after (deleteRssFeed id) (mkWorld s [] c)).
Proof.
  intros Hp Hnd. unfold after. rewrite (deleteRssFeed_quiet id o s c Hp). cbn [snd].
  rewrite (deleteRssFeed_quiet id o _ c Hp). cbn [snd store rssFeeds rssArticles clock nextId].
  rewrite !pull_then_purge, survivors_idempotent.
  rewrite (removeFirst_none _ _ (find_removeFirst_unique o _ Hnd)). reflexivity.
Qed.

(** *** createRssArticle, continued *)

Lemma createRssArticle_quiet_result (data : ArticleCreateData) (o : ObjectId)
      (s : Store) (c : list LogEntry) :
  parseObjectId (feedId data) = Some o ->
  createRssArticle data (mkWorld s [] c)
  = (Returned (articleAfterCreate o data s), mkWorld (storeAfterCreate o data s) [] c).
Proof.
  intros Hp. unfold createRssArticle, wrapDatabaseOperation, tryCatch, toObjectId.
  rewrite Hp, run_bind. unfold ret at 1. rewrite run_bind.
  unfold articles_findOne_guid at 1. rewrite dbCall_quiet. cbn [fst snd].
  unfold storeAfterCreate, articleAfterCreate.
  destruct (find (guidIs (guid data)) (rssArticles s)) as [ex|] eqn:Hf.
  - unfold fromObjectId. rewrite map_id.
    destruct (includes (sourcesOf ex) (feedId data)) eqn:Hi; cbn [negb].
    + rewrite run_bind. unfold articles_findOne_guid. rewrite dbCall_quiet. cbn [fst snd].
      rewrite Hf. reflexivity.
    + rewrite run_bind. unfold articles_findOneAndUpdate_addToSet.
      rewrite dbCall_quiet.
      pose proof (find_updateFirst (guidIs (guid data))
                    (fun a => withSourceFeedIds a (addToSet o (art_sourceFeedIds a)))
                    _ _ Hf) as Hu.
      destruct (updateFirst _ _ (rssArticles s)) as [u l]. cbn [fst snd] in *.
      rewrite Hu. reflexivity.
  - rewrite run_bind. unfold newDate at 1. rewrite run_bind.
    unfold articles_insertOne. rewrite dbCall_quiet. cbn [art_guid store].
    rewrite (find_none_existsb _ _ Hf). cbn [fst snd].
    rewrite run_bind. unfold articles_findOne_id. rewrite dbCall_quiet. cbn [fst snd rssArticles].
    destruct (find_app_last (fun a => Nat.eqb (art_id a) (nextId s)) (rssArticles s)
                (insertedArticle o data (clock s) (nextId s))) as [x Hx].
    { simpl. apply Nat.eqb_refl. }
    unfold insertedArticle in *. rewrite Hx. reflexivity.
Qed.

Lemma NoDup_app_iff_last {A} (l : list A) (x : A) :
  NoDup l -> ~ In x l -> NoDup (l ++ [x]).
Proof.
  intros Hnd Hx. induction Hnd as [|y l Hy Hl IH]; simpl.
  - constructor; [intros []|constructor].
  - constructor.
    + intros Hin. apply in_app_or in Hin. destruct Hin as [Hin|[->|[]]].
      * contradiction.
      * apply Hx. now left.
    + apply IH. intros Hin. apply Hx. now right.
Qed.

Lemma find_none_not_guid (g : string) (articles : list RssArticle) :
  find (guidIs g) articles = None -> ~ In g (map art_guid articles).
Proof.
  intros Hf Hin. apply in_map_iff in Hin. destruct Hin as (a & Ha & Hin).
  apply (find_none _ _ Hf) in Hin. unfold guidIs in Hin. rewrite Ha, String.eqb_refl in Hin.
  discriminate.
Qed.

Lemma guidIs_other (g g' : string) (a : RssArticle) :
  g' <> g -> guidIs g a = true -> guidIs g' a = false.
Proof.
  unfold guidIs. intros Hne Hg. apply String.eqb_eq in Hg. apply String.eqb_neq. congruence.
Qed.

Lemma find_fresh_id (s : Store) (d : RssArticle) :
  idsGenerated s -> art_id d = nextId s ->
  find (fun a => Nat.eqb (art_id a) (nextId s)) (rssArticles s ++ [d]) = Some d.
Proof.
  unfold idsGenerated. intros Hgen Hd.
  induction (rssArticles s) as [|a l IH]; simpl.
  - now rewrite Hd, Nat.eqb_refl.
  - inversion Hgen as [|? ? Ha Hl]; subst.
    destruct (Nat.eqb_spec (art_id a) (nextId s)) as [Heq|_]; [lia|]. auto.
Qed.

(** X7.  When no other request writes in between, [createRssArticle]
    never stores a second article with a guid that is already stored: if
    the guids of the collection are pairwise distinct before the call,
    they are after it. *)
Theorem createRssArticle_keeps_guids_unique (data : ArticleCreateData) (w : World) :
  others w = [] ->
  NoDup (map art_guid (rssArticles (store w))) ->
  NoDup (map art_guid (rssArticles (store (after (createRssArticle data) w)))).
Proof.
  intros Hq Hnd. destruct (createRssArticle_after_quiet data w Hq) as [_ Hs]. rewrite Hs.
  destruct (parseObjectId (feedId data)) as [o|]; [|exact Hnd].
  unfold storeAfterCreate.
  destruct (find (guidIs (guid data)) (rssArticles (store w))) as [ex|] eqn:Hf.
  - destruct (includes (sourcesOf ex) (feedId data)); [exact Hnd|].
    cbn [setArticles rssArticles]. rewrite map_updateFirst; [exact Hnd|reflexivity].
  - cbn [rssArticles]. rewrite map_app. cbn [map insertedArticle art_guid].
    apply NoDup_app_iff_last; [exact Hnd|now apply find_none_not_guid].
Qed.

Lemma length_updateFirst {A} (p : A -> bool) (f : A -> A) (l : list A) :
  List.length (snd (updateFirst p f l)) = List.length l.
Proof.
  rewrite <- (length_map (fun _ => tt) (snd (updateFirst p f l))).
  rewrite (map_updateFirst (fun _ => tt) p f l (fun _ => eq_refl)). apply length_map.
Qed.

Lemma addToSet_grows (o : ObjectId) (a : RssArticle) (x : ObjectId) :
  (In x (sourcesOf a) ->
   In x (sourcesOf (withSourceFeedIds a (addToSet o (art_sourceFeedIds a)))))
  /\ (In x (sourcesOf (withSourceFeedIds a (addToSet o (art_sourceFeedIds a)))) ->
      In x (sourcesOf a) \/ x = o).
Proof.
  statement_variables_only.
  unfold sourcesOf, addToSet. cbn [art_sourceFeedIds withSourceFeedIds].
  destruct (art_sourceFeedIds a) as [l|].
  - destruct (includes l o); [tauto|]. rewrite in_app_iff. simpl. intuition.
  - simpl. intuition.
Qed.

Lemma find_guid_after_create (o : ObjectId) (data : ArticleCreateData) (s : Store) :
  idsGenerated s ->
  find (guidIs (guid data)) (rssArticles (storeAfterCreate o data s))
  = Some (articleAfterCreate o data s).
Proof.
  intros Hgen. unfold storeAfterCreate, articleAfterCreate.
  destruct (find (guidIs (guid data)) (rssArticles s)) as [ex|] eqn:Hf.
  - destruct (includes (sourcesOf ex) (feedId data)); [exact Hf|].
    cbn [setArticles rssArticles].
    apply (find_updateFirst_snd (guidIs (guid data))
             (fun a => withSourceFeedIds a (addToSet o (art_sourceFeedIds a))) _ ex Hf).
    apply find_some_holds in Hf. exact (proj1 Hf).
  - cbn [rssArticles]. rewrite (find_fresh_id s (insertedArticle o data (clock s) (nextId s)) Hgen eq_refl).
    rewrite (find_app_none _ _ _ Hf). cbn [find]. unfold guidIs at 1.
    cbn [art_guid insertedArticle]. now rewrite String.eqb_refl.
Qed.

Lemma storeAfterCreate_idsGenerated (o : ObjectId) (data : ArticleCreateData) (s : Store) :
  idsGenerated s -> idsGenerated (storeAfterCreate o data s).
Proof.
  unfold idsGenerated, storeAfterCreate. intros Hgen.
  destruct (find (guidIs (guid data)) (rssArticles s)) as [ex|].
  - destruct (includes (sourcesOf ex) (feedId data)); [exact Hgen|].
    cbn [setArticles rssArticles nextId]. apply updateFirst_Forall; [|exact Hgen].
    intros x Hx. exact Hx.
  - cbn [rssArticles nextId]. apply Forall_app. split.
    + eapply Forall_impl; [|exact Hgen]. intros a Ha. simpl in Ha. lia.
    + constructor; [simpl; lia|constructor].
Qed.

(** X8.  When no other request writes in between and the guid is already
    stored, [createRssArticle] returns the stored article and changes at
    most its [sourceFeedIds], which keeps every feed it had and gains at
    most the new feed: the primary feed, the date and the content stay
    those of the first ingestion, whatever the new data says.  No article
    is added and every other guid is found as before. *)
Theorem createRssArticle_first_writer_wins
        (data : ArticleCreateData) (o : ObjectId) (ex : RssArticle)
        (s : Store) (c : list LogEntry) :
  parseObjectId (feedId data) = Some o ->
  find (guidIs (guid data)) (rssArticles s) = Some ex ->
  let w' := after (createRssArticle data) (mkWorld s [] c) in
  exists ex',
    outcome (createRssArticle data) (mkWorld s [] c) = Returned ex'
    /\ find (guidIs (guid data)) (rssArticles (store w')) = Some ex'
    /\ withSourceFeedIds ex' (art_sourceFeedIds ex) = ex
    /\ (forall x, In x (sourcesOf ex) -> In x (sourcesOf ex'))
    /\ (forall x, In x (sourcesOf ex') -> In x (sourcesOf ex) \/ x = o)
    /\ List.length (rssArticles (store w')) = List.length (rssArticles s)
    /\ forall g', g' <> guid data ->
         find (guidIs g') (rssArticles (store w')) = find (guidIs g') (rssArticles s).
Proof.
  intros Hp Hf w'. unfold w', outcome, after.
  rewrite (createRssArticle_quiet_result data o s c Hp). cbn [fst snd store].
  exists (articleAfterCreate o data s). split; [reflexivity|].
  unfold articleAfterCreate, storeAfterCreate. rewrite Hf.
  assert (Hself : withSourceFeedIds ex (art_sourceFeedIds ex) = ex) by (destruct ex; reflexivity).
  destruct (includes (sourcesOf ex) (feedId data)).
  - repeat split; auto.
  - cbn [setArticles rssArticles]. split; [|split; [|split; [|split; [|split]]]].
    + apply (find_updateFirst_snd (guidIs (guid data))
               (fun a => withSourceFeedIds a (addToSet o (art_sourceFeedIds a))) _ ex Hf).
      apply find_some_holds in Hf. exact (proj1 Hf).
    + exact Hself.
    + intros x. apply addToSet_grows.
    + intros x. apply addToSet_grows.
    + apply length_updateFirst.
    + intros g' Hne. apply find_updateFirst_other.
      * intros x Hx. exact (guidIs_other _ _ x Hne Hx).
      * intros x Hx. exact (guidIs_other _ _ x Hne Hx).
Qed.

(** X9.  When no other request writes in between, the guid is not stored
    and every stored article id was generated earlier, [createRssArticle]
    appends one article and returns it: its primary feed is the given
    feed, its [sourceFeedIds] is that feed alone, its dates are the
    current date, and a lookup of the guid finds it. *)
Theorem createRssArticle_new_guid
        (data : ArticleCreateData) (o : ObjectId) (s : Store) (c : list LogEntry) :
  parseObjectId (feedId data) = Some o ->
  find (guidIs (guid data)) (rssArticles s) = None ->
  idsGenerated s ->
  let w' := after (createRssArticle data) (mkWorld s [] c) in
  let new := mkArticle (nextId s) o (guid data) (Some [o]) (pubDate data)
                       (storedFields (fields data)) (clock s) (clock s) in
  outcome (createRssArticle data) (mkWorld s [] c) = Returned new
  /\ rssArticles (store w') = rssArticles s ++ [new]
  /\ find (guidIs (guid data)) (rssArticles (store w')) = Some new
  /\ idsGenerated (store w').
Proof.
  intros Hp Hf Hgen w' new. unfold w', outcome, after.
  rewrite (createRssArticle_quiet_result data o s c Hp). cbn [fst snd store].
  pose proof (find_guid_after_create o data s Hgen) as Hfind.
  pose proof (storeAfterCreate_idsGenerated o data s Hgen) as Hgen'.
  unfold articleAfterCreate, storeAfterCreate in *. rewrite Hf in *.
  rewrite (find_fresh_id s (insertedArticle o data (clock s) (nextId s)) Hgen eq_refl) in *. cbn [rssArticles] in *.
  repeat split; assumption.
Qed.

(** X10.  When no other request writes in between, the feed id is given in
    its canonical form and every stored article id was generated earlier,
    [createRssArticle] returns an article with the given guid that lists
    the given feed among its sources, and a lookup of the guid in the
    collection finds exactly the returned article. *)
Theorem createRssArticle_returns_stored_article
        (data : ArticleCreateData) (s : Store) (c : list LogEntry) :
  parseObjectId (feedId data) = Some (feedId data) ->
  idsGenerated s ->
  let w' := after (createRssArticle data) (mkWorld s [] c) in
  exists r,
    outcome (createRssArticle data) (mkWorld s [] c) = Returned r
    /\ find (guidIs (guid data)) (rssArticles (store w')) = Some r
    /\ art_guid r = guid data
    /\ In (feedId data) (sourcesOf r).
Proof.
  intros Hp Hgen w'. unfold w', outcome, after.
  rewrite (createRssArticle_quiet_result data _ s c Hp). cbn [fst snd store].
  exists (articleAfterCreate (feedId data) data s). split; [reflexivity|].
  pose proof (find_guid_after_create (feedId data) data s Hgen) as Hfind.
  split; [exact Hfind|].
  apply find_some_holds in Hfind. destruct Hfind as [Hg _].
  split; [now apply String.eqb_eq in Hg|].
  unfold articleAfterCreate.
  destruct (find (guidIs (guid data)) (rssArticles s)) as [ex|].
  - destruct (includes (sourcesOf ex) (feedId data)) eqn:Hi.
    + now apply includes_In.
    + apply includes_In, addToSet_includes.
  - rewrite (find_fresh_id s (insertedArticle (feedId data) data (clock s) (nextId s)) Hgen eq_refl). simpl. now left.
Qed.

(** *** bulkCreateRssArticles without interference *)

Lemma find_app_some {A} (p : A -> bool) (l l' : list A) (x : A) :
  find p l = Some x -> find p (l ++ l') = Some x.
Proof.
  induction l as [|y l IH]; simpl; [discriminate|].
  destruct (p y); auto.
Qed.

Lemma includes_grows (o x : ObjectId) (a : RssArticle) :
  includes (sourcesOf a) x = true ->
  includes (sourcesOf (withSourceFeedIds a (addToSet o (art_sourceFeedIds a)))) x = true.
Proof.
  rewrite !includes_In. apply addToSet_grows.
Qed.

Lemma alreadyIngested_preserved (o o' : ObjectId) (data data' : ArticleCreateData)
      (s : Store) :
  alreadyIngested o data (rssArticles s) ->
  alreadyIngested o data (rssArticles (storeAfterCreate o' data' s)).
Proof.
  intros (x & Hf & Hin). unfold storeAfterCreate, alreadyIngested.
  destruct (find (guidIs (guid data')) (rssArticles s)) as [ex|] eqn:Hf'.
  - destruct (includes (sourcesOf ex) (feedId data')); [exists x; auto|].
    cbn [setArticles rssArticles].
    destruct (string_dec (guid data) (guid data')) as [Heq|Hne].
    + rewrite Heq in Hf. assert (ex = x) by congruence. subst ex. rewrite Heq.
      eexists. split.
      * apply (find_updateFirst_snd (guidIs (guid data'))
                 (fun a => withSourceFeedIds a (addToSet o' (art_sourceFeedIds a))) _ x Hf).
        apply find_some_holds in Hf. exact (proj1 Hf).
      * destruct Hin as [Hin|Hin]; [left|right]; now apply includes_grows.
    + exists x. split; [|exact Hin]. rewrite <- Hf. apply find_updateFirst_other.
      * intros y Hy. exact (guidIs_other _ _ y Hne Hy).
      * intros y Hy. exact (guidIs_other _ _ y Hne Hy).
  - cbn [rssArticles]. exists x. split; [|exact Hin]. now apply find_app_some.
Qed.

Lemma storeAfterCreate_frame (o : ObjectId) (data : ArticleCreateData) (s : Store) :
  rssFeeds (storeAfterCreate o data s) = rssFeeds s
  /\ clock (storeAfterCreate o data s) = clock s.
Proof.
  unfold storeAfterCreate. destruct (find (guidIs (guid data)) (rssArticles s)) as [ex|].
  - destruct (includes (sourcesOf ex) (feedId data)); split; reflexivity.
  - split; reflexivity.
Qed.

Lemma storeAfterBulk_frame (articles : list ArticleCreateData) :
  forall s, rssFeeds (storeAfterBulk articles s) = rssFeeds s
            /\ clock (storeAfterBulk articles s) = clock s.
Proof.
  induction articles as [|a rest IH]; intros s; [split; reflexivity|].
  cbn [storeAfterBulk]. destruct (IH (match parseObjectId (feedId a) with
                                      | Some o => storeAfterCreate o a s
                                      | None => s
                                      end)) as [H1 H2].
  rewrite H1, H2. destruct (parseObjectId (feedId a)); [apply storeAfterCreate_frame|auto].
Qed.

Lemma storeAfterBulk_ingests (articles : list ArticleCreateData) :
  forall s a o,
    In a articles -> parseObjectId (feedId a) = Some o ->
    alreadyIngested o a (rssArticles (storeAfterBulk articles s)).
Proof.
  assert (Hkeep : forall rest s a o,
             alreadyIngested o a (rssArticles s) ->
             alreadyIngested o a (rssArticles (storeAfterBulk rest s))).
  { induction rest as [|b rest IH]; intros s a o Ha; [exact Ha|].
    cbn [storeAfterBulk]. apply IH.
    destruct (parseObjectId (feedId b)); [now apply alreadyIngested_preserved|exact Ha]. }
  induction articles as [|b rest IH]; intros s a o Hin Hp; [destruct Hin|].
  cbn [storeAfterBulk]. destruct Hin as [->|Hin].
  - apply Hkeep. rewrite Hp. apply storeAfterCreate_ingests.
  - now apply IH.
Qed.

Lemma bulkLoop_quiet (articles : list ArticleCreateData) :
  forall (r0 : BulkOperationResult) (s : Store) (c : list LogEntry),
    Forall (fun a => parseObjectId (feedId a) <> None) articles ->
    bulkLoop articles r0 (mkWorld s [] c)
    = (Returned (mkBulk (created r0 + List.length articles) (skipped r0) (errors r0)),
       mkWorld (storeAfterBulk articles s) [] c).
Proof.
  induction articles as [|a rest IH]; intros r0 s c Hvalid.
  - cbn [bulkLoop List.length storeAfterBulk]. rewrite Nat.add_0_r. destruct r0; reflexivity.
  - inversion Hvalid as [|? ? Ha Hrest]; subst.
    cbn [bulkLoop storeAfterBulk]. rewrite run_bind. unfold tallyArticle, tryCatch.
    rewrite run_bind.
    destruct (parseObjectId (feedId a)) as [o|] eqn:Hp; [|congruence].
    rewrite (createRssArticle_quiet_result a o s c Hp). unfold ret at 1.
    rewrite (IH _ _ _ Hrest). cbn [created skipped errors List.length].
    rewrite Nat.add_succ_r. reflexivity.
Qed.

(** X11.  When no other request writes in between and every article
    carries a well-formed feed id, [bulkCreateRssArticles] counts every
    article as created, also one whose guid was already stored or occurs
    twice in the input: [skipped] and [errors] stay 0.  It logs nothing,
    leaves the feeds untouched, and afterwards every guid of the input is
    stored with its feed among the sources. *)
Theorem bulkCreateRssArticles_counts_duplicates_as_created
        (articles : list ArticleCreateData) (s : Store) (c : list LogEntry) :
  Forall (fun a => parseObjectId (feedId a) <> None) articles ->
  let w' := after (bulkCreateRssArticles articles) (mkWorld s [] c) in
  outcome (bulkCreateRssArticles articles) (mkWorld s [] c)
  = Returned (mkBulk (List.length articles) 0 0)
  /\ console w' = c
  /\ rssFeeds (store w') = rssFeeds s
  /\ forall a o, In a articles -> parseObjectId (feedId a) = Some o ->
                 alreadyIngested o a (rssArticles (store w')).
Proof.
  intros Hvalid w'. unfold w', outcome, after, bulkCreateRssArticles.
  rewrite (bulkLoop_quiet articles (mkBulk 0 0 0) s c Hvalid). cbn [fst snd store console].
  split; [reflexivity|]. split; [reflexivity|]. split; [apply storeAfterBulk_frame|].
  intros a o. apply storeAfterBulk_ingests.
Qed.

(** *** fetchAndStoreFeed without interference *)

Lemma run_fetchAndStoreFeed_quiet (id : string) (o : ObjectId) (f : RssFeed)
      (metadata : FeedMetadata) (articles : list ArticleData)
      (s : Store) (c : list LogEntry) :
  parseObjectId id = Some o ->
  find (feedIdIs o) (rssFeeds s) = Some f ->
  fetchAndParseFeed (fd_url f) id = inr (metadata, articles) ->
  fetchAndStoreFeed id (mkWorld s [] c)
  = (Returned (mkFetchResult metadata (List.length articles) 0 0),
     mkWorld (setFeeds (storeAfterBulk (map (toCreateData id) articles) s)
                       (snd (updateFirst (feedIdIs o)
                               (fun g => withLastFetched g (clock s)) (rssFeeds s))))
             [] c).
Proof.
  intros Hp Hf Hfetch. unfold fetchAndStoreFeed, wrapDatabaseOperation, tryCatch.
  rewrite run_bind, run_toObjectId, Hp, run_bind.
  unfold feeds_findOne_id. rewrite dbCall_quiet. cbn [fst snd]. rewrite Hf, Hfetch.
  rewrite run_bind. unfold bulkCreateRssArticles.
  assert (Hvalid : Forall (fun a => parseObjectId (feedId a) <> None)
                          (map (toCreateData id) articles)).
  { apply Forall_forall. intros a Ha. apply in_map_iff in Ha. destruct Ha as (d & <- & _).
    simpl. congruence. }
  rewrite (bulkLoop_quiet _ (mkBulk 0 0 0) s c Hvalid). rewrite run_bind.
  rewrite (run_updateFeedLastFetched_quiet id o _ c Hp).
  destruct (storeAfterBulk_frame (map (toCreateData id) articles) s) as [Hfeeds Hclock].
  rewrite Hfeeds, Hclock.
  pose proof (find_updateFirst (feedIdIs o) (fun g => withLastFetched g (clock s)) _ _ Hf) as Hu.
  destruct (updateFirst _ _ (rssFeeds s)) as [r l]. cbn [fst snd] in *. subst r.
  cbn [created skipped errors]. rewrite length_map. reflexivity.
Qed.

(** X12.  When no other request writes in between, the feed is stored and
    the fetch of its url succeeds, [fetchAndStoreFeed] returns the
    metadata with every fetched article counted as created (0 skipped, 0
    errors); afterwards the feed is found with [lastFetched] set to the
    current date, every other feed is found as before, and for every
    fetched article the collection holds an article with its guid that
    lists the feed among its sources. *)
Theorem fetchAndStoreFeed_quiet_refresh
        (id : string) (o : ObjectId) (f : RssFeed)
        (metadata : FeedMetadata) (articles : list ArticleData)
        (s : Store) (c : list LogEntry) :
  parseObjectId id = Some o ->
  find (feedIdIs o) (rssFeeds s) = Some f ->
  fetchAndParseFeed (fd_url f) id = inr (metadata, articles) ->
  let w' := after (fetchAndStoreFeed id) (mkWorld s [] c) in
  outcome (fetchAndStoreFeed id) (mkWorld s [] c)
  = Returned (mkFetchResult metadata (List.length articles) 0 0)
  /\ find (feedIdIs o) (rssFeeds (store w')) = Some (withLastFetched f (clock s))
  /\ (forall o', o' <> o ->
        find (feedIdIs o') (rssFeeds (store w')) = find (feedIdIs o') (rssFeeds s))
  /\ forall a, In a articles ->
       exists x, find (guidIs (ad_guid a)) (rssArticles (store w')) = Some x
                 /\ (In id (sourcesOf x) \/ In o (sourcesOf x)).
Proof.
  intros Hp Hf Hfetch w'. unfold w', outcome, after.
  rewrite (run_fetchAndStoreFeed_quiet id o f metadata articles s c Hp Hf Hfetch).
  cbn [fst snd store setFeeds rssFeeds rssArticles].
  split; [reflexivity|]. split; [|split].
  - apply (find_updateFirst_snd (feedIdIs o) (fun g => withLastFetched g (clock s)) _ f Hf).
    apply find_some_holds in Hf. exact (proj1 Hf).
  - intros o' Hne. apply find_updateFirst_other.
    + intros x Hx. exact (feedIdIs_other o o' x Hne Hx).
    + intros x Hx. exact (feedIdIs_other o o' _ Hne Hx).
  - intros a Ha.
    destruct (storeAfterBulk_ingests (map (toCreateData id) articles) s
                (toCreateData id a) o (in_map _ _ _ Ha) Hp) as (x & Hx & Hin).
    exists x. split; [exact Hx|].
    destruct Hin as [Hin|Hin]; [left|right]; now apply includes_In.
Qed.

(** X13.  In every world, [fetchAndStoreFeed] of a well-formed id that no
    stored feed has throws "Feed with ID ... not found" and writes
    nothing. *)
Theorem fetchAndStoreFeed_missing_feed (id : string) (o : ObjectId) (w : World) :
  parseObjectId id = Some o ->
  find (feedIdIs o) (rssFeeds (store (interleave w))) = None ->
  outcome (fetchAndStoreFeed id) w
  = Thrown (JsError ("Feed with ID " ++ id ++ " not found"))
  /\ store (after (fetchAndStoreFeed id) w) = store (interleave w).
Proof.
  intros Hp Hf. unfold fetchAndStoreFeed, wrapDatabaseOperation, tryCatch, outcome, after.
  rewrite run_bind, run_toObjectId, Hp, run_bind.
  unfold feeds_findOne_id. rewrite dbCall_read, Hf. split; reflexivity.
Qed.

(** X14.  A refresh is shared by url.  When feed ids are unique and no
    other request writes in between, after a successful
    [fetchAndStoreFeed] of one feed, [getFeedsToRefresh] (at the same
    date) reports no feed that has the same url as stale, whichever feeds
    are requested. *)
Theorem refresh_makes_the_url_fresh
        (id : string) (o : ObjectId) (f : RssFeed)
        (metadata : FeedMetadata) (articles : list ArticleData)
        (ids : list string) (oids : list ObjectId)
        (s : Store) (c : list LogEntry) :
  parseObjectId id = Some o ->
  find (feedIdIs o) (rssFeeds s) = Some f ->
  fetchAndParseFeed (fd_url f) id = inr (metadata, articles) ->
  NoDup (map fd_id (rssFeeds s)) ->
  parseAll ids = Some oids ->
  let w' := after (fetchAndStoreFeed id) (mkWorld s [] c) in
  exists stale,
    outcome (getFeedsToRefresh ids) w' = Returned stale
    /\ forall g, In g (rssFeeds (store w')) -> fd_url g = fd_url f -> ~ In (fd_id g) stale.
Proof.
  intros Hp Hf Hfetch Hnd Hids w'. unfold w', after.
  rewrite (run_fetchAndStoreFeed_quiet id o f metadata articles s c Hp Hf Hfetch).
  cbn [snd]. unfold outcome.
  set (s' := setFeeds _ _).
  assert (Hclock : clock s' = clock s).
  { unfold s'. cbn [setFeeds clock]. apply storeAfterBulk_frame. }
  assert (Hfeeds : rssFeeds s' = snd (updateFirst (feedIdIs o)
                                        (fun g => withLastFetched g (clock s)) (rssFeeds s)))
    by reflexivity.
  assert (Hnd' : NoDup (map fd_id (rssFeeds s'))).
  { rewrite Hfeeds, map_updateFirst; [exact Hnd|reflexivity]. }
  assert (Hfresh : In (withLastFetched f (clock s)) (rssFeeds s')).
  { rewrite Hfeeds.
    pose proof (find_updateFirst_snd (feedIdIs o) (fun g => withLastFetched g (clock s))
                  _ f Hf) as H.
    assert (Hself : feedIdIs o (withLastFetched f (clock s)) = true)
      by (apply find_some_holds in Hf; exact (proj1 Hf)).
    apply find_some_holds in H; [tauto|exact Hself]. }
  rewrite (run_getFeedsToRefresh_quiet ids oids s' c Hids). cbn [fst].
  eexists. split; [reflexivity|]. intros g Hg Hurl Hin.
  apply in_map_iff in Hin. destruct Hin as (g' & Hid & Hg').
  apply filter_In in Hg'. destruct Hg' as [Hreq Hnot].
  assert (Hg'in : In g' (rssFeeds s')) by (apply filter_In in Hreq; tauto).
  unfold fromObjectId in Hid.
  assert (g' = g) by (apply (same_id_same_feed (rssFeeds s')); auto). subst g'.
  apply negb_true_iff in Hnot.
  assert (Hrecent : includes
            (map grp_id
               (filter (fun gr => match maxLastFetched gr with Some _ => true | None => false end)
                  (groupByUrl
                     (filter (recentlyFetched
                                (distinct (map fd_url
                                   (filter (fun f0 => includes oids (fd_id f0)) (rssFeeds s'))))
                                (clock s' - CACHE_WINDOW)) (rssFeeds s')))))
            (fd_url g) = true).
  { apply recent_urls_spec.
    - apply distinct_In, in_map. exact Hreq.
    - apply latestFetch_recent. exists (withLastFetched f (clock s)), (clock s).
      split; [exact Hfresh|]. split; [simpl; congruence|]. split; [reflexivity|].
      rewrite Hclock. unfold CACHE_WINDOW. lia. }
  congruence.
Qed.

(** *** The article query, continued *)

Lemma mapM_withFeed_quiet (articles : list RssArticle) (s : Store) (c : list LogEntry) :
  mapM withFeed articles (mkWorld s [] c)
  = (Returned (map (presented (rssFeeds s)) articles), mkWorld s [] c).
Proof.
  induction articles as [|a rest IH]; [reflexivity|].
  cbn [mapM map]. rewrite run_bind. unfold withFeed at 1. rewrite run_bind.
  unfold feeds_findOne_id. rewrite dbCall_quiet. cbn [fst snd]. unfold ret at 1.
  rewrite run_bind, IH. reflexivity.
Qed.

Lemma run_getArticles_quiet (ids : list string) (oids : list ObjectId)
      (startDate endDate limit : Z) (s : Store) (c : list LogEntry) :
  parseAll ids = Some oids ->
  getArticlesByFeedsAndDateRange ids startDate endDate limit (mkWorld s [] c)
  = (Returned (map (presented (rssFeeds s))
                   (cursorLimit (singleBatch RssArticle (matching oids startDate endDate s))
                                limit (matching oids startDate endDate s))),
     mkWorld s [] c).
Proof.
  intros Hp. unfold getArticlesByFeedsAndDateRange, wrapDatabaseOperation, tryCatch.
  rewrite run_bind. pose proof (mapM_toObjectId ids (mkWorld s [] c)) as Hids.
  rewrite Hp in Hids. rewrite Hids, run_bind.
  unfold articles_find_feedsAndRange. rewrite dbCall_quiet. cbn [fst snd].
  rewrite run_bind, mapM_withFeed_quiet. reflexivity.
Qed.

Lemma sorted_app_between {A} (R : A -> A -> Prop) (l1 l2 : list A) :
  StronglySorted R (l1 ++ l2) -> forall x y, In x l1 -> In y l2 -> R x y.
Proof.
  induction l1 as [|a l1 IH]; simpl; intros Hs x y Hx Hy; [destruct Hx|].
  inversion Hs as [|? ? Hrest Hall]; subst. destruct Hx as [->|Hx].
  - apply (proj1 (Forall_forall _ _) Hall). apply in_or_app. now right.
  - now apply IH.
Qed.

Lemma sortByPubDateDesc_length (l : list RssArticle) :
  List.length (sortByPubDateDesc l) = List.length l.
Proof.
  assert (Hins : forall a l0, List.length (insertDesc a l0) = S (List.length l0)).
  { intros a l0. induction l0 as [|b l0 IH]; simpl; [reflexivity|].
    destruct (art_pubDate b <=? art_pubDate a)%Z; simpl; [reflexivity|]. now rewrite IH. }
  induction l as [|a l IH]; simpl; [reflexivity|]. now rewrite Hins, IH.
Qed.

(** X15.  When every requested id is well formed, the query returns in
    every world.  With limit 0 it shows every stored article that matches
    the filter.  With a positive limit it shows that many, or all of them
    when there are fewer.  With a negative limit it shows at most the
    absolute value of the limit and no more than the server puts into
    the single batch of its reply.  Whatever the limit, each matching
    article that is left out is no newer than any article shown. *)
Theorem getArticlesByFeedsAndDateRange_newest_cut
        (ids : list string) (oids : list ObjectId) (startDate endDate limit : Z) (w : World) :
  parseAll ids = Some oids ->
  let found := matching oids startDate endDate (store (interleave w)) in
  exists result,
    outcome (getArticlesByFeedsAndDateRange ids startDate endDate limit) w = Returned result
    /\ List.length result
       = (if (limit =? 0)%Z then List.length found
          else if (limit <? 0)%Z
               then Nat.min (Nat.min (Z.abs_nat limit) (singleBatch RssArticle found))
                            (List.length found)
               else Nat.min (Z.to_nat limit) (List.length found))
    /\ forall a, In a (rssArticles (store (interleave w))) ->
                 matchesFeedsAndRange oids startDate endDate a = true ->
                 (exists r, In r result /\ shows a r)
                 \/ (limit <> 0%Z
                     /\ forall r, In r result -> (art_pubDate a <= awf_pubDate r)%Z).
Proof.
  intros Hp found.
  pose proof (getArticlesByFeedsAndDateRange_run ids startDate endDate limit w) as Hrun.
  rewrite Hp in Hrun. destruct Hrun as (result & Hres & Hshows).
  fold (matching oids startDate endDate (store (interleave w))) in Hshows. fold found in Hshows.
  exists result. split; [exact Hres|]. split.
  - rewrite <- (Forall2_length Hshows). unfold cursorLimit.
    destruct (Z.eqb_spec limit 0) as [Hz|Hnz]; [reflexivity|].
    destruct (Z.ltb_spec limit 0) as [Hneg|Hpos]; rewrite length_firstn; [reflexivity|].
    f_equal. lia.
  - intros a Hin Hm.
    assert (Ha : In a found).
    { unfold found, matching. apply sortByPubDateDesc_In, filter_In. auto. }
    assert (Hshown : forall b, In b (cursorLimit (singleBatch RssArticle found) limit found) ->
                               exists r, In r result /\ shows b r).
    { clear -Hshows. induction Hshows as [|b r l l' Hbr Hf IH]; intros x Hx; [destruct Hx|].
      destruct Hx as [->|Hx].
      - exists r. split; [now left|exact Hbr].
      - destruct (IH x Hx) as (r' & Hr' & Hs). exists r'. split; [now right|exact Hs]. }
    assert (Hcut : limit <> 0%Z ->
                   exists k, cursorLimit (singleBatch RssArticle found) limit found
                             = firstn k found).
    { intros Hnz. unfold cursorLimit. destruct (Z.eqb_spec limit 0) as [Hz|_]; [contradiction|].
      destruct (limit <? 0)%Z; eexists; reflexivity. }
    destruct (Z.eq_dec limit 0) as [Hz|Hnz].
    + left. apply Hshown. unfold cursorLimit. rewrite Hz. exact Ha.
    + destruct (Hcut Hnz) as [k Hk]. rewrite Hk in Hshown, Hshows.
      rewrite <- (firstn_skipn k found) in Ha.
      apply in_app_or in Ha. destruct Ha as [Ha|Ha]; [left; now apply Hshown|].
      right. split; [exact Hnz|]. intros r Hr.
      destruct (Forall2_shown_by _ _ _ _ Hshows Hr) as (b & Hb & Hbr).
      assert (Hsorted : StronglySorted newestFirstStored (firstn k found ++ skipn k found)).
      { rewrite firstn_skipn. apply sortByPubDateDesc_sorted. }
      pose proof (sorted_app_between _ _ _ Hsorted b a Hb Ha) as Hle.
      unfold newestFirstStored in Hle. destruct Hbr as (_ & _ & _ & _ & _ & ->). exact Hle.
Qed.

(** X16.  When feed ids are unique and no other request writes in between,
    after [deleteRssFeed] of a feed every article that the query returns
    and whose primary feed is the deleted one is shown without feed
    information ([feed: null]). *)
Theorem deleted_primary_feed_shows_null
        (id : string) (o : ObjectId) (ids : list string) (oids : list ObjectId)
        (startDate endDate limit : Z) (s : Store) (c : list LogEntry) :
  parseObjectId id = Some o ->
  NoDup (map fd_id (rssFeeds s)) ->
  parseAll ids = Some oids ->
  let w' := after (deleteRssFeed id) (mkWorld s [] c) in
  exists result,
    outcome (getArticlesByFeedsAndDateRange ids startDate endDate limit) w' = Returned result
    /\ forall r, In r result -> awf_feedId r = o -> awf_feed r = None.
Proof.
  intros Hp Hnd Hids w'. unfold w', after. rewrite (deleteRssFeed_quiet id o s c Hp).
  cbn [snd]. unfold outcome. rewrite (run_getArticles_quiet ids oids _ _ _ _ c Hids).
  cbn [fst]. eexists. split; [reflexivity|].
  intros r Hr Ho. apply in_map_iff in Hr. destruct Hr as (a & <- & _).
  unfold presented in *. cbn [awf_feedId awf_feed rssFeeds] in *. unfold fromObjectId in Ho.
  rewrite Ho, (find_removeFirst_unique o _ Hnd). reflexivity.
Qed.

(** *** getFeedsToRefresh and prepareFeedsAndArticles, continued *)

Lemma stale_of_quiet (ids : list string) (oids : list ObjectId) (s : Store)
      (c : list LogEntry) :
  parseAll ids = Some oids ->
  exists stale,
    getFeedsToRefresh ids (mkWorld s [] c) = (Returned stale, mkWorld s [] c)
    /\ forall id, In id stale <->
         exists f, In f (rssFeeds s) /\ In (fd_id f) oids /\ fd_id f = id
                   /\ ~ exists m, latestFetch (rssFeeds s) (fd_url f) = Some m
                                  /\ (clock s - CACHE_WINDOW <= m)%Z.
Proof.
  intros Hp. rewrite (run_getFeedsToRefresh_quiet ids oids s c Hp).
  eexists. split; [reflexivity|].
  set (requested := filter (fun f => includes oids (fd_id f)) (rssFeeds s)).
  set (urls := distinct (map fd_url requested)).
  set (recent := map grp_id _).
  assert (Hspec : forall f, In f requested ->
                    (includes recent (fd_url f) = true
                     <-> exists m, latestFetch (rssFeeds s) (fd_url f) = Some m
                                   /\ (clock s - CACHE_WINDOW <= m)%Z)).
  { intros f Hf. apply recent_urls_spec. apply distinct_In, in_map. exact Hf. }
  assert (Hreq : forall f, In f requested <-> In f (rssFeeds s) /\ In (fd_id f) oids).
  { intros f. unfold requested. rewrite filter_In, includes_In. reflexivity. }
  intros id. rewrite in_map_iff. unfold fromObjectId. split.
  - intros (f & Hid & Hf). apply filter_In in Hf. destruct Hf as [Hf Hnot].
    exists f. destruct (proj1 (Hreq f) Hf) as [Hin Hinc]. repeat split; auto.
    intros Hrecent. apply negb_true_iff in Hnot. apply (Hspec f Hf) in Hrecent. congruence.
  - intros (f & Hin & Hinc & Hid & Hnot). exists f. split; [exact Hid|].
    assert (Hf : In f requested) by (apply Hreq; auto).
    apply filter_In. split; [exact Hf|]. apply negb_true_iff.
    destruct (includes recent (fd_url f)) eqn:Hb; [|reflexivity].
    exfalso. apply Hnot. now apply (Hspec f Hf).
Qed.

(** X17.  When no other request writes in between and every requested
    stored feed has a fetch of its url within the window,
    [prepareFeedsAndArticles] fetches nothing and writes nothing: the
    store is unchanged, the only log line is "all feeds are fresh", and
    the outcome is that of the article query on the unchanged store. *)
Theorem prepareFeedsAndArticles_skips_fresh_feeds
        (params : PrepareFeedsParams) (oids : list ObjectId) (s : Store) (c : list LogEntry) :
  parseAll (feedIds params) = Some oids ->
  (forall f, In f (rssFeeds s) -> In (fd_id f) oids ->
             exists m, latestFetch (rssFeeds s) (fd_url f) = Some m
                       /\ (clock s - m <= CACHE_WINDOW)%Z) ->
  let w := mkWorld s [] c in
  let logged := c ++ [LogAllFresh (List.length (feedIds params))] in
  store (after (prepareFeedsAndArticles params) w) = s
  /\ console (after (prepareFeedsAndArticles params) w) = logged
  /\ outcome (prepareFeedsAndArticles params) w
     = outcome (queryArticles params) (mkWorld s [] logged).
Proof.
  intros Hp Hfresh w logged.
  destruct (stale_of_quiet (feedIds params) oids s c Hp) as (stale & Hrun & Hstale).
  assert (Hnone : stale = []).
  { destruct stale as [|id rest]; [reflexivity|]. exfalso.
    destruct (proj1 (Hstale id) (or_introl eq_refl)) as (f & Hin & Hinc & _ & Hnot).
    apply Hnot. destruct (Hfresh f Hin Hinc) as (m & Hm & Hle). exists m. split; [exact Hm|lia]. }
  subst stale.
  assert (Hrefresh : refreshStaleFeeds params w = (Returned tt, mkWorld s [] logged)).
  { unfold refreshStaleFeeds, w. rewrite run_bind, Hrun. reflexivity. }
  unfold outcome, after. rewrite run_prepareFeedsAndArticles, Hrefresh.
  unfold queryArticles. rewrite run_bind.
  rewrite (run_getArticles_quiet _ oids _ _ _ s logged Hp).
  destruct (List.length _ =? 0)%nat; repeat split.
Qed.

(** X18.  In every world, a list that [prepareFeedsAndArticles] returns has
    at least one and at most 100 articles, newest first, each with its
    date in the requested range and with a requested feed as its primary
    feed or among its sources. *)
Theorem prepareFeedsAndArticles_result_bounds
        (params : PrepareFeedsParams) (w : World) (result : list ArticleWithFeed) :
  outcome (prepareFeedsAndArticles params) w = Returned result ->
  exists oids,
    parseAll (feedIds params) = Some oids
    /\ 1 <= List.length result <= 100
    /\ StronglySorted newestFirst result
    /\ Forall (fun r => fromRequestedFeeds oids r
                        /\ inDateRange (startDate params) (endDate params) r) result.
Proof.
  unfold outcome. rewrite run_prepareFeedsAndArticles.
  destruct (refreshStaleFeeds params w) as [[[]|e] w1]; [|discriminate].
  fold (outcome (queryArticles params) w1). rewrite run_queryArticles.
  pose proof (getArticlesByFeedsAndDateRange_run (feedIds params) (startDate params)
                (endDate params) ARTICLE_LIMIT w1) as Hrun.
  destruct (parseAll (feedIds params)) as [oids|].
  - destruct Hrun as (l & Hl & Hshows). rewrite Hl.
    destruct l as [|a l]; [discriminate|]. intros [= <-]. exists oids.
    split; [reflexivity|]. split; [|split].
    + split; [simpl; lia|].
      assert (Hlen : (Z.of_nat (List.length (a :: l)) <= ARTICLE_LIMIT)%Z).
      { rewrite <- (Forall2_length Hshows). apply cursorLimit_length. reflexivity. }
      unfold ARTICLE_LIMIT in Hlen. lia.
    + apply (Forall2_sorted _ _ Hshows). apply cursorLimit_sorted, sortByPubDateDesc_sorted.
    + apply Forall_forall. intros r Hr.
      destruct (Forall2_shown_by _ _ _ _ Hshows Hr) as (b & Hb & Hbr).
      apply cursorLimit_In, sortByPubDateDesc_In, filter_In in Hb.
      exact (matchesFeedsAndRange_sound _ _ _ _ _ Hbr (proj2 Hb)).
  - destruct Hrun as (e & He & _). rewrite He. discriminate.
Qed.

(** X19.  When feed ids are unique and no other request writes in between,
    [getFeedsToRefresh] reports each stale feed once, and its answer
    depends only on which feeds are requested: two requests with the same
    set of ids, in any order and with any repetition, get the same
    answer. *)
Theorem getFeedsToRefresh_depends_on_the_set
        (ids ids' : list string) (oids oids' : list ObjectId) (s : Store) (c : list LogEntry) :
  parseAll ids = Some oids ->
  parseAll ids' = Some oids' ->
  (forall x, In x oids <-> In x oids') ->
  NoDup (map fd_id (rssFeeds s)) ->
  outcome (getFeedsToRefresh ids) (mkWorld s [] c)
  = outcome (getFeedsToRefresh ids') (mkWorld s [] c)
  /\ exists stale, outcome (getFeedsToRefresh ids) (mkWorld s [] c) = Returned stale
                   /\ NoDup stale.
Proof.
  intros Hp Hp' Hsame Hnd. unfold outcome.
  rewrite (run_getFeedsToRefresh_quiet ids oids s c Hp).
  rewrite (run_getFeedsToRefresh_quiet ids' oids' s c Hp'). cbn [fst].
  assert (Hreq : filter (fun f => includes oids (fd_id f)) (rssFeeds s)
                 = filter (fun f => includes oids' (fd_id f)) (rssFeeds s)).
  { apply filter_ext. intros f.
    destruct (includes oids (fd_id f)) eqn:H1, (includes oids' (fd_id f)) eqn:H2; auto.
    - apply includes_In, Hsame, includes_In in H1. congruence.
    - apply includes_In, Hsame, includes_In in H2. congruence. }
  rewrite <- Hreq. split; [reflexivity|]. eexists. split; [reflexivity|].
  unfold fromObjectId.
  assert (Hsub : forall (p : RssFeed -> bool) l, NoDup (map fd_id l) ->
                                                 NoDup (map fd_id (filter p l))).
  { intros p l. induction l as [|g l IH]; simpl; intros H; [constructor|].
    inversion H as [|? ? Hnotin H']; subst. destruct (p g); simpl; [|auto].
    constructor; [|auto]. intros Hin. apply Hnotin.
    apply in_map_iff in Hin. destruct Hin as (g' & Hg' & Hin).
    apply filter_In in Hin. rewrite <- Hg'. apply in_map. tauto. }
  apply Hsub, Hsub, Hnd.
Qed.

(** *** validateAndAddFeed *)

Lemma run_fetchAndStoreFeed_fails_quiet (id : string) (o : ObjectId) (f : RssFeed) (e : Exn)
      (s : Store) (c : list LogEntry) :
  parseObjectId id = Some o ->
  find (feedIdIs o) (rssFeeds s) = Some f ->
  fetchAndParseFeed (fd_url f) id = inl e ->
  fetchAndStoreFeed id (mkWorld s [] c)
  = (Thrown e, mkWorld s [] (c ++ [LogDatabaseError "fetch feed" e])).
Proof.
  intros Hp Hf Hfetch. unfold fetchAndStoreFeed, wrapDatabaseOperation, tryCatch.
  rewrite run_bind, run_toObjectId, Hp, run_bind.
  unfold feeds_findOne_id. rewrite dbCall_quiet. cbn [fst snd]. rewrite Hf, Hfetch.
  reflexivity.
Qed.

Lemma find_new_feed (g userId : ObjectId) (url : string) (m : FeedMetadata) (t : option Z)
      (feeds : list RssFeed) :
  find (feedIdIs g) feeds = None ->
  find (feedIdIs g) (feeds ++ [mkFeed g userId url m t]) = Some (mkFeed g userId url m t).
Proof.
  intros Hnone. rewrite (find_app_none _ _ _ Hnone). cbn [find]. unfold feedIdIs at 1.
  cbn [fd_id]. now rewrite String.eqb_refl.
Qed.


(** X21.  When no other request writes in between, the url is accepted,
    the user has no feed with this url yet and the initial fetch fails,
    [validateAndAddFeed] does not throw and does not roll back: the new
    feed stays stored, without metadata and never fetched, and is returned
    with zero counts and the note "Feed created but initial fetch
    failed".  No article is written. *)
Theorem validateAndAddFeed_keeps_feed_when_fetch_fails
        (validateFeedUrl : string -> bool) (generated : nat -> ObjectId)
        (userId url : string) (u : ObjectId) (e : Exn) (s : Store) (c : list LogEntry) :
  validateFeedUrl url = true ->
  parseObjectId userId = Some u ->
  existsb (sameSubscription u url) (rssFeeds s) = false ->
  parseObjectId (generated (nextId s)) = Some (generated (nextId s)) ->
  find (feedIdIs (generated (nextId s))) (rssFeeds s) = None ->
  fetchAndParseFeed url (generated (nextId s)) = inl e ->
  let w := mkWorld s [] c in
  let new := mkFeed (generated (nextId s)) u url (mkMetadata None None None None None) None in
  outcome (validateAndAddFeed validateFeedUrl generated userId url) w
  = Returned (mkAddFeedResult new 0 0 (Some "Feed created but initial fetch failed"))
  /\ rssFeeds (store (after (validateAndAddFeed validateFeedUrl generated userId url) w))
     = rssFeeds s ++ [new]
  /\ rssArticles (store (after (validateAndAddFeed validateFeedUrl generated userId url) w))
     = rssArticles s.
Proof.
  intros Hv Hu Hdup Hg Hfresh Hfetch w new.
  set (g := generated (nextId s)) in *.
  set (s1 := mkStore (rssFeeds s ++ [new]) (rssArticles s) (clock s) (S (nextId s))).
  assert (Hfind1 : find (feedIdIs g) (rssFeeds s1) = Some new)
    by (apply find_new_feed; exact Hfresh).
  assert (Hrun : validateAndAddFeed validateFeedUrl generated userId url w
                 = (Returned (mkAddFeedResult new 0 0
                                (Some "Feed created but initial fetch failed")),
                    mkWorld s1 []
                      ((c ++ [LogDatabaseError "fetch feed" e])
                         ++ [LogDatabaseError "Failed to fetch initial articles:" e]))).
  { unfold w, validateAndAddFeed, wrapDatabaseOperation.
    rewrite Hv. cbn [negb]. unfold tryCatch at 1.
    rewrite run_bind. unfold newDate at 1. rewrite run_bind, run_toObjectId, Hu, run_bind.
    unfold feeds_insertOne. rewrite dbCall_quiet. rewrite Hdup. cbn [fst snd].
    fold g. fold new. fold s1. unfold fromObjectId, tryCatch. rewrite run_bind.
    rewrite (run_fetchAndStoreFeed_fails_quiet g g new e s1 c Hg Hfind1 Hfetch).
    rewrite run_bind. unfold emit at 1. rewrite run_bind.
    unfold feeds_findOne_id. rewrite dbCall_quiet. cbn [fst snd store]. rewrite Hfind1.
    reflexivity. }
  unfold outcome, after. rewrite Hrun. repeat split.
Qed.

(** X22.  When no other request writes in between, the url is accepted,
    the user has no feed with this url yet and the initial fetch
    succeeds, [validateAndAddFeed] returns the new feed with the metadata
    of the fetch and [lastFetched] set to the current date, together with
    the number of fetched articles as [articlesCreated] and 0 skipped; the
    feed is appended to the collection as returned, and every fetched guid
    is stored with the new feed among its sources. *)
Theorem validateAndAddFeed_stores_feed_and_articles
        (validateFeedUrl : string -> bool) (generated : nat -> ObjectId)
        (userId url : string) (u : ObjectId)
        (metadata : FeedMetadata) (articles : list ArticleData)
        (s : Store) (c : list LogEntry) :
  validateFeedUrl url = true ->
  parseObjectId userId = Some u ->
  existsb (sameSubscription u url) (rssFeeds s) = false ->
  parseObjectId (generated (nextId s)) = Some (generated (nextId s)) ->
  find (feedIdIs (generated (nextId s))) (rssFeeds s) = None ->
  fetchAndParseFeed url (generated (nextId s)) = inr (metadata, articles) ->
  let w := mkWorld s [] c in
  let w' := after (validateAndAddFeed validateFeedUrl generated userId url) w in
  let new := mkFeed (generated (nextId s)) u url metadata (Some (clock s)) in
  outcome (validateAndAddFeed validateFeedUrl generated userId url) w
  = Returned (mkAddFeedResult new (List.length articles) 0 None)
  /\ rssFeeds (store w') = rssFeeds s ++ [new]
  /\ forall a, In a articles ->
       exists x, find (guidIs (ad_guid a)) (rssArticles (store w')) = Some x
                 /\ In (generated (nextId s)) (sourcesOf x).
Proof.
  intros Hv Hu Hdup Hg Hfresh Hfetch w w' new.
  set (g := generated (nextId s)) in *.
  set (blank := mkFeed g u url (mkMetadata None None None None None) None).
  set (s1 := mkStore (rssFeeds s ++ [blank]) (rssArticles s) (clock s) (S (nextId s))).
  assert (Hfind1 : find (feedIdIs g) (rssFeeds s1) = Some blank)
    by (apply find_new_feed; exact Hfresh).
  assert (Hblank : feedIdIs g blank = true) by (unfold feedIdIs; simpl; apply String.eqb_refl).
  assert (Hrun : validateAndAddFeed validateFeedUrl generated userId url w
                 = (Returned (mkAddFeedResult new (List.length articles) 0 None),
                    mkWorld (setFeeds (storeAfterBulk (map (toCreateData g) articles) s1)
                                      (rssFeeds s ++ [new])) [] c)).
  { unfold w, validateAndAddFeed, wrapDatabaseOperation.
    rewrite Hv. cbn [negb]. unfold tryCatch at 1.
    rewrite run_bind. unfold newDate at 1. rewrite run_bind, run_toObjectId, Hu, run_bind.
    unfold feeds_insertOne. rewrite dbCall_quiet. rewrite Hdup. cbn [fst snd].
    fold g. fold blank. fold s1. unfold fromObjectId, tryCatch. rewrite run_bind.
    rewrite (run_fetchAndStoreFeed_quiet g g blank metadata articles s1 c Hg Hfind1 Hfetch).
    rewrite run_bind. unfold feeds_updateOne_metadata. rewrite dbCall_quiet.
    cbn [fst snd setFeeds rssFeeds rssArticles clock nextId fr_metadata fr_created fr_skipped].
    change (rssFeeds s1) with (rssFeeds s ++ [blank]).
    rewrite (updateFirst_app_none _ _ _ _ Hfresh Hblank).
    rewrite (updateFirst_app_none _ _ _ _ Hfresh);
      [|unfold feedIdIs; simpl; apply String.eqb_refl].
    rewrite run_bind. unfold feeds_findOne_id. rewrite dbCall_quiet. cbn [fst snd store rssFeeds].
    change (withMetadata (withLastFetched blank (clock s1)) metadata) with new.
    unfold setFeeds at 1 3. cbn [rssFeeds].
    unfold new at 1. rewrite (find_new_feed g u url metadata (Some (clock s)) _ Hfresh).
    reflexivity. }
  unfold w', outcome, after. rewrite Hrun. cbn [fst snd store setFeeds rssFeeds rssArticles].
  split; [reflexivity|]. split; [reflexivity|].
  intros a Ha.
  destruct (storeAfterBulk_ingests (map (toCreateData g) articles) s1
              (toCreateData g a) g (in_map _ _ _ Ha) Hg) as (x & Hx & Hin).
  exists x. split; [exact Hx|]. cbn [feedId toCreateData] in Hin.
  destruct Hin as [Hin|Hin]; now apply includes_In.
Qed.


(** *** The newsletter archive *)

Lemma run_bindN {A B} (m : N A) (k : A -> N B) (w : Archive) :
  bindN m k w = match m w with
                | (Returned a, w') => k a w'
                | (Thrown e, w') => (Thrown e, w')
                end.
Proof. reflexivity. Qed.

Lemma run_toArchiveId (id : string) (w : Archive) :
  toArchiveId id w = match parseObjectId id with
                     | Some o => (Returned o, w)
                     | None => (Thrown (JsError ("Invalid ObjectId: " ++ id)), w)
                     end.
Proof. unfold toArchiveId. destruct (parseObjectId id); reflexivity. Qed.

Lemma run_toArchiveIds (ids : list string) (w : Archive) :
  match parseAll ids with
  | Some os => toArchiveIds ids w = (Returned os, w)
  | None => exists e, toArchiveIds ids w = (Thrown e, w) /\ invalidObjectId e
  end.
Proof.
  induction ids as [|id rest IH]; [reflexivity|].
  cbn [parseAll toArchiveIds]. rewrite run_bindN, run_toArchiveId.
  destruct (parseObjectId id) as [o|].
  - rewrite run_bindN. destruct (parseAll rest) as [os|].
    + rewrite IH. reflexivity.
    + destruct IH as (e & IH & He). exists e. rewrite IH. auto.
  - eexists. split; [reflexivity|]. now exists id.
Qed.

Lemma archive_eta (w : Archive) :
  mkArchive (newsletters w) (archiveClock w) (archiveNextId w) (archiveConsole w) = w.
Proof. destruct w; reflexivity. Qed.

Lemma filter_removeFirst {A} (p q : A -> bool) (l : list A) (x : A) :
  find p l = Some x -> q x = false -> filter q (removeFirst p l) = filter q l.
Proof.
  induction l as [|y l IH]; simpl; [discriminate|].
  destruct (p y).
  - intros [= ->] Hq. now rewrite Hq.
  - intros Hf Hq. simpl. now rewrite (IH Hf Hq).
Qed.

Lemma run_deleteNewsletter (id userId : string) (w : Archive) :
  newsletters (snd (deleteNewsletter id userId w))
  = match parseObjectId id with
    | Some o =>
        match find (newsletterIdIs o) (newsletters w) with
        | Some n => if notOf userId n then newsletters w
                    else removeFirst (newsletterIdIs o) (newsletters w)
        | None => newsletters w
        end
    | None => newsletters w
    end
  /\ fst (deleteNewsletter id userId w)
     = match parseObjectId id with
       | Some o =>
           match find (newsletterIdIs o) (newsletters w) with
           | Some n => if notOf userId n
                       then Thrown (JsError "Unauthorized: Newsletter does not belong to user")
                       else Returned n
           | None => Thrown (JsError "Newsletter not found")
           end
       | None => Thrown (JsError ("Invalid ObjectId: " ++ id))
       end.
Proof.
  unfold deleteNewsletter, wrapArchiveOperation. rewrite run_bindN, run_toArchiveId.
  destruct (parseObjectId id) as [o|] eqn:Hp; [|split; reflexivity].
  rewrite run_bindN. unfold newsletters_findOne.
  destruct (find (newsletterIdIs o) (newsletters w)) as [n|]; [|split; reflexivity].
  unfold notOf. destruct (negb (String.eqb (fromObjectId (nl_userId n)) userId));
    [split; reflexivity|].
  rewrite run_bindN, run_toArchiveId, Hp. split; reflexivity.
Qed.

(** X24.  In every archive and for every id, [deleteNewsletter] leaves the
    newsletters of all other users in place, whatever it returns or
    throws. *)
Theorem deleteNewsletter_spares_other_users (id userId : string) (w : Archive) :
  filter (notOf userId) (newsletters (snd (deleteNewsletter id userId w)))
  = filter (notOf userId) (newsletters w).
Proof.
  rewrite (proj1 (run_deleteNewsletter id userId w)).
  destruct (parseObjectId id) as [o|]; [|reflexivity].
  destruct (find (newsletterIdIs o) (newsletters w)) as [n|] eqn:Hf; [|reflexivity].
  destruct (notOf userId n) eqn:Hn; [reflexivity|].
  exact (filter_removeFirst _ _ _ n Hf Hn).
Qed.

Lemma find_removeFirst_unique_newsletter (o : ObjectId) (l : list Newsletter) :
  NoDup (map nl_id l) -> find (newsletterIdIs o) (removeFirst (newsletterIdIs o) l) = None.
Proof.
  induction l as [|g l IH]; simpl; [reflexivity|].
  intros Hnd. inversion Hnd as [|? ? Hnotin Hnd']; subst.
  destruct (newsletterIdIs o g) eqn:Hg; simpl.
  - destruct (find (newsletterIdIs o) l) as [g'|] eqn:Hf; [|reflexivity].
    exfalso. apply Hnotin. apply find_some_holds in Hf. destruct Hf as [Hg' Hin].
    unfold newsletterIdIs in *. apply String.eqb_eq in Hg, Hg'. rewrite Hg, <- Hg'.
    now apply in_map.
  - rewrite Hg. auto.
Qed.

(** X25.  When the newsletter is stored and belongs to the user,
    [deleteNewsletter] returns it and removes it from the collection; when
    newsletter ids are unique, [getNewsletterById] then answers null for
    that id.  When the id is well formed and not stored it throws
    "Newsletter not found", and when the newsletter belongs to another
    user it throws "Unauthorized: ..."; in both cases the collection is
    unchanged. *)
Theorem deleteNewsletter_checks_then_removes
        (id userId : string) (o : ObjectId) (w : Archive) :
  parseObjectId id = Some o ->
  match find (newsletterIdIs o) (newsletters w) with
  | None =>
      fst (deleteNewsletter id userId w) = Thrown (JsError "Newsletter not found")
      /\ newsletters (snd (deleteNewsletter id userId w)) = newsletters w
  | Some n =>
      if String.eqb (nl_userId n) userId
      then fst (deleteNewsletter id userId w) = Returned n
           /\ newsletters (snd (deleteNewsletter id userId w))
              = removeFirst (newsletterIdIs o) (newsletters w)
           /\ (NoDup (map nl_id (newsletters w)) ->
               fst (getNewsletterById id userId (snd (deleteNewsletter id userId w)))
               = Returned None)
      else fst (deleteNewsletter id userId w)
           = Thrown (JsError "Unauthorized: Newsletter does not belong to user")
           /\ newsletters (snd (deleteNewsletter id userId w)) = newsletters w
  end.
Proof.
  intros Hp. destruct (run_deleteNewsletter id userId w) as [Hstore Hout].
  rewrite Hp in Hstore, Hout.
  destruct (find (newsletterIdIs o) (newsletters w)) as [n|] eqn:Hf; [|auto].
  unfold notOf, fromObjectId in *.
  destruct (String.eqb (nl_userId n) userId); cbn [negb] in *; [|auto].
  split; [exact Hout|]. split; [exact Hstore|].
  intros Hnd. unfold getNewsletterById, wrapArchiveOperation.
  rewrite run_bindN, run_toArchiveId, Hp, run_bindN. unfold newsletters_findOne.
  rewrite Hstore, (find_removeFirst_unique_newsletter o _ Hnd). reflexivity.
Qed.

(** X26.  In every archive, [getNewsletterById] changes nothing, and a
    newsletter it returns is stored under the requested id and belongs to
    the requesting user; for a stored newsletter of another user it
    throws "Unauthorized: ..." instead of returning it. *)
Theorem getNewsletterById_returns_only_own (id userId : string) (w : Archive) :
  newsletters (snd (getNewsletterById id userId w)) = newsletters w
  /\ (forall n, fst (getNewsletterById id userId w) = Returned (Some n) ->
                In n (newsletters w)
                /\ parseObjectId id = Some (nl_id n)
                /\ nl_userId n = userId)
  /\ (forall o n, parseObjectId id = Some o ->
                  find (newsletterIdIs o) (newsletters w) = Some n ->
                  nl_userId n <> userId ->
                  fst (getNewsletterById id userId w)
                  = Thrown (JsError "Unauthorized: Newsletter does not belong to user")).
Proof.
  unfold getNewsletterById, wrapArchiveOperation. rewrite run_bindN, run_toArchiveId.
  destruct (parseObjectId id) as [o|]; [|repeat split; discriminate].
  rewrite run_bindN. unfold newsletters_findOne.
  destruct (find (newsletterIdIs o) (newsletters w)) as [n|] eqn:Hf.
  - unfold fromObjectId. destruct (String.eqb_spec (nl_userId n) userId) as [Heq|Hne];
      cbn [negb fst snd retN throwN newsletters].
    + split; [reflexivity|]. split.
      * intros n' [= <-]. apply find_some_holds in Hf. destruct Hf as [Hid Hin].
        apply String.eqb_eq in Hid. rewrite Hid. auto.
      * intros o' n' Ho Hn Hne'. exfalso. congruence.
    + split; [reflexivity|]. split; [discriminate|]. reflexivity.
  - cbn [fst snd retN]. split; [reflexivity|]. split; [discriminate|].
    intros o' n' Ho Hn. exfalso. congruence.
Qed.

Lemma insertNewest_In (rank : Newsletter -> nat) (a x : Newsletter) (l : list Newsletter) :
  In x (insertNewest rank a l) <-> x = a \/ In x l.
Proof.
  statement_variables_only.
  induction l as [|b l IH]; simpl.
  - intuition.
  - destruct (comesBefore rank a b); simpl; [intuition|].
    rewrite IH. intuition.
Qed.

Lemma comesBefore_newer (rank : Newsletter -> nat) (a b : Newsletter) :
  comesBefore rank a b = true -> (nl_createdAt b <= nl_createdAt a)%Z.
Proof.
  unfold comesBefore. intros H. apply orb_true_iff in H. destruct H as [H|H].
  - apply Z.ltb_lt in H. lia.
  - apply andb_true_iff in H. destruct H as [H _]. apply Z.eqb_eq in H. lia.
Qed.

Lemma comesBefore_older (rank : Newsletter -> nat) (a b : Newsletter) :
  comesBefore rank a b = false -> (nl_createdAt a <= nl_createdAt b)%Z.
Proof.
  unfold comesBefore. intros H. apply orb_false_iff in H. destruct H as [H _].
  apply Z.ltb_ge in H. exact H.
Qed.

Lemma insertNewest_sorted (rank : Newsletter -> nat) (a : Newsletter) (l : list Newsletter) :
  StronglySorted newestNewsletterFirst l ->
  StronglySorted newestNewsletterFirst (insertNewest rank a l).
Proof.
  intros H. induction H as [|b l Hl IH Hb]; simpl.
  - constructor; constructor.
  - destruct (comesBefore rank a b) eqn:Hc.
    + apply comesBefore_newer in Hc. constructor; [constructor; assumption|].
      constructor; [exact Hc|].
      eapply Forall_impl; [|exact Hb]. unfold newestNewsletterFirst. intros; lia.
    + apply comesBefore_older in Hc. constructor; [exact IH|].
      apply Forall_forall. intros x Hx. apply insertNewest_In in Hx.
      destruct Hx as [->|Hx].
      * exact Hc.
      * exact (proj1 (Forall_forall _ _) Hb x Hx).
Qed.

Lemma sortByCreatedAtDesc_sorted (rank : Newsletter -> nat) (l : list Newsletter) :
  StronglySorted newestNewsletterFirst (sortByCreatedAtDesc rank l).
Proof.
  induction l as [|a l IH]; simpl; [constructor|]. now apply insertNewest_sorted.
Qed.

Lemma sortByCreatedAtDesc_In (rank : Newsletter -> nat) (l : list Newsletter) (x : Newsletter) :
  In x (sortByCreatedAtDesc rank l) <-> In x l.
Proof.
  statement_variables_only.
  induction l as [|a l IH]; simpl; [tauto|]. rewrite insertNewest_In, IH. intuition.
Qed.

Lemma sortByCreatedAtDesc_length (rank : Newsletter -> nat) (l : list Newsletter) :
  List.length (sortByCreatedAtDesc rank l) = List.length l.
Proof.
  assert (Hins : forall a l0, List.length (insertNewest rank a l0) = S (List.length l0)).
  { intros a l0. induction l0 as [|b l0 IH]; simpl; [reflexivity|].
    destruct (comesBefore rank a b); simpl; [reflexivity|]. now rewrite IH. }
  induction l as [|a l IH]; simpl; [reflexivity|]. now rewrite Hins, IH.
Qed.

(** When no two dates are equal the server has no choice. *)
Lemma insertNewest_no_tie (rank rank' : Newsletter -> nat) (a : Newsletter)
      (l : list Newsletter) :
  (forall b, In b l -> nl_createdAt b <> nl_createdAt a) ->
  insertNewest rank a l = insertNewest rank' a l.
Proof.
  induction l as [|b l IH]; intros Hne; [reflexivity|]. cbn [insertNewest].
  assert (Hb : (nl_createdAt b =? nl_createdAt a)%Z = false).
  { apply Z.eqb_neq. apply Hne. now left. }
  unfold comesBefore. rewrite Hb. cbn [andb].
  destruct (nl_createdAt b <? nl_createdAt a)%Z; cbn [orb]; [reflexivity|].
  f_equal. apply IH. intros x Hx. apply Hne. now right.
Qed.

Lemma sortByCreatedAtDesc_no_tie (rank rank' : Newsletter -> nat) (l : list Newsletter) :
  NoDup (map nl_createdAt l) ->
  sortByCreatedAtDesc rank l = sortByCreatedAtDesc rank' l.
Proof.
  induction l as [|a l IH]; intros Hnd; [reflexivity|].
  inversion Hnd as [|? ? Hnotin Hrest]; subst. cbn [sortByCreatedAtDesc fold_right].
  fold (sortByCreatedAtDesc rank l). fold (sortByCreatedAtDesc rank' l).
  rewrite (IH Hrest). apply insertNewest_no_tie.
  intros b Hb Heq. apply sortByCreatedAtDesc_In in Hb. apply Hnotin.
  rewrite <- Heq. now apply in_map.
Qed.

Lemma skipn_subset {A} (n : nat) (l : list A) (x : A) : In x (skipn n l) -> In x l.
Proof.
  revert n. induction l as [|y l IH]; intros [|n]; simpl; auto.
  intros H. right. eauto.
Qed.

Lemma skipn_sorted {A} (R : A -> A -> Prop) (n : nat) (l : list A) :
  StronglySorted R l -> StronglySorted R (skipn n l).
Proof.
  intros H. revert n. induction H as [|a l Hl IH Ha]; intros [|n]; simpl;
    try constructor; auto.
Qed.

Lemma run_getNewslettersByUserId (userId : string) (u : ObjectId)
      (options : option Pagination) (w : Archive) :
  parseObjectId userId = Some u ->
  getNewslettersByUserId userId options w
  = (Returned
       (let sorted := sortByCreatedAtDesc
                        (tieOrder (optionsSkip options) (optionsLimit options))
                        (filter (newsletterOf u) (newsletters w)) in
        let skipped := match optionsSkip options with
                       | Some n => skipn n sorted
                       | None => sorted
                       end in
        match optionsLimit options with
        | Some l => cursorLimit (singleBatch Newsletter skipped) l skipped
        | None => skipped
        end),
     w).
Proof.
  intros Hp. unfold getNewslettersByUserId, wrapArchiveOperation.
  rewrite run_bindN, run_toArchiveId, Hp. reflexivity.
Qed.

(** X27.  For a well-formed user id, [getNewslettersByUserId] returns
    without changing the archive; every newsletter it returns is stored
    and belongs to that user; they come newest first; and with a positive
    [limit] there are at most [limit] of them. *)
Theorem getNewslettersByUserId_lists_own_newest_first
        (userId : string) (u : ObjectId) (options : option Pagination) (w : Archive) :
  parseObjectId userId = Some u ->
  exists result,
    getNewslettersByUserId userId options w = (Returned result, w)
    /\ Forall (fun n => In n (newsletters w) /\ nl_userId n = u) result
    /\ StronglySorted newestNewsletterFirst result
    /\ forall p l, options = Some p -> pg_limit p = Some l -> (0 < l)%Z ->
                   (Z.of_nat (List.length result) <= l)%Z.
Proof.
  intros Hp. rewrite (run_getNewslettersByUserId userId u options w Hp).
  eexists. split; [reflexivity|]. cbv zeta.
  set (sorted := sortByCreatedAtDesc _ (filter (newsletterOf u) (newsletters w))).
  set (skipped := match optionsSkip options with Some n => skipn n sorted | None => sorted end).
  assert (Hsub : forall x, In x skipped -> In x sorted).
  { intros x. unfold skipped. destruct (optionsSkip options); [apply skipn_subset|auto]. }
  assert (Hsorted : StronglySorted newestNewsletterFirst skipped).
  { unfold skipped, sorted. destruct (optionsSkip options);
      [apply skipn_sorted|]; apply sortByCreatedAtDesc_sorted. }
  split; [|split].
  - apply Forall_forall. intros n Hn.
    assert (Hin : In n skipped).
    { destruct (optionsLimit options); [now apply cursorLimit_In in Hn|exact Hn]. }
    apply Hsub, sortByCreatedAtDesc_In, filter_In in Hin. destruct Hin as [Hin Hu].
    split; [exact Hin|]. now apply String.eqb_eq in Hu.
  - destruct (optionsLimit options); [now apply cursorLimit_sorted|exact Hsorted].
  - intros p l -> Hl Hpos. unfold optionsLimit. rewrite Hl.
    destruct (Z.eqb_spec l 0) as [->|_]; [lia|]. now apply cursorLimit_length.
Qed.

(** X28.  For a well-formed user id whose newsletters all have different
    creation dates: [getNewslettersCountByUserId] is the length of the
    unpaginated list; a limit of 0 and a skip of 0 are read as "not given"
    and return the whole list; and for every k > 0 the first page (limit
    k) followed by the rest (skip k) is exactly the unpaginated list,
    whatever order the server would use among equal dates. *)
Theorem getNewslettersByUserId_pages_cover_the_list
        (userId : string) (u : ObjectId) (w : Archive) :
  parseObjectId userId = Some u ->
  NoDup (map nl_createdAt (filter (newsletterOf u) (newsletters w))) ->
  exists all,
    fst (getNewslettersByUserId userId None w) = Returned all
    /\ fst (getNewslettersCountByUserId userId w) = Returned (List.length all)
    /\ fst (getNewslettersByUserId userId (Some (mkPagination (Some 0%Z) (Some 0))) w)
       = Returned all
    /\ forall k, 0 < k ->
         exists page rest,
           fst (getNewslettersByUserId userId
                  (Some (mkPagination (Some (Z.of_nat k)) None)) w) = Returned page
           /\ fst (getNewslettersByUserId userId (Some (mkPagination None (Some k))) w)
              = Returned rest
           /\ page ++ rest = all.
Proof.
  intros Hp Hnd. rewrite !(run_getNewslettersByUserId userId u _ w Hp).
  eexists. cbn [fst optionsSkip optionsLimit pg_skip pg_limit Z.eqb]. split; [reflexivity|].
  split; [|split; [reflexivity|]].
  - unfold getNewslettersCountByUserId, wrapArchiveOperation.
    rewrite run_bindN, run_toArchiveId, Hp. unfold newsletters_count. cbn [fst].
    now rewrite sortByCreatedAtDesc_length.
  - intros k Hk. rewrite !(run_getNewslettersByUserId userId u _ w Hp).
    cbn [fst optionsSkip optionsLimit pg_skip pg_limit].
    destruct k as [|k]; [lia|].
    destruct (Z.eqb_spec (Z.of_nat (S k)) 0) as [Hz|_]; [lia|].
    eexists. eexists. split; [reflexivity|]. split; [reflexivity|].
    rewrite (sortByCreatedAtDesc_no_tie (tieOrder None (Some (Z.of_nat (S k))))
               (tieOrder None None) _ Hnd).
    rewrite (sortByCreatedAtDesc_no_tie (tieOrder (Some (S k)) None)
               (tieOrder None None) _ Hnd).
    unfold cursorLimit. destruct (Z.eqb_spec (Z.of_nat (S k)) 0) as [Hz|_]; [lia|].
    destruct (Z.ltb_spec (Z.of_nat (S k)) 0) as [Hneg|_]; [lia|].
    rewrite Zabs2Nat.id. apply firstn_skipn.
Qed.

(** X29.  When the user id and the feed ids of the data are well formed
    and the id that the driver generates is new and prints as itself,
    [createNewsletter] appends one newsletter with the given content,
    dates and feeds, created now, and returns it; [getNewsletterById] with
    the returned id and user id then returns the same newsletter, and the
    user's count has grown by one. *)
Theorem createNewsletter_then_lookup
        (generated : nat -> ObjectId) (data : NewsletterData)
        (u : ObjectId) (feeds : list ObjectId) (w : Archive) :
  parseObjectId (nd_userId data) = Some u ->
  parseAll (nd_feedsUsed data) = Some feeds ->
  parseObjectId (generated (archiveNextId w)) = Some (generated (archiveNextId w)) ->
  find (newsletterIdIs (generated (archiveNextId w))) (newsletters w) = None ->
  let n := mkNewsletter (generated (archiveNextId w)) u (nd_content data)
                        (nd_startDate data) (nd_endDate data) (nd_userInput data)
                        feeds (archiveClock w) (archiveClock w) in
  let w' := snd (createNewsletter generated data w) in
  fst (createNewsletter generated data w) = Returned n
  /\ newsletters w' = newsletters w ++ [n]
  /\ fst (getNewsletterById (nl_id n) (nl_userId n) w') = Returned (Some n)
  /\ forall count, fst (getNewslettersCountByUserId (nd_userId data) w) = Returned count ->
                   fst (getNewslettersCountByUserId (nd_userId data) w') = Returned (S count).
Proof.
  intros Hu Hfeeds Hg Hfresh n w'.
  set (g := generated (archiveNextId w)) in *.
  assert (Hself : newsletterIdIs g n = true)
    by (unfold newsletterIdIs; simpl; apply String.eqb_refl).
  assert (Hfind : find (newsletterIdIs g) (newsletters w ++ [n]) = Some n).
  { rewrite (find_app_none _ _ _ Hfresh). cbn [find]. now rewrite Hself. }
  assert (Hrun : createNewsletter generated data w
                 = (Returned n, mkArchive (newsletters w ++ [n]) (archiveClock w)
                                          (S (archiveNextId w)) (archiveConsole w))).
  { unfold createNewsletter, wrapArchiveOperation.
    rewrite run_bindN. unfold archiveDate at 1.
    rewrite run_bindN, run_toArchiveId, Hu, run_bindN.
    pose proof (run_toArchiveIds (nd_feedsUsed data) w) as Hids. rewrite Hfeeds in Hids.
    rewrite Hids, run_bindN. unfold newsletters_insertOne at 1. fold g. fold n.
    rewrite run_bindN. unfold newsletters_findOne. cbn [newsletters]. rewrite Hfind.
    reflexivity. }
  unfold w'. rewrite Hrun. cbn [fst snd newsletters].
  split; [reflexivity|]. split; [reflexivity|]. split.
  - unfold getNewsletterById, wrapArchiveOperation. cbn [nl_id nl_userId n].
    rewrite run_bindN, run_toArchiveId, Hg, run_bindN. unfold newsletters_findOne.
    cbn [newsletters]. rewrite Hfind. unfold fromObjectId. cbn [nl_userId n].
    rewrite String.eqb_refl. reflexivity.
  - intros count. unfold getNewslettersCountByUserId, wrapArchiveOperation.
    rewrite !run_bindN, !run_toArchiveId, Hu. unfold newsletters_count. cbn [fst newsletters].
    intros [= <-]. rewrite filter_app, length_app. cbn [filter].
    unfold newsletterOf at 2. cbn [nl_userId n]. rewrite String.eqb_refl. cbn [List.length].
    f_equal. lia.
Qed.

(** X30.  In every archive, when the user id or one of the feed ids of the
    data is malformed, [createNewsletter] throws "Invalid ObjectId: ..."
    and stores nothing. *)
Theorem createNewsletter_refuses_malformed_ids
        (generated : nat -> ObjectId) (data : NewsletterData) (w : Archive) :
  parseObjectId (nd_userId data) = None \/ parseAll (nd_feedsUsed data) = None ->
  exists e,
    fst (createNewsletter generated data w) = Thrown e
    /\ invalidObjectId e
    /\ newsletters (snd (createNewsletter generated data w)) = newsletters w.
Proof.
  intros Hbad.
  assert (Hrun : exists e,
             invalidObjectId e
             /\ createNewsletter generated data w
                = (Thrown e,
                   mkArchive (newsletters w) (archiveClock w) (archiveNextId w)
                             (archiveConsole w ++ [LogDatabaseError "create newsletter" e]))).
  { unfold createNewsletter, wrapArchiveOperation.
    rewrite run_bindN. unfold archiveDate at 1. rewrite run_bindN, run_toArchiveId.
    destruct (parseObjectId (nd_userId data)) as [u|] eqn:Hu.
    - destruct Hbad as [Hbad|Hbad]; [discriminate|].
      rewrite run_bindN. pose proof (run_toArchiveIds (nd_feedsUsed data) w) as Hids.
      rewrite Hbad in Hids. destruct Hids as (e & Hids & He). rewrite Hids.
      exists e. split; [exact He|reflexivity].
    - eexists. split; [|reflexivity]. now exists (nd_userId data). }
  destruct Hrun as (e & He & Hrun). rewrite Hrun. exists e. repeat split. exact He.
Qed.

End Actions.

(** ** Concrete runs *)

Lemma feed_ids_distinct : NoDup (map fd_id (rssFeeds (sharedUrlStore 0))).
Proof.
  repeat (constructor; [simpl; intuition discriminate|]). constructor.
Defined.

(** C1 as stated fails at the boundary.  Feeds A and B share a url, A was
    fetched at date 1000 and now is exactly one window later: the claim
    wants B stale, [getFeedsToRefresh] does not report it. *)
Lemma getFeedsToRefresh_boundary_counterexample :
  latestFetch (rssFeeds (sharedUrlStore (1000 + CACHE_WINDOW))) (fd_url recordB) = Some 1000%Z
  /\ (clock (sharedUrlStore (1000 + CACHE_WINDOW)) - 1000 = CACHE_WINDOW)%Z
  /\ exists stale,
       outcome (getFeedsToRefresh hexObjectId [feedB])
               (quietWorld (sharedUrlStore (1000 + CACHE_WINDOW))) = Returned stale
       /\ ~ In feedB stale.
Proof.
  split; [reflexivity|]. split; [reflexivity|].
  exists []. split; [vm_compute; reflexivity|]. intros [].
Qed.

Lemma getFeedsToRefresh_classifies_witness :
  exists stale,
    outcome (getFeedsToRefresh hexObjectId [feedB; feedC])
            (quietWorld (sharedUrlStore (1001 + CACHE_WINDOW))) = Returned stale
    /\ In feedB stale /\ In feedC stale.
Proof.
  destruct (getFeedsToRefresh_classifies hexObjectId [feedB; feedC] [feedB; feedC]
              (sharedUrlStore (1001 + CACHE_WINDOW)) [] eq_refl feed_ids_distinct)
    as (stale & Hrun & _ & Hclass).
  exists stale. split; [exact Hrun|]. split.
  - apply (Hclass recordB); [simpl; tauto|simpl; tauto|]. vm_compute. reflexivity.
  - apply (Hclass recordC); [simpl; tauto|simpl; tauto|]. vm_compute. exact I.
Defined.

(** The scenario of the specification: A was fetched one hour ago, C
    never; requested together, C is stale and A is fresh. *)
Example stale_and_fresh_together :
  outcome (getFeedsToRefresh hexObjectId [feedA; feedC])
          (quietWorld (sharedUrlStore (1000 + 3600000)))
  = Returned [feedC].
Proof. vm_compute. reflexivity. Qed.

Lemma ingestion_idempotent_and_commutative_witness :
  exists a l,
    filter (guidIs "g1")
           (rssArticles
              (store (after (createRssArticle hexObjectId (dataFrom feedB "g1" 7))
                            (after (createRssArticle hexObjectId (dataFrom feedA "g1" 7))
                                   (quietWorld (emptyStore 5000)))))) = [a]
    /\ art_sourceFeedIds a = Some l
    /\ NoDup l
    /\ forall x, In x l <-> x = feedA \/ x = feedB.
Proof.
  exact (proj1 (ingestion_idempotent_and_commutative hexObjectId
                  (dataFrom feedA "g1" 7) (dataFrom feedB "g1" 7) feedA feedB
                  (emptyStore 5000) []
                  eq_refl eq_refl eq_refl eq_refl eq_refl eq_refl)).
Defined.

(** C3.  The code does not do what the claim says.  Feeds A and B have
    the same url and are both stale, and one request refreshes both; the
    runtime resumes the two refreshes in turn.  Both look up each guid
    before either has inserted it; the insert of A succeeds and the insert
    of B fails with the duplicate-key error (code 11000).
    [createRssArticle] does not go back to the update: it logs the error
    and throws it, [bulkCreateRssArticles] counts the article as skipped,
    and feed B is never added to the sources of any of the three
    articles.  Afterwards a query for feed B alone finds nothing, and a
    newsletter from feed B alone fails with "No articles found".  Run one
    after the other, the same two refreshes leave every article with both
    sources.  The same happens to a single [createRssArticle] when another
    request inserts the guid between its lookup and its insert. *)
Theorem duplicate_key_conflict_loses_the_source :
  let w := quietWorld (sharedUrlStore (1001 + CACHE_WINDOW)) in
  let refreshes := map (fetchAndStoreFeedAsync hexObjectId sampleNetwork) [feedA; feedB] in
  let inFlight := allSettled (inTurn 2 30) refreshes w in
  let oneAfterTheOther := allSettled oneByOne refreshes w in
  let sources := map (fun a => (art_guid a, sourcesOf a)) in
  outcome (getFeedsToRefresh hexObjectId [feedA; feedB]) w = Returned [feedA; feedB]
  /\ fst inFlight
     = Returned [Fulfilled (mkFetchResult sampleMetadata 3 0 0);
                 Fulfilled (mkFetchResult sampleMetadata 0 3 0)]
  /\ console (snd inFlight)
     = [LogDatabaseError "create RSS article" (MongoServerError 11000);
        LogDatabaseError "create RSS article" (MongoServerError 11000);
        LogDatabaseError "create RSS article" (MongoServerError 11000)]
  /\ sources (rssArticles (store (snd inFlight)))
     = [("g1", [feedA]); ("g2", [feedA]); ("g3", [feedA])]
  /\ outcome (getArticlesByFeedsAndDateRange hexObjectId batchOf101 [feedB] 0 5000 100)
             (snd inFlight) = Returned []
  /\ outcome (prepareFeedsAndArticles hexObjectId sampleNetwork batchOf101
                               (inTurn 2 30)
                (mkParams [feedB] 0 5000))
             (snd inFlight) = Thrown noArticlesFound
  /\ sources (rssArticles (store (snd oneAfterTheOther)))
     = [("g1", [feedA; feedB]); ("g2", [feedA; feedB]); ("g3", [feedA; feedB])]
  /\ outcome (createRssArticle hexObjectId (dataFrom feedB "g1" 7)) raceWorld
     = Thrown (MongoServerError 11000)
  /\ sources (rssArticles (store (after (createRssArticle hexObjectId (dataFrom feedB "g1" 7))
                                        raceWorld)))
     = [("g1", [feedA])].
Proof. cbv zeta. repeat split; vm_compute; reflexivity. Qed.

(** The scenario of the specification, with both refreshes in flight:
    feed B (three articles) succeeds, feed C times out. *)
Lemma prepareFeedsAndArticles_tolerates_failed_refreshes_witness :
  exists results w3,
    refreshStaleFeeds hexObjectId sampleNetwork (inTurn 2 30) (mkParams [feedB; feedC] 0 5000)
                      (quietWorld (sharedUrlStore (1001 + CACHE_WINDOW)))
    = (Returned tt,
       after (emit (LogRefreshComplete (count isFulfilled results) (count isRejected results)))
             w3)
    /\ count isFulfilled results + count isRejected results = 2
    /\ Forall2 (fun id r =>
                  exists f o,
                    find (feedIdIs id) (rssFeeds (sharedUrlStore (1001 + CACHE_WINDOW))) = Some f
                    /\ r = settle o
                    /\ settlesOnItsOwn sampleNetwork id f (1001 + CACHE_WINDOW) o w3)
               [feedB; feedC] results.
Proof.
  assert (Hne : [feedB; feedC] <> []) by discriminate.
  destruct (prepareFeedsAndArticles_tolerates_failed_refreshes hexObjectId sampleNetwork
              batchOf101 (inTurn 2 30)
              (mkParams [feedB; feedC] 0 5000)
              (quietWorld (sharedUrlStore (1001 + CACHE_WINDOW)))
              (quietWorld (sharedUrlStore (1001 + CACHE_WINDOW)))
              [feedB; feedC] eq_refl Hne)
    as (results & w3 & _ & _ & Hsum & Hrun & _ & _ & Hown).
  exists results, w3. split; [exact Hrun|]. split; [exact Hsum|].
  apply Hown; [reflexivity|]. intros f [<-|[<-|[<-|[]]]]; reflexivity.
Defined.

Example one_refresh_fails_one_succeeds :
  let run := refreshStaleFeeds hexObjectId sampleNetwork (inTurn 2 30)
                               (mkParams [feedB; feedC] 0 5000)
                               (quietWorld (sharedUrlStore (1001 + CACHE_WINDOW))) in
  fst run = Returned tt
  /\ console (snd run)
     = [LogRefreshing 2 2;
        LogDatabaseError "fetch feed" (JsError "Request timed out");
        LogRefreshComplete 1 1]
  /\ map fd_lastFetched (rssFeeds (store (snd run)))
     = [Some 1000%Z; Some (1001 + CACHE_WINDOW)%Z; None].
Proof. cbv zeta. repeat split; vm_compute; reflexivity. Qed.

Example refreshed_articles_are_queryable :
  option_map (map awf_guid)
             (match outcome (prepareFeedsAndArticles hexObjectId sampleNetwork batchOf101
                               (inTurn 2 30)
                               (mkParams [feedB; feedC] 0 5000))
                            (quietWorld (sharedUrlStore (1001 + CACHE_WINDOW))) with
              | Returned l => Some l
              | Thrown _ => None
              end)
  = Some ["g3"; "g2"; "g1"].
Proof. vm_compute. reflexivity. Qed.

Example no_articles_in_range :
  outcome (prepareFeedsAndArticles hexObjectId sampleNetwork batchOf101 (inTurn 2 30)
             (mkParams [feedB; feedC] 0 500))
          (quietWorld (sharedUrlStore (1001 + CACHE_WINDOW)))
  = Thrown noArticlesFound.
Proof. vm_compute. reflexivity. Qed.

(** C6 as stated fails for the limit 0, which the cursor reads as "no
    limit": two articles come back. *)
Lemma getArticlesByFeedsAndDateRange_limit_counterexample :
  exists result,
    outcome (getArticlesByFeedsAndDateRange hexObjectId batchOf101 [feedA] 0 5000 0)
            (quietWorld threeArticles) = Returned result
    /\ ~ (Z.of_nat (List.length result) <= 0)%Z.
Proof.
  eexists. split; [vm_compute; reflexivity|]. simpl. lia.
Qed.

Lemma getArticlesByFeedsAndDateRange_sound_witness :
  (0 < 1)%Z
  /\ exists result,
       outcome (getArticlesByFeedsAndDateRange hexObjectId batchOf101 [feedB] 0 5000 1)
               (quietWorld threeArticles) = Returned result
       /\ Forall (fun r => fromRequestedFeeds [feedB] r /\ inDateRange 0 5000 r) result
       /\ StronglySorted newestFirst result
       /\ (Z.of_nat (List.length result) <= 1)%Z.
Proof.
  split; [lia|].
  pose proof (getArticlesByFeedsAndDateRange_sound hexObjectId batchOf101 [feedB] 0 5000 1
                (quietWorld threeArticles)) as H.
  change (parseAll hexObjectId [feedB]) with (Some [feedB]) in H.
  destruct H as (result & Hrun & Hall & Hsorted & Hlimit).
  exists result. split; [exact Hrun|]. split; [|split; [exact Hsorted|apply Hlimit; lia]].
  eapply Forall_impl; [|exact Hall]. intros r (H1 & H2 & _). split; assumption.
Defined.

(** C7 as stated fails when an article of the fetch is not ingested.
    While feed B is refreshed, another request wins the insert of "g1":
    the tallies say one article was skipped, feed B is not among the
    sources of "g1", and [lastFetched] of feed B is set all the same. *)
Lemma fetchAndStoreFeed_counterexample :
  outcome (fetchAndStoreFeed hexObjectId sampleNetwork feedB) raceDuringRefresh
  = Returned (mkFetchResult (mkMetadata (Some "A") None None None None) 2 1 0)
  /\ map (fun f => (fd_id f, fd_lastFetched f))
         (rssFeeds (store (after (fetchAndStoreFeed hexObjectId sampleNetwork feedB)
                                 raceDuringRefresh)))
     = [(feedA, Some 1000%Z); (feedB, Some 5000%Z); (feedC, None)]
  /\ map (fun a => (art_guid a, sourcesOf a))
         (rssArticles (store (after (fetchAndStoreFeed hexObjectId sampleNetwork feedB)
                                    raceDuringRefresh)))
     = [("g1", [feedC]); ("g2", [feedB]); ("g3", [feedB])].
Proof.
  split; [vm_compute; reflexivity|]. split; vm_compute; reflexivity.
Qed.

Lemma fetchAndStoreFeed_updates_after_ingestion_witness :
  outcome (fetchAndStoreFeed hexObjectId sampleNetwork feedC)
          (quietWorld (sharedUrlStore 5000))
  = Thrown (JsError "Request timed out")
  /\ store (after (fetchAndStoreFeed hexObjectId sampleNetwork feedC)
                  (quietWorld (sharedUrlStore 5000)))
     = store (interleave (quietWorld (sharedUrlStore 5000))).
Proof.
  exact (fetchAndStoreFeed_updates_after_ingestion hexObjectId sampleNetwork
           feedC feedC recordC (quietWorld (sharedUrlStore 5000)) eq_refl eq_refl).
Defined.

Lemma deleteRssFeed_removes_references_witness :
  rssArticles (store (after (deleteRssFeed hexObjectId feedA) (quietWorld threeArticles)))
  = [withSourceFeedIds fromAandB (Some [feedB]); fromB].
Proof.
  destruct (deleteRssFeed_removes_references hexObjectId feedA feedA threeArticles []
              eq_refl) as (_ & Hafter & _).
  etransitivity; [exact Hafter|]. vm_compute. reflexivity.
Defined.

(** C9 as stated fails for [deleteRssFeed].  Article "g2" has primary feed
    A and sources A and B; after feed A is deleted it is still stored,
    with primary feed A and B as its only source. *)
Lemma article_invariant_counterexample :
  Forall primaryIsSource (rssArticles threeArticles)
  /\ ~ Forall primaryIsSource
         (rssArticles (store (after (deleteRssFeed hexObjectId feedA)
                                    (quietWorld threeArticles)))).
Proof.
  split.
  - repeat constructor; unfold primaryIsSource; simpl; tauto.
  - intros H. change (rssArticles (store (after (deleteRssFeed hexObjectId feedA)
                                                (quietWorld threeArticles))))
      with [withSourceFeedIds fromAandB (Some [feedB]); fromB] in H.
    inversion H as [|? ? Hhead _]; subst. unfold primaryIsSource in Hhead. simpl in Hhead.
    destruct Hhead as [Heq|[]]. discriminate Heq.
Qed.

Lemma article_invariant_preservation_witness :
  Forall hasSources
         (rssArticles (store (after (deleteRssFeed hexObjectId feedA)
                                    (quietWorld threeArticles))))
  /\ Forall primaryIsSource
            (rssArticles (store (after (createRssArticle hexObjectId (dataFrom feedC "g1" 7))
                                       (quietWorld threeArticles)))).
Proof.
  assert (Hinv : Forall primaryIsSource (rssArticles (store (quietWorld threeArticles))))
    by (repeat constructor; unfold primaryIsSource; simpl; tauto).
  destruct (article_invariant_preservation hexObjectId (quietWorld threeArticles)
              eq_refl Hinv) as (Hcreate & Hdelete & _).
  split; [apply Hdelete|apply Hcreate].
Defined.

(** ** Concrete runs of the further properties *)

Lemma article_guids_distinct : NoDup (map art_guid (rssArticles threeArticles)).
Proof.
  repeat (constructor; [simpl; intuition discriminate|]). constructor.
Defined.

Lemma article_ids_generated : idsGenerated threeArticles.
Proof. unfold idsGenerated. repeat constructor. Defined.

Lemma newsletter_ids_distinct : NoDup (map nl_id (newsletters sampleArchive)).
Proof.
  repeat (constructor; [simpl; intuition discriminate|]). constructor.
Defined.

Lemma updateFeedLastFetched_sets_only_lastFetched_witness :
  outcome (updateFeedLastFetched hexObjectId feedB) (quietWorld (sharedUrlStore 5000))
  = Returned (withLastFetched recordB 5000).
Proof.
  exact (proj1 (updateFeedLastFetched_sets_only_lastFetched hexObjectId feedB feedB recordB
                  (sharedUrlStore 5000) [] eq_refl eq_refl)).
Defined.

Lemma updateFeedLastFetched_missing_feed_witness :
  outcome (updateFeedLastFetched hexObjectId (generatedId 9)) (quietWorld (sharedUrlStore 5000))
  = Thrown (JsError "Feed with ID 64b000000000000000000009 not found")
  /\ store (after (updateFeedLastFetched hexObjectId (generatedId 9))
                  (quietWorld (sharedUrlStore 5000)))
     = store (interleave (quietWorld (sharedUrlStore 5000))).
Proof.
  exact (updateFeedLastFetched_missing_feed hexObjectId (generatedId 9) (generatedId 9)
           (quietWorld (sharedUrlStore 5000)) eq_refl eq_refl).
Defined.

Lemma malformed_feed_id_is_refused_witness :
  outcome (fetchAndStoreFeed hexObjectId sampleNetwork "not-an-id") raceWorld
  = Thrown (JsError "Invalid ObjectId: not-an-id")
  /\ after (fetchAndStoreFeed hexObjectId sampleNetwork "not-an-id") raceWorld
     = mkWorld (store raceWorld) (others raceWorld)
               [LogDatabaseError "fetch feed" (JsError "Invalid ObjectId: not-an-id")].
Proof.
  exact (proj2 (proj2 (proj2 (malformed_feed_id_is_refused hexObjectId sampleNetwork
                                "not-an-id" raceWorld eq_refl)))).
Defined.

Lemma malformed_request_is_refused_witness :
  exists e,
    invalidObjectId e
    /\ throwsUntouched (prepareFeedsAndArticles hexObjectId sampleNetwork batchOf101
                               (inTurn 2 30)
                          (mkParams [feedA; "zz"] 0 5000)) e
                       (quietWorld (sharedUrlStore 5000)).
Proof.
  destruct (malformed_request_is_refused hexObjectId sampleNetwork batchOf101 (inTurn 2 30)
              (mkParams [feedA; "zz"] 0 5000) 100 (quietWorld (sharedUrlStore 5000)) eq_refl)
    as (e & He & _ & _ & Hprepare).
  exists e. split; assumption.
Defined.

Lemma deleteRssFeed_forgets_feed_witness :
  find (feedIdIs feedA)
       (rssFeeds (store (after (deleteRssFeed hexObjectId feedA) (quietWorld threeArticles))))
  = None.
Proof.
  exact (proj1 (deleteRssFeed_forgets_feed hexObjectId feedA feedA threeArticles []
                  eq_refl feed_ids_distinct)).
Defined.

Lemma deleteRssFeed_idempotent_witness :
  store (after (deleteRssFeed hexObjectId feedA)
               (after (deleteRssFeed hexObjectId feedA) (quietWorld threeArticles)))
  = store (after (deleteRssFeed hexObjectId feedA) (quietWorld threeArticles)).
Proof.
  exact (deleteRssFeed_idempotent hexObjectId feedA feedA threeArticles []
           eq_refl feed_ids_distinct).
Defined.

Lemma createRssArticle_keeps_guids_unique_witness :
  NoDup (map art_guid
             (rssArticles (store (after (createRssArticle hexObjectId (dataFrom feedC "g1" 7))
                                        (quietWorld threeArticles))))).
Proof.
  exact (createRssArticle_keeps_guids_unique hexObjectId (dataFrom feedC "g1" 7)
           (quietWorld threeArticles) eq_refl article_guids_distinct).
Defined.

Lemma createRssArticle_first_writer_wins_witness :
  exists ex',
    outcome (createRssArticle hexObjectId (dataFrom feedC "g1" 7)) (quietWorld threeArticles)
    = Returned ex'
    /\ withSourceFeedIds ex' (art_sourceFeedIds onlyA) = onlyA.
Proof.
  destruct (createRssArticle_first_writer_wins hexObjectId (dataFrom feedC "g1" 7) feedC onlyA
              threeArticles [] eq_refl eq_refl) as (ex' & Hout & _ & Hsame & _).
  exists ex'. split; assumption.
Defined.

Lemma createRssArticle_new_guid_witness :
  outcome (createRssArticle hexObjectId (dataFrom feedC "g9" 7)) (quietWorld threeArticles)
  = Returned (mkArticle 3 feedC "g9" (Some [feedC]) 7 (storedFields (plainFields "g9"))
                        5000 5000).
Proof.
  exact (proj1 (createRssArticle_new_guid hexObjectId (dataFrom feedC "g9" 7) feedC
                  threeArticles [] eq_refl eq_refl article_ids_generated)).
Defined.

Lemma createRssArticle_returns_stored_article_witness :
  exists r,
    outcome (createRssArticle hexObjectId (dataFrom feedC "g2" 7)) (quietWorld threeArticles)
    = Returned r
    /\ find (guidIs "g2")
            (rssArticles (store (after (createRssArticle hexObjectId (dataFrom feedC "g2" 7))
                                       (quietWorld threeArticles))))
       = Some r
    /\ In feedC (sourcesOf r).
Proof.
  destruct (createRssArticle_returns_stored_article hexObjectId (dataFrom feedC "g2" 7)
              threeArticles [] eq_refl article_ids_generated)
    as (r & Hout & Hfind & _ & Hin).
  exists r. repeat split; assumption.
Defined.

Lemma bulkCreateRssArticles_counts_duplicates_as_created_witness :
  outcome (bulkCreateRssArticles hexObjectId
             [dataFrom feedC "g1" 7; dataFrom feedC "g1" 8; dataFrom feedC "g9" 9])
          (quietWorld threeArticles)
  = Returned (mkBulk 3 0 0).
Proof.
  assert (Hvalid : Forall (fun a => hexObjectId (feedId a) <> None)
                          [dataFrom feedC "g1" 7; dataFrom feedC "g1" 8; dataFrom feedC "g9" 9])
    by (repeat constructor; discriminate).
  exact (proj1 (bulkCreateRssArticles_counts_duplicates_as_created hexObjectId _
                  threeArticles [] Hvalid)).
Defined.

Lemma fetchAndStoreFeed_quiet_refresh_witness :
  outcome (fetchAndStoreFeed hexObjectId sampleNetwork feedB) (quietWorld (sharedUrlStore 5000))
  = Returned (mkFetchResult sampleMetadata 3 0 0)
  /\ find (feedIdIs feedB)
          (rssFeeds (store (after (fetchAndStoreFeed hexObjectId sampleNetwork feedB)
                                  (quietWorld (sharedUrlStore 5000)))))
     = Some (withLastFetched recordB 5000).
Proof.
  destruct (fetchAndStoreFeed_quiet_refresh hexObjectId sampleNetwork feedB feedB recordB
              sampleMetadata sampleArticles (sharedUrlStore 5000) []
              eq_refl eq_refl eq_refl) as (Hout & Hfind & _).
  split; assumption.
Defined.

Lemma fetchAndStoreFeed_missing_feed_witness :
  outcome (fetchAndStoreFeed hexObjectId sampleNetwork (generatedId 9))
          (quietWorld (sharedUrlStore 5000))
  = Thrown (JsError "Feed with ID 64b000000000000000000009 not found")
  /\ store (after (fetchAndStoreFeed hexObjectId sampleNetwork (generatedId 9))
                  (quietWorld (sharedUrlStore 5000)))
     = store (interleave (quietWorld (sharedUrlStore 5000))).
Proof.
  exact (fetchAndStoreFeed_missing_feed hexObjectId sampleNetwork (generatedId 9)
           (generatedId 9) (quietWorld (sharedUrlStore 5000)) eq_refl eq_refl).
Defined.

Lemma refresh_makes_the_url_fresh_witness :
  exists stale,
    outcome (getFeedsToRefresh hexObjectId [feedA; feedB])
            (after (fetchAndStoreFeed hexObjectId sampleNetwork feedB)
                   (quietWorld (sharedUrlStore (1001 + CACHE_WINDOW))))
    = Returned stale
    /\ ~ In feedA stale.
Proof.
  destruct (refresh_makes_the_url_fresh hexObjectId sampleNetwork feedB feedB recordB
              sampleMetadata sampleArticles [feedA; feedB] [feedA; feedB]
              (sharedUrlStore (1001 + CACHE_WINDOW)) []
              eq_refl eq_refl eq_refl feed_ids_distinct eq_refl) as (stale & Hrun & Hfresh).
  exists stale. split; [exact Hrun|].
  apply (Hfresh recordA); [|reflexivity]. vm_compute. left. reflexivity.
Defined.

Lemma getArticlesByFeedsAndDateRange_newest_cut_witness :
  exists result,
    outcome (getArticlesByFeedsAndDateRange hexObjectId batchOf101 [feedA; feedB] 0 5000 1)
            (quietWorld threeArticles) = Returned result
    /\ List.length result = 1.
Proof.
  destruct (getArticlesByFeedsAndDateRange_newest_cut hexObjectId batchOf101 [feedA; feedB]
              [feedA; feedB] 0 5000 1 (quietWorld threeArticles) eq_refl)
    as (result & Hrun & Hlen & _).
  exists result. split; [exact Hrun|]. rewrite Hlen. vm_compute. reflexivity.
Defined.

Lemma deleted_primary_feed_shows_null_witness :
  exists result,
    outcome (getArticlesByFeedsAndDateRange hexObjectId batchOf101 [feedB] 0 5000 0)
            (after (deleteRssFeed hexObjectId feedA) (quietWorld threeArticles))
    = Returned result
    /\ forall r, In r result -> awf_feedId r = feedA -> awf_feed r = None.
Proof.
  exact (deleted_primary_feed_shows_null hexObjectId batchOf101 feedA feedA [feedB] [feedB] 0 5000 0
           threeArticles [] eq_refl feed_ids_distinct eq_refl).
Defined.

(** After feed A is deleted, "g2" is still returned for feed B, with
    primary feed A and no feed information. *)
Example orphaned_article_is_returned :
  option_map (map (fun r => (awf_guid r, awf_feedId r, awf_feed r)))
             (match outcome (getArticlesByFeedsAndDateRange hexObjectId batchOf101 [feedB] 0 5000 0)
                            (after (deleteRssFeed hexObjectId feedA)
                                   (quietWorld threeArticles)) with
              | Returned l => Some l
              | Thrown _ => None
              end)
  = Some [("g3", feedB, Some (mkFeedInfo feedB None urlA)); ("g2", feedA, None)].
Proof. vm_compute. reflexivity. Qed.

Lemma prepareFeedsAndArticles_skips_fresh_feeds_witness :
  store (after (prepareFeedsAndArticles hexObjectId sampleNetwork batchOf101
                               (inTurn 2 30)
                  (mkParams [feedA; feedB] 0 5000))
               (quietWorld (sharedUrlStore (1000 + 3600000))))
  = sharedUrlStore (1000 + 3600000).
Proof.
  assert (Hfresh : forall f,
             In f (rssFeeds (sharedUrlStore (1000 + 3600000))) ->
             In (fd_id f) [feedA; feedB] ->
             exists m, latestFetch (rssFeeds (sharedUrlStore (1000 + 3600000))) (fd_url f)
                       = Some m
                       /\ (clock (sharedUrlStore (1000 + 3600000)) - m <= CACHE_WINDOW)%Z).
  { intros f [<-|[<-|[<-|[]]]] Hin.
    - exists 1000%Z. split; [reflexivity|]. vm_compute. discriminate.
    - exists 1000%Z. split; [reflexivity|]. vm_compute. discriminate.
    - exfalso. simpl in Hin. intuition discriminate. }
  exact (proj1 (prepareFeedsAndArticles_skips_fresh_feeds hexObjectId sampleNetwork
                  batchOf101 (inTurn 2 30)
                  (mkParams [feedA; feedB] 0 5000) [feedA; feedB]
                  (sharedUrlStore (1000 + 3600000)) [] eq_refl Hfresh)).
Defined.

Lemma prepareFeedsAndArticles_result_bounds_witness :
  exists result,
    outcome (prepareFeedsAndArticles hexObjectId sampleNetwork batchOf101
                               (inTurn 2 30)
               (mkParams [feedB; feedC] 0 5000))
            (quietWorld (sharedUrlStore (1001 + CACHE_WINDOW))) = Returned result
    /\ 1 <= List.length result <= 100.
Proof.
  destruct (outcome (prepareFeedsAndArticles hexObjectId sampleNetwork batchOf101
                               (inTurn 2 30)
                       (mkParams [feedB; feedC] 0 5000))
                    (quietWorld (sharedUrlStore (1001 + CACHE_WINDOW))))
    as [result|e] eqn:Hrun; [|vm_compute in Hrun; discriminate Hrun].
  destruct (prepareFeedsAndArticles_result_bounds hexObjectId sampleNetwork batchOf101
              (inTurn 2 30) _ _ _ Hrun)
    as (oids & _ & Hlen & _).
  exists result. split; [reflexivity|exact Hlen].
Defined.

Lemma getFeedsToRefresh_depends_on_the_set_witness :
  outcome (getFeedsToRefresh hexObjectId [feedB; feedC])
          (quietWorld (sharedUrlStore (1001 + CACHE_WINDOW)))
  = outcome (getFeedsToRefresh hexObjectId [feedC; feedB; feedC])
            (quietWorld (sharedUrlStore (1001 + CACHE_WINDOW))).
Proof.
  assert (Hsame : forall x, In x [feedB; feedC] <-> In x [feedC; feedB; feedC])
    by (intros x; simpl; tauto).
  exact (proj1 (getFeedsToRefresh_depends_on_the_set hexObjectId
                  [feedB; feedC] [feedC; feedB; feedC] [feedB; feedC] [feedC; feedB; feedC]
                  (sharedUrlStore (1001 + CACHE_WINDOW)) []
                  eq_refl eq_refl Hsame feed_ids_distinct)).
Defined.


Lemma validateAndAddFeed_keeps_feed_when_fetch_fails_witness :
  outcome (validateAndAddFeed hexObjectId sampleNetwork sampleValidate generatedId userV urlB)
          (quietWorld (sharedUrlStore 5000))
  = Returned (mkAddFeedResult (mkFeed (generatedId 0) userV urlB noMetadata None) 0 0
                              (Some "Feed created but initial fetch failed")).
Proof.
  exact (proj1 (validateAndAddFeed_keeps_feed_when_fetch_fails hexObjectId sampleNetwork
                  sampleValidate generatedId userV urlB userV (JsError "Request timed out")
                  (sharedUrlStore 5000) []
                  eq_refl eq_refl eq_refl eq_refl eq_refl eq_refl)).
Defined.

Lemma validateAndAddFeed_stores_feed_and_articles_witness :
  outcome (validateAndAddFeed hexObjectId sampleNetwork sampleValidate generatedId userV urlA)
          (quietWorld (sharedUrlStore 5000))
  = Returned (mkAddFeedResult (mkFeed (generatedId 0) userV urlA sampleMetadata (Some 5000%Z))
                              3 0 None).
Proof.
  exact (proj1 (validateAndAddFeed_stores_feed_and_articles hexObjectId sampleNetwork
                  sampleValidate generatedId userV urlA userV sampleMetadata sampleArticles
                  (sharedUrlStore 5000) []
                  eq_refl eq_refl eq_refl eq_refl eq_refl eq_refl)).
Defined.


Lemma deleteNewsletter_checks_then_removes_witness :
  fst (deleteNewsletter hexObjectId (nl_id letter2) userU sampleArchive)
  = Thrown (JsError "Unauthorized: Newsletter does not belong to user")
  /\ newsletters (snd (deleteNewsletter hexObjectId (nl_id letter2) userU sampleArchive))
     = newsletters sampleArchive.
Proof.
  exact (deleteNewsletter_checks_then_removes hexObjectId (nl_id letter2) userU
           (nl_id letter2) sampleArchive eq_refl).
Defined.

Example deleteNewsletter_removes_own :
  fst (deleteNewsletter hexObjectId (nl_id letter1) userU sampleArchive) = Returned letter1
  /\ newsletters (snd (deleteNewsletter hexObjectId (nl_id letter1) userU sampleArchive))
     = [letter2; letter3].
Proof. split; vm_compute; reflexivity. Qed.

Lemma getNewsletterById_returns_only_own_witness :
  fst (getNewsletterById hexObjectId (nl_id letter2) userU sampleArchive)
  = Thrown (JsError "Unauthorized: Newsletter does not belong to user").
Proof.
  assert (Hother : nl_userId letter2 <> userU) by discriminate.
  exact (proj2 (proj2 (getNewsletterById_returns_only_own hexObjectId (nl_id letter2) userU
                         sampleArchive))
               (nl_id letter2) letter2 eq_refl eq_refl Hother).
Defined.

Lemma getNewslettersByUserId_lists_own_newest_first_witness :
  exists result,
    getNewslettersByUserId hexObjectId batchOf101 noPreference userU
                           (Some (mkPagination (Some 1%Z) None)) sampleArchive
    = (Returned result, sampleArchive)
    /\ Forall (fun n => In n (newsletters sampleArchive) /\ nl_userId n = userU) result
    /\ (Z.of_nat (List.length result) <= 1)%Z.
Proof.
  destruct (getNewslettersByUserId_lists_own_newest_first hexObjectId batchOf101 noPreference
              userU userU (Some (mkPagination (Some 1%Z) None)) sampleArchive eq_refl)
    as (result & Hrun & Hown & _ & Hlimit).
  exists result. split; [exact Hrun|]. split; [exact Hown|].
  apply (Hlimit (mkPagination (Some 1%Z) None) 1%Z); [reflexivity|reflexivity|lia].
Defined.

Lemma getNewslettersByUserId_pages_cover_the_list_witness :
  exists all page rest,
    fst (getNewslettersByUserId hexObjectId batchOf101 noPreference userU None sampleArchive)
    = Returned all
    /\ fst (getNewslettersByUserId hexObjectId batchOf101 noPreference userU
              (Some (mkPagination (Some 1%Z) None)) sampleArchive) = Returned page
    /\ fst (getNewslettersByUserId hexObjectId batchOf101 noPreference userU
              (Some (mkPagination None (Some 1))) sampleArchive) = Returned rest
    /\ page ++ rest = all.
Proof.
  assert (Hdates : NoDup (map nl_createdAt
                              (filter (newsletterOf userU) (newsletters sampleArchive)))).
  { repeat (constructor; [simpl; intuition discriminate|]). constructor. }
  assert (Hone : 0 < 1) by lia.
  destruct (getNewslettersByUserId_pages_cover_the_list hexObjectId batchOf101 noPreference
              userU userU sampleArchive eq_refl Hdates) as (all & Hall & _ & _ & Hpages).
  destruct (Hpages 1 Hone) as (page & rest & Hpage & Hrest & Happ).
  exists all, page, rest. repeat split; assumption.
Defined.

Example newsletters_newest_first :
  fst (getNewslettersByUserId hexObjectId batchOf101 noPreference userU None sampleArchive)
  = Returned [letter3; letter1].
Proof. vm_compute. reflexivity. Qed.

Lemma createNewsletter_then_lookup_witness :
  fst (createNewsletter hexObjectId generatedId sampleLetter sampleArchive)
  = Returned (mkNewsletter (generatedId 3) userU (sampleContent "fourth") 0 100
                           (Some "short") [feedA; feedC] 5000 5000)
  /\ fst (getNewsletterById hexObjectId (generatedId 3) userU
            (snd (createNewsletter hexObjectId generatedId sampleLetter sampleArchive)))
     = Returned (Some (mkNewsletter (generatedId 3) userU (sampleContent "fourth") 0 100
                                    (Some "short") [feedA; feedC] 5000 5000)).
Proof.
  destruct (createNewsletter_then_lookup hexObjectId generatedId sampleLetter userU
              [feedA; feedC] sampleArchive eq_refl eq_refl eq_refl eq_refl)
    as (Hout & _ & Hlookup & _).
  split; [exact Hout|exact Hlookup].
Defined.

Lemma createNewsletter_refuses_malformed_ids_witness :
  exists e,
    fst (createNewsletter hexObjectId generatedId
           (mkNewsletterData userU (sampleContent "fifth") 0 100 None [feedA; "zz"])
           sampleArchive) = Thrown e
    /\ invalidObjectId e
    /\ newsletters (snd (createNewsletter hexObjectId generatedId
                           (mkNewsletterData userU (sampleContent "fifth") 0 100 None
                                             [feedA; "zz"])
                           sampleArchive))
       = newsletters sampleArchive.
Proof.
  exact (createNewsletter_refuses_malformed_ids hexObjectId generatedId
           (mkNewsletterData userU (sampleContent "fifth") 0 100 None [feedA; "zz"])
           sampleArchive (or_intror eq_refl)).
Defined.
